(** * Collage editor and timeline renderer: a shallow embedding

The development follows two source files of the repository:
the collage editor component (CollageGenerator, module [Collage]) and the
timeline renderer component (VideoPreview.tsx, module [Preview]), together
with the shared declarations of types.ts (module [Types]).

Numbers.  A JavaScript number is modelled as a rational ([Q]); arithmetic
is exact and rounding is outside the model.  The two quotients of the
render pipeline whose divisor is 0 when the search finds no slide (the
progress of the slide and the progress of the transition) are values of
[Preview.Quotient], which has the infinities and NaN; a frame that would
draw with such a scale or progress is [Preview.NotFinite].  Every other
division follows [Qdiv].  Statements about numeric results use the
rational equality [==].

Exceptions.  [drawImage] throws on an image element in the broken state.
The editor can hold such an element ([Types.Broken]), and a frame of the
editor that meets one ends there ([Collage.Aborted]); the timeline keeps
only elements that have loaded.

Platform.  The functions of the global [Math] object that have no rational
counterpart (sin, cos, atan2, hypot, the constant PI and the random
source), the text measurement of the 2D context and the presence of
[roundRect] are taken from a [Platform] instance.  General statements
hold for every platform; evaluations on concrete inputs use the platform
of module [Sample].

Canvas.  A call on the 2D context, or an assignment to one of its
properties, is one [CanvasOp]; drawing code returns the list of the
operations it issues, in order. *)

From Stdlib Require Import QArith Qround Qminmax Qabs ZArith List Ascii String Bool Lia Lqa.
From Stdlib Require Import Sorted Permutation.
Import ListNotations.

Open Scope Q_scope.

(* ------------------------------------------------------------------ *)
(** ** JavaScript helpers *)

Module JS.

(** [a < b] and [a <= b] as booleans. *)
Definition ltb (a b : Q) : bool := negb (Qle_bool b a).
Definition leb (a b : Q) : bool := Qle_bool a b.

(** [x || d] on an optional number: undefined and 0 are falsy. *)
Definition orNum (x : option Q) (d : Q) : Q :=
  match x with
  | Some q => if Qeq_bool q 0 then d else q
  | None => d
  end.

(** Truthiness of an optional string: undefined and the empty string are
    falsy. *)
Definition truthyStr (s : option string) : bool :=
  match s with
  | Some EmptyString => false
  | Some _ => true
  | None => false
  end.

(** [s || d] on an optional string. *)
Definition orStr (s : option string) (d : string) : string :=
  match s with
  | Some EmptyString => d
  | Some v => v
  | None => d
  end.

(** Truthiness of an optional boolean flag. *)
Definition truthyFlag (b : option bool) : bool :=
  match b with Some true => true | _ => false end.

(** Truthiness of an optional number (used by [strokeWidth && ...]). *)
Definition truthyNum (x : option Q) : bool :=
  match x with
  | Some q => negb (Qeq_bool q 0)
  | None => false
  end.

(** A number read from a field that may be absent, inside arithmetic.
    JavaScript gives NaN for the absent case; NaN is not a rational and is
    represented by 0.  No statement below depends on that value. *)
Definition numOf (x : option Q) : Q :=
  match x with Some q => q | None => 0 end.

(** Truncation towards zero, and the remainder operator [%] of JavaScript
    on numbers: the result has the sign of the dividend. *)
Definition trunc (a : Q) : Z :=
  if Qle_bool 0 a then Qfloor a else Qceiling a.

Definition rem (a b : Q) : Q := a - b * inject_Z (trunc (a / b)).

(** [Math.min(Math.max(lo, x), hi)] style clamps are written out where the
    source writes them; these are the two primitives. *)
Definition min (a b : Q) : Q := Qmin a b.
Definition max (a b : Q) : Q := Qmax a b.

(** [String.prototype.split('\n')]. *)
Fixpoint splitAcc (cur : string) (s : string) : list string :=
  match s with
  | EmptyString => [cur]
  | String c rest =>
      if Ascii.eqb c "010"%char
      then cur :: splitAcc EmptyString rest
      else splitAcc (cur ++ String c EmptyString)%string rest
  end.

Definition splitLines (s : string) : list string := splitAcc EmptyString s.

(** [Array.prototype.sort] with a numeric key comparator [a.k - b.k]:
    the sort is stable, so an insertion sort that places an element after
    the elements of equal key gives the same order. *)
Section Sort.
Context {A : Type}.
Variable key : A -> Q.

Fixpoint insertAsc (x : A) (l : list A) : list A :=
  match l with
  | [] => [x]
  | y :: ys => if ltb (key x) (key y) then x :: l else y :: insertAsc x ys
  end.

Definition sortAsc (l : list A) : list A :=
  fold_left (fun acc x => insertAsc x acc) l [].

Fixpoint insertDesc (x : A) (l : list A) : list A :=
  match l with
  | [] => [x]
  | y :: ys => if ltb (key y) (key x) then x :: l else y :: insertDesc x ys
  end.

Definition sortDesc (l : list A) : list A :=
  fold_left (fun acc x => insertDesc x acc) l [].
End Sort.

End JS.

(* ------------------------------------------------------------------ *)
(** ** The platform *)

(** A font as assembled by the template [`bold ${size}px ${family}`]. *)
Record FontSpec := mkFont {
  font_bold : bool;
  font_size : option Q;
  font_family : option string
}.

Class Platform := {
  Math_sin : Q -> Q;
  Math_cos : Q -> Q;
  Math_atan2 : Q -> Q -> Q;
  Math_hypot : Q -> Q -> Q;
  Math_PI : Q;
  (** the k-th value returned by [Math.random()] during one frame *)
  Math_random : nat -> Q;
  (** [ctx.measureText(s).width] under a font *)
  measureTextWidth : FontSpec -> string -> Q;
  (** [typeof ctx.roundRect === 'function'] *)
  hasRoundRect : bool
}.

(* ------------------------------------------------------------------ *)
(** ** types.ts *)

Module Types.

Inductive ItemType := TImage | TText | TEffect.

Inductive AnimationType :=
  | NONE | REC_FRAME | RED_CIRCLE | LOCATION_PIN | TAPE | BULB_LINE | HEART_LINE.

Inductive MediaType := MImage | MVideo.

Inductive TransitionType :=
  | FADE | SLIDE_UP | SLIDE_DOWN | SLIDE_LEFT | SLIDE_RIGHT | ZOOM_IN | ZOOM_OUT.

Inductive AppState := IDLE | COLLAGE | EDITING | RENDERING | FINISHED.

(** A decoded image element: only its intrinsic size is read. *)
Record ImageElement := mkImage {
    img_src : string;
    img_width : Q;
    img_height : Q
  }.

Record Point := mkPoint { px : Q; py : Q }.

(** The [imgElement] of an editor item.  The photos of the library are put
    on the canvas once they have loaded; [loadCollage] also keeps an
    element whose load failed ([img.onerror = r]), which is then in the
    broken state. *)
Inductive ItemImage :=
  | Loaded (img : ImageElement)
  | Broken (src : string).

(** [CanvasItem], with the [imgElement] field that the editor adds
    ([RenderCanvasItem]).  Optional fields are options. *)
Record CanvasItem := mkItem {
    id : string;
    type : ItemType;
    x : Q;
    y : Q;
    width : Q;
    height : Q;
    scale : Q;
    rotation : option Q;
    zIndex : Q;
    sourceUrl : option string;
    imgOffset : option Point;
    imgZoom : option Q;
    imgBaseScale : option Q;
    isSticker : option bool;
    text : option string;
    fontFamily : option string;
    fontSize : option Q;
    color : option string;
    strokeColor : option string;
    strokeWidth : option Q;
    backgroundColor : option string;
    backgroundOpacity : option Q;
    backgroundPadding : option Q;
    backgroundRadius : option Q;
    animationType : option AnimationType;
    imgElement : option ItemImage
  }.

Record CollageData := mkCollage {
    items : list CanvasItem;
    bgGradientId : string;
    title : string
  }.

Record UploadedMedia := mkMedia {
    m_id : string;
    m_type : MediaType;
    m_fileName : option string;
    m_missing : option bool;
    m_duration : option Q;
    m_enableOriginalAudio : option bool;
    m_collageData : option CollageData;
    m_overlayText : option CanvasItem;
    m_overlayEffects : option (list CanvasItem);
    m_transition : option TransitionType
  }.

Record VideoSettings := mkSettings {
    photoDuration : Q;
    transitionDuration : Q;
    resolution_width : Q;
    resolution_height : Q
  }.

Definition itemType_eqb (a b : ItemType) : bool :=
  match a, b with
  | TImage, TImage | TText, TText | TEffect, TEffect => true
  | _, _ => false
  end.

Definition appState_eqb (a b : AppState) : bool :=
  match a, b with
  | IDLE, IDLE | COLLAGE, COLLAGE | EDITING, EDITING
  | RENDERING, RENDERING | FINISHED, FINISHED => true
  | _, _ => false
  end.

End Types.

(* ------------------------------------------------------------------ *)
(** ** The 2D context *)

Module Canvas.

Inductive Paint :=
  | Color (c : string)
  (** [createLinearGradient(x0,y0,x1,y1)] with its colour stops *)
  | LinearGradient (x0 y0 x1 y1 : Q) (stops : list (Q * string)).

Inductive CanvasOp :=
  | ctx_save
  | ctx_restore
  | ctx_translate (tx ty : Q)
  | ctx_rotate (angle : Q)
  | ctx_scale (sx sy : Q)
  | set_fillStyle (p : Paint)
  | set_strokeStyle (c : string)
  | set_lineWidth (w : Q)
  | set_lineCap (s : string)
  | set_lineJoin (s : string)
  | set_shadowColor (c : string)
  | set_shadowBlur (b : Q)
  | set_shadowOffsetX (o : Q)
  | set_shadowOffsetY (o : Q)
  | set_globalAlpha (a : Q)
  | set_font (f : FontSpec)
  | set_textAlign (s : string)
  | set_textBaseline (s : string)
  | ctx_setLineDash (segments : list Q)
  | set_lineDashOffset (o : Q)
  | ctx_beginPath
  | ctx_closePath
  | ctx_moveTo (px py : Q)
  | ctx_lineTo (px py : Q)
  | ctx_bezierCurveTo (c1x c1y c2x c2y ex ey : Q)
  | ctx_quadraticCurveTo (cx cy ex ey : Q)
  | ctx_arc (cx cy r a0 a1 : Q)
  | ctx_ellipse (cx cy rx ry rot a0 a1 : Q)
  | ctx_rect (rx ry rw rh : Q)
  | ctx_roundRect (rx ry rw rh rad : Q)
  | ctx_stroke
  | ctx_fill
  | ctx_clip
  | ctx_fillRect (rx ry rw rh : Q)
  | ctx_strokeRect (rx ry rw rh : Q)
  | ctx_fillText (s : string) (tx ty : Q)
  | ctx_strokeText (s : string) (tx ty : Q)
  | ctx_drawImage (src : string) (dx dy dw dh : Q).

(** Is the operation an assignment to [textAlign] or [textBaseline]? *)
Definition setsTextLayout (op : CanvasOp) : bool :=
  match op with
  | set_textAlign _ | set_textBaseline _ => true
  | _ => false
  end.

End Canvas.

(* ------------------------------------------------------------------ *)
(** ** The transformation matrix of the 2D context *)

Module Geometry.
Import Types Canvas.

(** The current transformation: a point [(x, y)] of the drawing code lands
  on the canvas at [(a x + c y + e, b x + d y + f)]. *)
Record Matrix := mkMatrix {
  m_a : Q; m_b : Q; m_c : Q; m_d : Q; m_e : Q; m_f : Q
}.

Definition identity : Matrix := mkMatrix 1 0 0 1 0 0.

Definition apply (m : Matrix) (p : Point) : Point :=
  mkPoint (m_a m * px p + m_c m * py p + m_e m)
          (m_b m * px p + m_d m * py p + m_f m).

Section WithPlatform.
Context `{Platform}.

(** The effect of one operation on the current transformation:
  [translate], [rotate] and [scale] multiply it on the right, every other
  operation leaves it as it is. *)
Definition step (m : Matrix) (op : CanvasOp) : Matrix :=
  match op with
  | ctx_translate tx ty =>
      mkMatrix (m_a m) (m_b m) (m_c m) (m_d m)
        (m_a m * tx + m_c m * ty + m_e m) (m_b m * tx + m_d m * ty + m_f m)
  | ctx_rotate angle =>
      let co := Math_cos angle in
      let si := Math_sin angle in
      mkMatrix (m_a m * co + m_c m * si) (m_b m * co + m_d m * si)
        (m_c m * co - m_a m * si) (m_d m * co - m_b m * si)
        (m_e m) (m_f m)
  | ctx_scale sx sy =>
      mkMatrix (m_a m * sx) (m_b m * sx) (m_c m * sy) (m_d m * sy) (m_e m) (m_f m)
  | _ => m
  end.

Definition transformOf (ops : list CanvasOp) : Matrix := fold_left step ops identity.

End WithPlatform.

End Geometry.

(* ------------------------------------------------------------------ *)
(** ** Counting loops *)

Module Loop.
Import Canvas.

(** [for (let i = i0; cond(i); i = next(i)) body(i)] with a body that issues
    canvas operations and may call [Math.random()] ([draws] times per
    iteration; [k] counts the calls made so far in the frame). *)
Section For.
Variable cond : Q -> bool.
Variable next : Q -> Q.
Variable draws : nat.
Variable body : Q -> nat -> list CanvasOp.

Fixpoint run (fuel : nat) (i : Q) (k : nat) : list CanvasOp * nat :=
  match fuel with
  | O => ([], k)
  | S fuel' =>
      if cond i
      then let '(ops, k') := run fuel' (next i) (k + draws)%nat in
           (body i k ++ ops, k')
      else ([], k)
  end.
End For.

(** An upper bound on the number of iterations of a loop that covers a
    span of [span] in steps of [step]. *)
Definition iterations (span step : Q) : nat :=
  S (Z.to_nat (Qfloor (span / step))).

End Loop.

(* ------------------------------------------------------------------ *)
(** ** The collage editor (CollageGenerator) *)

Module Collage.
Import Types Canvas.

Definition WIDTH : Q := 960.
Definition HEIGHT : Q := 720.
Definition HANDLE_SIZE : Q := 12.

Definition GRADIENTS : list (string * (string * string)) :=
  [ ("red", ("#fef2f2", "#fecaca"));
    ("orange", ("#fff7ed", "#fed7aa"));
    ("yellow", ("#fefce8", "#fef08a"));
    ("green", ("#f0fdf4", "#bbf7d0"));
    ("blue", ("#eff6ff", "#bfdbfe"));
    ("purple", ("#faf5ff", "#e9d5ff"));
    ("dark", ("#1e293b", "#0f172a")) ]%string.

(** [GRADIENTS.find(g => g.id === id) || GRADIENTS[0]] *)
Definition gradientDef (gid : string) : string * string :=
  match find (fun g => String.eqb (fst g) gid) GRADIENTS with
  | Some g => snd g
  | None => ("#fef2f2", "#fecaca")%string
  end.

Inductive InteractionMode :=
  | MODE_NONE | MOVE | ROTATE | RESIZE | CROP_PAN
  | CROP_TL | CROP_TR | CROP_BL | CROP_BR.

(** The drag-start snapshot [initialItemState]: a copy of the item, with
    [startRotation] and [startAngle] added when a rotation starts. *)
Record Snapshot := mkSnapshot {
    snap_item : CanvasItem;
    startRotation : option Q;
    startAngle : option Q
  }.

Record EditorState := mkEditor {
    canvasItems : list CanvasItem;
    selectedItemId : option string;
    isCropping : bool;
    interactionMode : InteractionMode;
    dragStartPos : Point;
    initialItemState : option Snapshot
  }.

(** [item.id === selectedItemId] *)
Definition isSelected (sel : option string) (item : CanvasItem) : bool :=
  match sel with
  | Some s => String.eqb (id item) s
  | None => false
  end.

(** *** drawFrame *)

(** The clock of a frame: [const t = (now / 1000) % 3] with
    [now = Date.now()], an integer count of milliseconds. *)
Definition frameTime (now : Z) : Q := JS.rem (inject_Z now / 1000) 3.

(** The padding [p] of the draw loop. *)
Definition drawPad (item : CanvasItem) : Q :=
  if itemType_eqb (type item) TText && JS.truthyStr (backgroundColor item)
  then JS.orNum (backgroundPadding item) 0
  else 0.

Definition drawHalfW (item : CanvasItem) : Q :=
  (width item + drawPad item * 2) / 2.
Definition drawHalfH (item : CanvasItem) : Q :=
  (height item + drawPad item * 2) / 2.

(** Center position in world space. *)
Definition drawCx (item : CanvasItem) : Q := x item + drawHalfW item * scale item.
Definition drawCy (item : CanvasItem) : Q := y item + drawHalfH item * scale item.

(** Transform to center, rotate, scale, move to top-left. *)
Definition drawTransform (item : CanvasItem) : list CanvasOp :=
  [ ctx_translate (drawCx item) (drawCy item);
    ctx_rotate (JS.orNum (rotation item) 0);
    ctx_scale (scale item) (scale item);
    ctx_translate (- drawHalfW item) (- drawHalfH item) ]
  ++ (if JS.ltb 0 (drawPad item)
      then [ctx_translate (drawPad item) (drawPad item)] else []).

Section WithPlatform.
Context `{Platform}.

(** The [case] bodies of the effect switch. *)
Definition effect_REC_FRAME (w h t : Q) : list CanvasOp :=
  let cornerLen := JS.min w h * 0.2 in
  [ ctx_beginPath; ctx_moveTo 0 cornerLen; ctx_lineTo 0 0; ctx_lineTo cornerLen 0; ctx_stroke;
    ctx_beginPath; ctx_moveTo (w - cornerLen) 0; ctx_lineTo w 0; ctx_lineTo w cornerLen; ctx_stroke;
    ctx_beginPath; ctx_moveTo 0 (h - cornerLen); ctx_lineTo 0 h; ctx_lineTo cornerLen h; ctx_stroke;
    ctx_beginPath; ctx_moveTo (w - cornerLen) h; ctx_lineTo w h; ctx_lineTo w (h - cornerLen); ctx_stroke;
    set_font (mkFont true (Some 20) (Some "sans-serif"%string));
    ctx_fillText "REC" 20 30 ]
  ++ (if (Z.rem (Qfloor (t * 2)) 2 =? 0)%Z
      then [ set_fillStyle (Color "#ef4444"); ctx_beginPath;
             ctx_arc 10 23 5 0 (Math_PI * 2); ctx_fill ]
      else []).

Definition effect_RED_CIRCLE (w h t : Q) : list CanvasOp :=
  let circ := Math_PI * JS.max w h in
  [ set_strokeStyle "#ef4444"; set_lineWidth 4; ctx_beginPath; ctx_save;
    ctx_translate (w / 2) (h / 2);
    ctx_setLineDash [circ; circ];
    set_lineDashOffset (circ - (circ * JS.min 1 t));
    ctx_beginPath; ctx_ellipse 0 0 (w / 2 - 5) (h / 2 - 5) 0 0 (Math_PI * 2); ctx_stroke;
    set_globalAlpha 0.6; ctx_beginPath;
    ctx_ellipse 1 1 (w / 2 - 6) (h / 2 - 4) 0.1 0 (Math_PI * 2); ctx_stroke;
    ctx_restore ].

Definition effect_LOCATION_PIN (w h t : Q) : list CanvasOp :=
  let pinW := JS.min w h * 0.5 in
  let pinX := w / 2 in
  let pinY := h - 10 in
  let bob := Math_sin (t * 5) * 5 in
  [ ctx_save; ctx_translate pinX (pinY - pinW - bob); ctx_beginPath; ctx_moveTo 0 pinW;
    ctx_bezierCurveTo (- pinW / 2) (pinW / 2) (- pinW) 0 (- pinW) (- pinW / 4);
    ctx_arc 0 (- pinW / 4) pinW Math_PI 0;
    ctx_bezierCurveTo pinW 0 (pinW / 2) (pinW / 2) 0 pinW; ctx_closePath; ctx_stroke;
    set_fillStyle (Color "#ffffff"); ctx_beginPath;
    ctx_arc 0 (- pinW / 4) (pinW / 3) 0 (Math_PI * 2); ctx_fill; ctx_restore;
    ctx_save; ctx_translate pinX pinY; ctx_scale 1 0.3;
    set_fillStyle (Color "rgba(0,0,0,0.3)");
    ctx_beginPath; ctx_arc 0 0 (10 + Qabs bob) 0 (Math_PI * 2); ctx_fill; ctx_restore ].

(** The tape draws two jagged edges with [Math.random()] and a grid;
    [k] is the number of random values already consumed. *)
Definition effect_TAPE (w h : Q) (k : nat) : list CanvasOp * nat :=
  let '(top, k1) :=
    Loop.run (fun i => JS.leb i w) (fun i => i + 5) 1
      (fun i k => [ctx_lineTo i (Math_random k * 2)])
      (Loop.iterations w 5) 0 k in
  let '(bottom, k2) :=
    Loop.run (fun i => JS.leb 0 i) (fun i => i - 5) 1
      (fun i k => [ctx_lineTo i (h - Math_random k * 2)])
      (Loop.iterations w 5) w k1 in
  let gridSize := 10 in
  let '(vertical, _) :=
    Loop.run (fun x => JS.ltb x w) (fun x => x + gridSize) 0
      (fun x _ => [ctx_moveTo x 0; ctx_lineTo x h])
      (Loop.iterations w gridSize) 0 k2 in
  let '(horizontal, _) :=
    Loop.run (fun y => JS.ltb y h) (fun y => y + gridSize) 0
      (fun y _ => [ctx_moveTo 0 y; ctx_lineTo w y])
      (Loop.iterations h gridSize) 0 k2 in
  ([ ctx_save; set_globalAlpha 0.6; set_fillStyle (Color "#ffffff"); ctx_beginPath; ctx_moveTo 0 0 ]
   ++ top ++ [ ctx_lineTo w h ] ++ bottom ++ [ ctx_lineTo 0 0; ctx_fill;
      ctx_clip; set_strokeStyle "#cbd5e1"; set_lineWidth 1; ctx_beginPath ]
   ++ vertical ++ horizontal ++ [ ctx_stroke; ctx_restore ], k2).

Definition effect_BULB_LINE (w h t : Q) : list CanvasOp :=
  let bulbW := JS.min w h * 0.6 in
  let bX := w / 2 in
  let bY := h / 2 in
  let flicker := 0.8 + Math_sin (t * 20) * 0.2 in
  [ ctx_save; ctx_translate bX bY; set_globalAlpha flicker; ctx_beginPath;
    ctx_arc 0 (- bulbW / 2) (bulbW / 2) (Math_PI * 0.8) (Math_PI * 2.2);
    ctx_quadraticCurveTo (bulbW / 2) 0 (bulbW / 4) (bulbW / 2);
    ctx_lineTo (- bulbW / 4) (bulbW / 2);
    ctx_quadraticCurveTo (- bulbW / 2) 0 (- bulbW * 0.48) (- bulbW * 0.25); ctx_stroke;
    ctx_beginPath; ctx_moveTo (-10) 0; ctx_lineTo (-5) (-20); ctx_lineTo 5 (-20);
    ctx_lineTo 10 0; ctx_stroke ]
  ++ (if JS.ltb 0 (Math_sin (t * 5))
      then [ ctx_beginPath; ctx_moveTo 0 (- bulbW); ctx_lineTo 0 (- bulbW - 10);
             ctx_moveTo bulbW (- bulbW / 2); ctx_lineTo (bulbW + 10) (- bulbW / 2 - 10);
             ctx_moveTo (- bulbW) (- bulbW / 2); ctx_lineTo (- bulbW - 10) (- bulbW / 2 - 10);
             ctx_stroke ]
      else [])
  ++ [ ctx_restore ].

Definition effect_HEART_LINE (w h t : Q) : list CanvasOp :=
  let heartScale := JS.min w h / 100 in
  let beat := 1 + Math_sin (t * 8) * 0.05 in
  [ ctx_save; ctx_translate (w / 2) (h / 2);
    ctx_scale (heartScale * beat) (heartScale * beat); ctx_beginPath; ctx_moveTo 0 20;
    ctx_bezierCurveTo 0 (-10) (-50) (-10) (-50) 20;
    ctx_bezierCurveTo (-50) 50 0 80 0 90;
    ctx_bezierCurveTo 0 80 50 50 50 20;
    ctx_bezierCurveTo 50 (-10) 0 (-10) 0 20;
    ctx_bezierCurveTo 50 (-10) 0 (-10) 0 20; ctx_stroke; ctx_restore ].

(** The branch [else if (item.type === 'effect')] of the draw loop: the
    style set-up and the switch on [item.animationType]. *)
Definition effectBranch (w h t : Q) (anim : option AnimationType) (k : nat)
  : list CanvasOp * nat :=
  let styles :=
    [ set_strokeStyle "#ffffff"; set_fillStyle (Color "#ffffff"); set_lineWidth 3;
      set_lineCap "round"; set_lineJoin "round";
      set_shadowColor "rgba(0,0,0,0.2)"; set_shadowBlur 2 ] in
  match anim with
  | Some REC_FRAME => (styles ++ effect_REC_FRAME w h t, k)
  | Some RED_CIRCLE => (styles ++ effect_RED_CIRCLE w h t, k)
  | Some LOCATION_PIN => (styles ++ effect_LOCATION_PIN w h t, k)
  | Some TAPE => let '(ops, k') := effect_TAPE w h k in (styles ++ ops, k')
  | Some BULB_LINE => (styles ++ effect_BULB_LINE w h t, k)
  | Some HEART_LINE => (styles ++ effect_HEART_LINE w h t, k)
  | Some NONE | None => (styles, k)
  end.

End WithPlatform.

Section Drawing.
Context `{Platform}.

(** The image branch up to its call of [ctx.drawImage]: shadow and clip. *)
Definition drawImageSetup (item : CanvasItem) : list CanvasOp :=
  [ set_shadowColor "rgba(0,0,0,0.3)"; set_shadowBlur 10;
    set_shadowOffsetX 3; set_shadowOffsetY 3;
    ctx_beginPath; ctx_rect 0 0 (width item) (height item); ctx_clip;
    set_shadowColor "transparent" ].

(** [ctx.drawImage(item.imgElement, ...)] throws an [InvalidStateError]
  when the element is in the broken state; nothing in [drawFrame] catches
  it. *)
Definition drawImageThrows (item : CanvasItem) : bool :=
  match type item, imgElement item with
  | TImage, Some (Broken _) => true
  | _, _ => false
  end.

(** The image branch for an element that has loaded: clip to the box and
  draw the content, centred in the box and shifted by [imgOffset]. *)
Definition drawImageBranch (item : CanvasItem) (img : ImageElement) : list CanvasOp :=
  let w := width item in
  let h := height item in
  let drawW := img_width img * JS.orNum (imgBaseScale item) 1 * JS.orNum (imgZoom item) 1 in
  let drawH := img_height img * JS.orNum (imgBaseScale item) 1 * JS.orNum (imgZoom item) 1 in
  let cX := (w - drawW) / 2 in
  let cY := (h - drawH) / 2 in
  let ix := cX + JS.orNum (option_map px (imgOffset item)) 0 in
  let iy := cY + JS.orNum (option_map py (imgOffset item)) 0 in
  [ set_shadowColor "rgba(0,0,0,0.3)"; set_shadowBlur 10;
    set_shadowOffsetX 3; set_shadowOffsetY 3;
    ctx_beginPath; ctx_rect 0 0 w h; ctx_clip;
    set_shadowColor "transparent";
    ctx_drawImage (img_src img) ix iy drawW drawH ].

(** [lines.forEach(line => { if (metrics.width > maxWidth) maxWidth = metrics.width })] *)
Definition measureLines (font : FontSpec) (lines : list string) : Q :=
  fold_left (fun maxWidth line =>
               let mw := measureTextWidth font line in
               if JS.ltb maxWidth mw then mw else maxWidth) lines 0.

(** [lines.forEach((line, i) => ...)]: stroke then fill each line. *)
Fixpoint drawTextLines (item : CanvasItem) (lineHeight : Q) (i : nat) (lines : list string)
  : list CanvasOp :=
  match lines with
  | [] => []
  | line :: rest =>
      let ly := inject_Z (Z.of_nat i) * lineHeight in
      (if JS.truthyNum (strokeWidth item) && JS.ltb 0 (JS.numOf (strokeWidth item))
       then [ set_strokeStyle (JS.orStr (strokeColor item) "#ffffff");
              set_lineWidth (JS.numOf (strokeWidth item));
              set_lineJoin "round"; ctx_strokeText line 0 ly ]
       else [])
      ++ [ set_fillStyle (Color (JS.orStr (color item) "#000")); ctx_fillText line 0 ly ]
      ++ drawTextLines item lineHeight (S i) rest
  end.

(** The text branch.  It assigns the measured size to [item.width] and
  [item.height]; the padding [p] is the one computed at the top of the
  loop body.  Returns the operations and the mutated item. *)
Definition drawTextBranch (item : CanvasItem) (p : Q) : list CanvasOp * CanvasItem :=
  let font := mkFont true (fontSize item) (fontFamily item) in
  let lines := JS.splitLines (JS.orStr (text item) "") in
  let lineHeight := JS.orNum (fontSize item) 60 * 1.2 in
  let maxWidth := measureLines font lines in
  let newH := lineHeight * inject_Z (Z.of_nat (List.length lines)) in
  let item' :=
    mkItem (id item) (type item) (x item) (y item) maxWidth newH (scale item)
      (rotation item) (zIndex item) (sourceUrl item) (imgOffset item) (imgZoom item)
      (imgBaseScale item) (isSticker item) (text item) (fontFamily item) (fontSize item)
      (color item) (strokeColor item) (strokeWidth item) (backgroundColor item)
      (backgroundOpacity item) (backgroundPadding item) (backgroundRadius item)
      (animationType item) (imgElement item) in
  let background :=
    if JS.truthyStr (backgroundColor item)
    then
      let bgW := maxWidth + p * 2 in
      let bgH := newH + p * 2 in
      let radius := JS.orNum (backgroundRadius item) 0 in
      let alpha := match backgroundOpacity item with Some a => a | None => 0.8 end in
      [ ctx_save; set_globalAlpha alpha;
        set_fillStyle (Color (JS.orStr (backgroundColor item) "")); ctx_beginPath;
        (if hasRoundRect then ctx_roundRect (- p) (- p) bgW bgH radius
         else ctx_rect (- p) (- p) bgW bgH);
        ctx_fill; ctx_restore ]
    else [] in
  ([ set_font font; set_textBaseline "top" ]
   ++ background
   ++ [ set_shadowColor "rgba(0,0,0,0.2)"; set_shadowBlur 4 ]
   ++ drawTextLines item lineHeight 0 lines,
   item').

(** The selection chrome drawn after the item when it is the selected
  one; [p] is the padding of the draw loop and [item] the item after the
  text branch has updated its size. *)
Definition drawSelection (isCropping : bool) (item : CanvasItem) (p : Q) : list CanvasOp :=
  let halfW := (width item + p * 2) / 2 in
  let halfH := (height item + p * 2) / 2 in
  let cx := x item + halfW * scale item in
  let cy := y item + halfH * scale item in
  [ ctx_save; ctx_translate cx cy; ctx_rotate (JS.orNum (rotation item) 0);
    ctx_translate (- halfW * scale item) (- halfH * scale item);
    ctx_scale (scale item) (scale item) ]
  ++ (if isCropping && itemType_eqb (type item) TImage
      then
        let hSize := HANDLE_SIZE / scale item in
        [ set_strokeStyle "#f59e0b"; set_lineWidth (2 / scale item); ctx_setLineDash [5; 3];
          ctx_strokeRect 0 0 (width item) (height item);
          set_fillStyle (Color "#f59e0b");
          ctx_fillRect (- hSize / 2) (- hSize / 2) hSize hSize;
          ctx_fillRect (width item - hSize / 2) (- hSize / 2) hSize hSize;
          ctx_fillRect (- hSize / 2) (height item - hSize / 2) hSize hSize;
          ctx_fillRect (width item - hSize / 2) (height item - hSize / 2) hSize hSize ]
      else
        let selW := width item + p * 2 in
        let selH := height item + p * 2 in
        let hSize := HANDLE_SIZE / scale item in
        let rotHandleDist := 25 / scale item in
        [ set_strokeStyle "#3b82f6"; set_lineWidth (2 / scale item);
          ctx_strokeRect 0 0 selW selH;
          set_fillStyle (Color "#3b82f6");
          ctx_beginPath; ctx_arc selW selH hSize 0 (Math_PI * 2); ctx_fill;
          set_fillStyle (Color "#fff");
          ctx_beginPath; ctx_arc selW selH (hSize / 2) 0 (Math_PI * 2); ctx_fill;
          ctx_beginPath; ctx_moveTo (selW / 2) 0; ctx_lineTo (selW / 2) (- rotHandleDist);
          set_strokeStyle "#3b82f6"; ctx_stroke;
          set_fillStyle (Color "#3b82f6");
          ctx_beginPath; ctx_arc (selW / 2) (- rotHandleDist) hSize 0 (Math_PI * 2); ctx_fill ])
  ++ [ ctx_restore ].

(** One iteration of [sortedItems.forEach(item => ...)]: the operations
  it issues, the item as the iteration leaves it, and the random counter.
  When [ctx.drawImage] throws, the operations end before it: the state
  saved at the start of the iteration is not restored and the selection is
  not drawn. *)
Definition drawItem (sel : option string) (cropping : bool) (t : Q) (k : nat)
  (item : CanvasItem) : list CanvasOp * CanvasItem * nat :=
  let w := width item in
  let h := height item in
  let p := drawPad item in
  let '(body, item', k') :=
    match type item, imgElement item with
    | TImage, Some (Loaded img) => (drawImageBranch item img, item, k)
    | TImage, Some (Broken _) => (drawImageSetup item, item, k)
    | TText, _ => let '(ops, it) := drawTextBranch item p in (ops, it, k)
    | TEffect, _ =>
        let '(ops, k1) := effectBranch w h t (animationType item) k in (ops, item, k1)
    | TImage, None => ([], item, k)
    end in
  ([ ctx_save ] ++ drawTransform item ++ body
   ++ (if drawImageThrows item then []
       else [ ctx_restore ]
            ++ (if isSelected sel item' then drawSelection cropping item' p else [])),
   item', k').

(** How a frame of the editor ends: it runs to its end, where it requests
  the next frame, or an exception leaves it after the operations listed
  and no next frame is requested. *)
Inductive FrameOutcome :=
| Completed (ops : list CanvasOp) (drawn : list CanvasItem)
| Aborted (ops : list CanvasOp).

(** The draw loop over the items in drawing order. *)
Fixpoint drawItems (sel : option string) (cropping : bool) (t : Q) (k : nat)
  (sorted : list CanvasItem) : FrameOutcome :=
  match sorted with
  | [] => Completed [] []
  | item :: rest =>
      let '(ops, item', k') := drawItem sel cropping t k item in
      if drawImageThrows item then Aborted ops
      else
        match drawItems sel cropping t k' rest with
        | Completed ops' rest' => Completed (ops ++ ops') (item' :: rest')
        | Aborted ops' => Aborted (ops ++ ops')
        end
  end.

(** [drawFrame]: the background, then the items sorted by [zIndex].  For a
  frame that runs to its end the second component lists the items, in
  drawing order, as the frame leaves them (the text branch writes the
  measured size into the item objects, which are the objects of the item
  list). *)
Definition drawFrame (bgGradientId : string) (sel : option string) (cropping : bool)
  (now : Z) (itemsRef : list CanvasItem) : FrameOutcome :=
  let '(c0, c1) := gradientDef bgGradientId in
  let sortedItems := JS.sortAsc zIndex itemsRef in
  let t := frameTime now in
  let background :=
    [ set_fillStyle (LinearGradient 0 0 WIDTH HEIGHT [(0, c0); (1, c1)]);
      ctx_fillRect 0 0 WIDTH HEIGHT ] in
  match drawItems sel cropping t 0 sortedItems with
  | Completed ops drawn => Completed (background ++ ops) drawn
  | Aborted ops => Aborted (background ++ ops)
  end.

End Drawing.


(** *** Pointer handlers *)

(** Object spreads [{ ...item, field: value }]. *)
Definition with_xy (i : CanvasItem) (nx ny : Q) : CanvasItem :=
  mkItem (id i) (type i) nx ny (width i) (height i) (scale i) (rotation i) (zIndex i)
    (sourceUrl i) (imgOffset i) (imgZoom i) (imgBaseScale i) (isSticker i) (text i)
    (fontFamily i) (fontSize i) (color i) (strokeColor i) (strokeWidth i)
    (backgroundColor i) (backgroundOpacity i) (backgroundPadding i) (backgroundRadius i)
    (animationType i) (imgElement i).

Definition with_rotation (i : CanvasItem) (r : Q) : CanvasItem :=
  mkItem (id i) (type i) (x i) (y i) (width i) (height i) (scale i) (Some r) (zIndex i)
    (sourceUrl i) (imgOffset i) (imgZoom i) (imgBaseScale i) (isSticker i) (text i)
    (fontFamily i) (fontSize i) (color i) (strokeColor i) (strokeWidth i)
    (backgroundColor i) (backgroundOpacity i) (backgroundPadding i) (backgroundRadius i)
    (animationType i) (imgElement i).

Definition with_scale (i : CanvasItem) (s : Q) : CanvasItem :=
  mkItem (id i) (type i) (x i) (y i) (width i) (height i) s (rotation i) (zIndex i)
    (sourceUrl i) (imgOffset i) (imgZoom i) (imgBaseScale i) (isSticker i) (text i)
    (fontFamily i) (fontSize i) (color i) (strokeColor i) (strokeWidth i)
    (backgroundColor i) (backgroundOpacity i) (backgroundPadding i) (backgroundRadius i)
    (animationType i) (imgElement i).

Definition with_zIndex (i : CanvasItem) (z : Q) : CanvasItem :=
  mkItem (id i) (type i) (x i) (y i) (width i) (height i) (scale i) (rotation i) z
    (sourceUrl i) (imgOffset i) (imgZoom i) (imgBaseScale i) (isSticker i) (text i)
    (fontFamily i) (fontSize i) (color i) (strokeColor i) (strokeWidth i)
    (backgroundColor i) (backgroundOpacity i) (backgroundPadding i) (backgroundRadius i)
    (animationType i) (imgElement i).

Definition with_imgOffset (i : CanvasItem) (o : Point) : CanvasItem :=
  mkItem (id i) (type i) (x i) (y i) (width i) (height i) (scale i) (rotation i) (zIndex i)
    (sourceUrl i) (Some o) (imgZoom i) (imgBaseScale i) (isSticker i) (text i)
    (fontFamily i) (fontSize i) (color i) (strokeColor i) (strokeWidth i)
    (backgroundColor i) (backgroundOpacity i) (backgroundPadding i) (backgroundRadius i)
    (animationType i) (imgElement i).

Definition with_crop (i : CanvasItem) (w h : Q) (o : Point) : CanvasItem :=
  mkItem (id i) (type i) (x i) (y i) w h (scale i) (rotation i) (zIndex i)
    (sourceUrl i) (Some o) (imgZoom i) (imgBaseScale i) (isSticker i) (text i)
    (fontFamily i) (fontSize i) (color i) (strokeColor i) (strokeWidth i)
    (backgroundColor i) (backgroundOpacity i) (backgroundPadding i) (backgroundRadius i)
    (animationType i) (imgElement i).

(** [{ ...item, imgElement: img, sourceUrl: src }] *)
Definition with_image (i : CanvasItem) (img : ItemImage) (src : string) : CanvasItem :=
  mkItem (id i) (type i) (x i) (y i) (width i) (height i) (scale i) (rotation i) (zIndex i)
    (Some src) (imgOffset i) (imgZoom i) (imgBaseScale i) (isSticker i) (text i)
    (fontFamily i) (fontSize i) (color i) (strokeColor i) (strokeWidth i)
    (backgroundColor i) (backgroundOpacity i) (backgroundPadding i) (backgroundRadius i)
    (animationType i) (Some img).

(** [loadCollage], the rehydration of one stored item.  [previewUrlOf] is
  [media.find(m => m.id === item.id)?.previewUrl], and [decode] is what
  loading a source gives: the image, or nothing when the load fails.  The
  promise that [loadCollage] awaits is resolved by [onerror] as by
  [onload], so the element stays in the item either way. *)
Definition hydrateItem (previewUrlOf : string -> option string)
  (decode : string -> option ImageElement) (item : CanvasItem) : CanvasItem :=
  match type item with
  | TImage =>
      let src := if JS.truthyStr (previewUrlOf (id item))
                 then previewUrlOf (id item) else sourceUrl item in
      if JS.truthyStr src
      then
        let s := JS.orStr src "" in
        with_image item
          (match decode s with
           | Some img => Loaded img
           | None => Broken s
           end) s
      else item
  | _ => item
  end.

(** For the frame of a pointer move: the item with the fields that a mode may write set to fixed values:
  two items agree outside those fields exactly when their images agree. *)
Definition outsideFields (mode : InteractionMode) (i : CanvasItem)
  : CanvasItem :=
  match mode with
  | MOVE => with_xy i 0 0
  | ROTATE => with_rotation i 0
  | RESIZE => with_scale i 0
  | CROP_PAN => with_imgOffset i (mkPoint 0 0)
  | CROP_BR => with_crop i 0 0 (mkPoint 0 0)
  | MODE_NONE | CROP_TL | CROP_TR | CROP_BL => i
  end.

(** The padding [p] of the pointer handlers. *)
Definition hitPad (item : CanvasItem) : Q :=
  if itemType_eqb (type item) TText then JS.orNum (backgroundPadding item) 0 else 0.

Definition hitTotalW (item : CanvasItem) : Q := (width item + hitPad item * 2) * scale item.
Definition hitTotalH (item : CanvasItem) : Q := (height item + hitPad item * 2) * scale item.
Definition hitCx (item : CanvasItem) : Q := x item + hitTotalW item / 2.
Definition hitCy (item : CanvasItem) : Q := y item + hitTotalH item / 2.

(** [Math.max(...prev.map(i => i.zIndex))] on a non-empty list. *)
Definition maxZIndex (l : list CanvasItem) : Q :=
  match map zIndex l with
  | [] => 0
  | z :: zs => fold_left JS.max zs z
  end.

Section Pointer.
Context `{Platform}.

(** The pointer, rotated back around the centre of the item. *)
Definition localDx (item : CanvasItem) (pos : Point) : Q :=
  let dx := px pos - hitCx item in
  let dy := py pos - hitCy item in
  let angle := JS.orNum (rotation item) 0 in
  dx * Math_cos (- angle) - dy * Math_sin (- angle).

Definition localDy (item : CanvasItem) (pos : Point) : Q :=
  let dx := px pos - hitCx item in
  let dy := py pos - hitCy item in
  let angle := JS.orNum (rotation item) 0 in
  dx * Math_sin (- angle) + dy * Math_cos (- angle).

Definition localX (item : CanvasItem) (pos : Point) : Q := localDx item pos + hitTotalW item / 2.
Definition localY (item : CanvasItem) (pos : Point) : Q := localDy item pos + hitTotalH item / 2.

Definition startDrag (st : EditorState) (mode : InteractionMode) (pos : Point)
  (snap : Snapshot) : EditorState :=
  mkEditor (canvasItems st) (selectedItemId st) (isCropping st) mode pos (Some snap).

(** The handle tests on the selected item; [None] when no handle is hit
  and the handler goes on to the body scan. *)
Definition hitHandles (st : EditorState) (pos : Point) (item : CanvasItem)
  : option EditorState :=
  let totalW := hitTotalW item in
  let totalH := hitTotalH item in
  let halfW := totalW / 2 in
  let lX := localX item pos in
  let lY := localY item pos in
  let hSize := HANDLE_SIZE * 1.5 in
  let rotHandleDist := 25 in
  let plain := mkSnapshot item None None in
  if JS.leb (Math_hypot (lX - halfW) (lY - (- rotHandleDist))) hSize
  then Some (startDrag st ROTATE pos
               (mkSnapshot item (Some (JS.orNum (rotation item) 0))
                  (Some (Math_atan2 (py pos - hitCy item) (px pos - hitCx item)))))
  else if isCropping st && itemType_eqb (type item) TImage
  then
    if JS.leb (Math_hypot (lX - 0) (lY - 0)) hSize then Some (startDrag st CROP_TL pos plain)
    else if JS.leb (Math_hypot (lX - totalW) (lY - 0)) hSize then Some (startDrag st CROP_TR pos plain)
    else if JS.leb (Math_hypot (lX - 0) (lY - totalH)) hSize then Some (startDrag st CROP_BL pos plain)
    else if JS.leb (Math_hypot (lX - totalW) (lY - totalH)) hSize then Some (startDrag st CROP_BR pos plain)
    else if JS.leb 0 lX && JS.leb lX totalW && JS.leb 0 lY && JS.leb lY totalH
    then Some (startDrag st CROP_PAN pos plain)
    else None
  else
    if JS.leb (Math_hypot (lX - totalW) (lY - totalH)) hSize
    then Some (startDrag st RESIZE pos plain)
    else None.

(** The body test of the scan: the pointer lies in the unrotated box. *)
Definition hitsBody (item : CanvasItem) (pos : Point) : bool :=
  JS.leb (Qabs (localDx item pos)) (hitTotalW item / 2)
  && JS.leb (Qabs (localDy item pos)) (hitTotalH item / 2).

(** [for (const item of sorted) ...], then the fall-through that clears the
  selection. *)
Fixpoint scanBodies (st : EditorState) (pos : Point) (sorted : list CanvasItem)
  : EditorState :=
  match sorted with
  | [] => mkEditor (canvasItems st) None false MODE_NONE (dragStartPos st) (initialItemState st)
  | item :: rest =>
      if hitsBody item pos
      then
        let maxZ := maxZIndex (canvasItems st) in
        mkEditor
          (map (fun i => if String.eqb (id i) (id item) then with_zIndex i (maxZ + 1) else i)
               (canvasItems st))
          (Some (id item))
          (if isSelected (selectedItemId st) item then isCropping st else false)
          MOVE pos (Some (mkSnapshot item None None))
      else scanBodies st pos rest
  end.

Definition handleMouseDown (st : EditorState) (pos : Point) : EditorState :=
  let scan := scanBodies st pos (JS.sortDesc zIndex (canvasItems st)) in
  if JS.truthyStr (selectedItemId st)
  then
    match find (isSelected (selectedItemId st)) (canvasItems st) with
    | Some item =>
        match hitHandles st pos item with
        | Some st' => st'
        | None => scan
        end
    | None => scan
    end
  else scan.

(** The update that [handleMouseMove] applies to the selected item. *)
Definition moveItem (mode : InteractionMode) (snap : Snapshot) (pos : Point)
  (dx dy : Q) (item : CanvasItem) : CanvasItem :=
  let init := snap_item snap in
  match mode with
  | ROTATE =>
      let totalW := hitTotalW item in
      let totalH := hitTotalH item in
      let cx := x init + totalW / 2 in
      let cy := y init + totalH / 2 in
      let currentAngle := Math_atan2 (py pos - cy) (px pos - cx) in
      let deltaAngle := currentAngle - JS.numOf (startAngle snap) in
      with_rotation item (JS.numOf (startRotation snap) + deltaAngle)
  | MOVE => with_xy item (x init + dx) (y init + dy)
  | RESIZE =>
      let angle := JS.orNum (rotation item) 0 in
      let lDx := dx * Math_cos (- angle) - dy * Math_sin (- angle) in
      let newW := width init * scale init + lDx in
      let newScale := JS.max 0.1 (newW / width init) in
      with_scale item newScale
  | CROP_BR =>
      let dW := dx / scale item in
      let dH := dy / scale item in
      with_crop item (JS.max 50 (width init + dW)) (JS.max 50 (height init + dH))
        (mkPoint (JS.orNum (option_map px (imgOffset init)) 0 - dW / 2)
                 (JS.orNum (option_map py (imgOffset init)) 0 - dH / 2))
  | CROP_PAN =>
      let dOffsetX := dx / scale item in
      let dOffsetY := dy / scale item in
      with_imgOffset item
        (mkPoint (JS.orNum (option_map px (imgOffset init)) 0 + dOffsetX)
                 (JS.orNum (option_map py (imgOffset init)) 0 + dOffsetY))
  | MODE_NONE | CROP_TL | CROP_TR | CROP_BL => item
  end.

Definition handleMouseMove (st : EditorState) (pos : Point) : EditorState :=
  match interactionMode st, JS.truthyStr (selectedItemId st), initialItemState st with
  | MODE_NONE, _, _ | _, false, _ | _, _, None => st
  | mode, true, Some snap =>
      let dx := px pos - px (dragStartPos st) in
      let dy := py pos - py (dragStartPos st) in
      mkEditor
        (map (fun item =>
                if isSelected (selectedItemId st) item
                then moveItem mode snap pos dx dy item
                else item)
             (canvasItems st))
        (selectedItemId st) (isCropping st) (interactionMode st)
        (dragStartPos st) (initialItemState st)
  end.

Definition handleMouseUp (st : EditorState) : EditorState :=
  mkEditor (canvasItems st) (selectedItemId st) (isCropping st) MODE_NONE
    (dragStartPos st) None.

End Pointer.

(** *** Adding and removing photos *)

Section Photos.
Context `{Platform}.

(** The item that [toggleImageOnCanvas] adds for a decoded image: the
  larger side of the image becomes 300.  The two calls of [Math.random()]
  take the first two values of the platform's source. *)
Definition newImageItem (imgId : string) (imgObj : ImageElement)
  (prev : list CanvasItem) : CanvasItem :=
  let targetSize := 300 in
  let scale := JS.min (targetSize / img_width imgObj) (targetSize / img_height imgObj) in
  let w := img_width imgObj * scale in
  let h := img_height imgObj * scale in
  mkItem imgId TImage
    (Math_random 0 * (WIDTH - w)) (Math_random 1 * (HEIGHT - h))
    w h 1 (Some 0) (inject_Z (Z.of_nat (List.length prev)) + 1)
    (Some (img_src imgObj)) (Some (mkPoint 0 0)) (Some 1) (Some scale) None
    None None None None None None None None None None
    (Some NONE) (Some (Loaded imgObj)).

(** [toggleImageOnCanvas]: a photo of the library that is on the canvas is
  taken off, one that is not is added and selected. *)
Definition toggleImageOnCanvas (st : EditorState) (imgId : string) (imgObj : ImageElement)
  : EditorState :=
  match find (fun i => String.eqb (id i) imgId) (canvasItems st) with
  | Some _ =>
      let wasSelected :=
        match selectedItemId st with
        | Some s => String.eqb s imgId
        | None => false
        end in
      mkEditor
        (filter (fun i => negb (String.eqb (id i) imgId)) (canvasItems st))
        (if wasSelected then None else selectedItemId st)
        (if wasSelected then false else isCropping st)
        (interactionMode st) (dragStartPos st) (initialItemState st)
  | None =>
      mkEditor
        (canvasItems st ++ [newImageItem imgId imgObj (canvasItems st)])
        (Some imgId) false
        (interactionMode st) (dragStartPos st) (initialItemState st)
  end.

End Photos.

(** *** Saving the canvas *)

(** [({ imgElement, ...rest }) => rest] *)
Definition cleanItem (i : CanvasItem) : CanvasItem :=
  mkItem (id i) (type i) (x i) (y i) (width i) (height i) (scale i) (rotation i) (zIndex i)
    (sourceUrl i) (imgOffset i) (imgZoom i) (imgBaseScale i) (isSticker i) (text i)
    (fontFamily i) (fontSize i) (color i) (strokeColor i) (strokeWidth i)
    (backgroundColor i) (backgroundOpacity i) (backgroundPadding i) (backgroundRadius i)
    (animationType i) None.

(** [canvasItems.filter(i => i.type === 'image' && !i.isSticker).map(i => i.id)] *)
Definition usedIds (canvasItems : list CanvasItem) : list string :=
  map id
    (filter (fun i => itemType_eqb (type i) TImage && negb (JS.truthyFlag (isSticker i)))
       canvasItems).

(** The [collageData] that [handleSaveInternal] hands to [onSave]. *)
Definition collageDataOf (canvasItems : list CanvasItem) (bgGradientId title : string)
  : CollageData :=
  mkCollage (map cleanItem canvasItems) bgGradientId
    (match find (fun i => String.eqb (id i) "title") canvasItems with
     | Some i => JS.orStr (text i) title
     | None => title
     end).

End Collage.

(* ------------------------------------------------------------------ *)
(** ** The timeline renderer (VideoPreview.tsx) *)

Module Preview.
Import Types Canvas.

(** A loaded resource of [imagesRef]: an image or a video element, read
  for its source and intrinsic size. *)
Inductive MediaElement :=
| ImageEl (src : string) (w h : Q)
| VideoEl (src : string) (videoWidth videoHeight : Q).

Definition media_src (m : MediaElement) : string :=
  match m with ImageEl s _ _ => s | VideoEl s _ _ => s end.
Definition mediaW (m : MediaElement) : Q :=
  match m with ImageEl _ w _ => w | VideoEl _ w _ => w end.
Definition mediaH (m : MediaElement) : Q :=
  match m with ImageEl _ _ h => h | VideoEl _ _ h => h end.

(** What a frame reads besides the media list and the settings. *)
Record FrameEnv := mkEnv {
  canvas_width : Q;
  canvas_height : Q;
  appState : AppState;
  isPlaying : bool;
  selectedMediaId : option string;
  selectedOverlayId : option string;
  (** [collageAssetsRef.current.get(url)] *)
  collageAssets : string -> option ImageElement
}.

(** [m.type === 'video' ? (m.duration || 5) : settings.photoDuration] *)
Definition slideSeconds (settings : VideoSettings) (m : UploadedMedia) : Q :=
  match m_type m with
  | MVideo => JS.orNum (m_duration m) 5
  | MImage => photoDuration settings
  end.

Definition calculateTotalDuration (settings : VideoSettings) (mediaList : list UploadedMedia) : Q :=
  fold_left (fun acc item => acc + slideSeconds settings item * 1000) mediaList 0.

(** *** The clock *)

(** [loopTime] from the elapsed time; [None] when an export has reached its
  end and the frame calls [stopRendering] and returns.  [st] and [playing]
  are [appState] and [isPlaying] as the closure of [drawFrame] that runs
  holds them: an export runs the closure made with [appState] at
  [RENDERING]; [startPlayback] requests a frame from the closure it was
  made with, in which [isPlaying] is still false. *)
Definition loopTimeOf (st : AppState) (playing : bool) (manualSeekTime : option Q)
  (elapsed totalDuration totalLoopDuration : Q) : option Q :=
  if appState_eqb st RENDERING
  then if JS.leb totalLoopDuration elapsed then None
       else Some (JS.min elapsed (totalDuration - 1))
  else if playing then Some (JS.rem elapsed totalDuration)
  else Some (match manualSeekTime with Some t => t | None => 0 end).

(** The result of the search loop: [slideIndex], [slideDuration] and
  [currentSlideStart] as the loop leaves them. *)
Record SlideAt := mkSlideAt {
  slideIndex : nat;
  slideDuration : Q;
  currentSlideStart : Q
}.

(** [for (let i = 0; i < mediaList.length; i++) { ... break; ... }] from
  index [i] with [currentSlideStart = start]. *)
Fixpoint findSlideFrom (settings : VideoSettings) (loopTime : Q)
  (rest : list UploadedMedia) (i : nat) (start : Q) : SlideAt :=
  match rest with
  | [] => mkSlideAt 0 0 start
  | m :: rest' =>
      let d := slideSeconds settings m * 1000 in
      if JS.leb start loopTime && JS.ltb loopTime (start + d)
      then mkSlideAt i d start
      else findSlideFrom settings loopTime rest' (S i) (start + d)
  end.

Definition findSlide (settings : VideoSettings) (mediaList : list UploadedMedia)
  (loopTime : Q) : SlideAt :=
  findSlideFrom settings loopTime mediaList 0 0.

Definition timeInSlide (s : SlideAt) (loopTime : Q) : Q := loopTime - currentSlideStart s.

Definition effectiveTransitionDuration (settings : VideoSettings) (s : SlideAt) : Q :=
  JS.min (transitionDuration settings * 1000) (slideDuration s).

Definition transitionStart (settings : VideoSettings) (s : SlideAt) : Q :=
  JS.max 0 (slideDuration s - effectiveTransitionDuration settings s).

(** *** Drawing helpers *)

Definition renderPlaceholder (env : FrameEnv) (missingName : string) (alpha : Q)
  : list CanvasOp :=
  [ ctx_save; set_globalAlpha alpha;
    set_fillStyle (Color "#1e293b");
    ctx_fillRect 0 0 (canvas_width env) (canvas_height env);
    set_fillStyle (Color "#94a3b8");
    set_font (mkFont false (Some 24) (Some "sans-serif"%string));
    set_textAlign "center"; set_textBaseline "middle";
    ctx_fillText ("檔案遺失: " ++ missingName)
      (canvas_width env / 2) (canvas_height env / 2);
    set_font (mkFont false (Some 16) (Some "sans-serif"%string));
    ctx_fillText "請重新上傳原始檔案以修復"
      (canvas_width env / 2) (canvas_height env / 2 + 30);
    ctx_restore ].

(** [selectedMediaId === currentMediaData.id && selectedOverlayId === oid &&
  !isPlaying && appState !== AppState.RENDERING] *)
Definition overlaySelected (env : FrameEnv) (currentId : string) (oid : string) : bool :=
  match selectedMediaId env, selectedOverlayId env with
  | Some sm, Some so =>
      String.eqb sm currentId && String.eqb so oid
      && negb (isPlaying env) && negb (appState_eqb (appState env) RENDERING)
  | _, _ => false
  end.

Section Drawing.
Context `{Platform}.

(** The [case] bodies of the switch of [drawEffect]. *)
Definition case_REC_FRAME (w h t : Q) : list CanvasOp :=
  let cornerLen := JS.min w h * 0.2 in
  [ ctx_beginPath; ctx_moveTo 0 cornerLen; ctx_lineTo 0 0; ctx_lineTo cornerLen 0; ctx_stroke;
    ctx_beginPath; ctx_moveTo (w - cornerLen) 0; ctx_lineTo w 0; ctx_lineTo w cornerLen; ctx_stroke;
    ctx_beginPath; ctx_moveTo 0 (h - cornerLen); ctx_lineTo 0 h; ctx_lineTo cornerLen h; ctx_stroke;
    ctx_beginPath; ctx_moveTo (w - cornerLen) h; ctx_lineTo w h; ctx_lineTo w (h - cornerLen); ctx_stroke;
    set_font (mkFont true (Some 20) (Some "sans-serif"%string));
    ctx_fillText "REC" 20 30 ]
  ++ (if (Z.rem (Qfloor (t * 2)) 2 =? 0)%Z
      then [ set_fillStyle (Color "#ef4444"); ctx_beginPath;
             ctx_arc 10 23 5 0 (Math_PI * 2); ctx_fill ]
      else []).

Definition case_RED_CIRCLE (w h t : Q) : list CanvasOp :=
  let circ := Math_PI * JS.max w h in
  [ set_strokeStyle "#ef4444"; set_lineWidth 4; ctx_beginPath; ctx_save;
    ctx_translate (w / 2) (h / 2);
    ctx_setLineDash [circ; circ];
    set_lineDashOffset (circ - (circ * JS.min 1 t));
    ctx_beginPath; ctx_ellipse 0 0 (w / 2 - 5) (h / 2 - 5) 0 0 (Math_PI * 2); ctx_stroke;
    set_globalAlpha 0.6; ctx_beginPath;
    ctx_ellipse 1 1 (w / 2 - 6) (h / 2 - 4) 0.1 0 (Math_PI * 2); ctx_stroke;
    ctx_restore ].

Definition case_LOCATION_PIN (w h t : Q) : list CanvasOp :=
  let pinW := JS.min w h * 0.5 in
  let pinX := w / 2 in
  let pinY := h - 10 in
  let bob := Math_sin (t * 5) * 5 in
  [ ctx_save; ctx_translate pinX (pinY - pinW - bob); ctx_beginPath; ctx_moveTo 0 pinW;
    ctx_bezierCurveTo (- pinW / 2) (pinW / 2) (- pinW) 0 (- pinW) (- pinW / 4);
    ctx_arc 0 (- pinW / 4) pinW Math_PI 0;
    ctx_bezierCurveTo pinW 0 (pinW / 2) (pinW / 2) 0 pinW; ctx_closePath; ctx_stroke;
    set_fillStyle (Color "#ffffff"); ctx_beginPath;
    ctx_arc 0 (- pinW / 4) (pinW / 3) 0 (Math_PI * 2); ctx_fill; ctx_restore;
    ctx_save; ctx_translate pinX pinY; ctx_scale 1 0.3;
    set_fillStyle (Color "rgba(0,0,0,0.3)");
    ctx_beginPath; ctx_arc 0 0 (10 + Qabs bob) 0 (Math_PI * 2); ctx_fill; ctx_restore ].

Definition case_TAPE (w h : Q) (k : nat) : list CanvasOp * nat :=
  let '(top, k1) :=
    Loop.run (fun i => JS.leb i w) (fun i => i + 5) 1
      (fun i k => [ctx_lineTo i (Math_random k * 2)])
      (Loop.iterations w 5) 0 k in
  let '(bottom, k2) :=
    Loop.run (fun i => JS.leb 0 i) (fun i => i - 5) 1
      (fun i k => [ctx_lineTo i (h - Math_random k * 2)])
      (Loop.iterations w 5) w k1 in
  let gridSize := 10 in
  let '(vertical, _) :=
    Loop.run (fun x => JS.ltb x w) (fun x => x + gridSize) 0
      (fun x _ => [ctx_moveTo x 0; ctx_lineTo x h])
      (Loop.iterations w gridSize) 0 k2 in
  let '(horizontal, _) :=
    Loop.run (fun y => JS.ltb y h) (fun y => y + gridSize) 0
      (fun y _ => [ctx_moveTo 0 y; ctx_lineTo w y])
      (Loop.iterations h gridSize) 0 k2 in
  ([ ctx_save; set_globalAlpha 0.6; set_fillStyle (Color "#ffffff"); ctx_beginPath; ctx_moveTo 0 0 ]
   ++ top ++ [ ctx_lineTo w h ] ++ bottom ++ [ ctx_lineTo 0 0; ctx_fill;
      ctx_clip; set_strokeStyle "#cbd5e1"; set_lineWidth 1; ctx_beginPath ]
   ++ vertical ++ horizontal ++ [ ctx_stroke; ctx_restore ], k2).

Definition case_BULB_LINE (w h t : Q) : list CanvasOp :=
  let bulbW := JS.min w h * 0.6 in
  let bX := w / 2 in
  let bY := h / 2 in
  let flicker := 0.8 + Math_sin (t * 20) * 0.2 in
  [ ctx_save; ctx_translate bX bY; set_globalAlpha flicker; ctx_beginPath;
    ctx_arc 0 (- bulbW / 2) (bulbW / 2) (Math_PI * 0.8) (Math_PI * 2.2);
    ctx_quadraticCurveTo (bulbW / 2) 0 (bulbW / 4) (bulbW / 2);
    ctx_lineTo (- bulbW / 4) (bulbW / 2);
    ctx_quadraticCurveTo (- bulbW / 2) 0 (- bulbW * 0.48) (- bulbW * 0.25); ctx_stroke;
    ctx_beginPath; ctx_moveTo (-10) 0; ctx_lineTo (-5) (-20); ctx_lineTo 5 (-20);
    ctx_lineTo 10 0; ctx_stroke ]
  ++ (if JS.ltb 0 (Math_sin (t * 5))
      then [ ctx_beginPath; ctx_moveTo 0 (- bulbW); ctx_lineTo 0 (- bulbW - 10);
             ctx_moveTo bulbW (- bulbW / 2); ctx_lineTo (bulbW + 10) (- bulbW / 2 - 10);
             ctx_moveTo (- bulbW) (- bulbW / 2); ctx_lineTo (- bulbW - 10) (- bulbW / 2 - 10);
             ctx_stroke ]
      else [])
  ++ [ ctx_restore ].

Definition case_HEART_LINE (w h t : Q) : list CanvasOp :=
  let heartScale := JS.min w h / 100 in
  let beat := 1 + Math_sin (t * 8) * 0.05 in
  [ ctx_save; ctx_translate (w / 2) (h / 2);
    ctx_scale (heartScale * beat) (heartScale * beat); ctx_beginPath; ctx_moveTo 0 20;
    ctx_bezierCurveTo 0 (-10) (-50) (-10) (-50) 20;
    ctx_bezierCurveTo (-50) 50 0 80 0 90;
    ctx_bezierCurveTo 0 80 50 50 50 20;
    ctx_bezierCurveTo 50 (-10) 0 (-10) 0 20;
    ctx_bezierCurveTo 50 (-10) 0 (-10) 0 20; ctx_stroke; ctx_restore ].

(** The selection chrome that [drawEffect] adds for the selected overlay. *)
Definition effectSelection (item : CanvasItem) : list CanvasOp :=
  let cx := x item + width item * scale item / 2 in
  let cy := y item + height item * scale item / 2 in
  let hSize := 10 / scale item in
  [ ctx_save; ctx_translate cx cy; ctx_rotate (JS.orNum (rotation item) 0);
    ctx_scale (scale item) (scale item);
    ctx_translate (- width item / 2) (- height item / 2);
    set_strokeStyle "#3b82f6"; set_lineWidth (2 / scale item); ctx_setLineDash [5; 3];
    ctx_strokeRect 0 0 (width item) (height item);
    set_fillStyle (Color "#3b82f6"); ctx_setLineDash []; ctx_beginPath;
    ctx_arc (width item) (height item) hSize 0 (Math_PI * 2); ctx_fill; ctx_restore ].

(** [drawEffect(item, timeSec)], for the slide [currentId]. *)
Definition drawEffect (env : FrameEnv) (currentId : string) (item : CanvasItem)
  (timeSec : Q) (k : nat) : list CanvasOp * nat :=
  match type item, animationType item with
  | TEffect, Some anim =>
      let cx := x item + width item * scale item / 2 in
      let cy := y item + height item * scale item / 2 in
      let w := width item in
      let h := height item in
      let t := timeSec in
      let '(body, k') :=
        match anim with
        | REC_FRAME => (case_REC_FRAME w h t, k)
        | RED_CIRCLE => (case_RED_CIRCLE w h t, k)
        | LOCATION_PIN => (case_LOCATION_PIN w h t, k)
        | TAPE => case_TAPE w h k
        | BULB_LINE => (case_BULB_LINE w h t, k)
        | HEART_LINE => (case_HEART_LINE w h t, k)
        | NONE => ([], k)
        end in
      ([ ctx_save; ctx_translate cx cy; ctx_rotate (JS.orNum (rotation item) 0);
         ctx_scale (scale item) (scale item);
         ctx_translate (- width item / 2) (- height item / 2);
         set_textAlign "center"; set_textBaseline "middle";
         set_strokeStyle "#ffffff"; set_fillStyle (Color "#ffffff"); set_lineWidth 3;
         set_lineCap "round"; set_lineJoin "round";
         set_shadowColor "rgba(0,0,0,0.2)"; set_shadowBlur 2 ]
       ++ body ++ [ ctx_restore ]
       ++ (if overlaySelected env currentId (id item) then effectSelection item else []),
       k')
  | _, _ => ([], k)
  end.

End Drawing.

Section Frame.
Context `{Platform}.

(** An image item of a collage slide. *)
Definition collageImage (item : CanvasItem) (img : ImageElement) : list CanvasOp :=
  let drawW := img_width img * JS.orNum (imgBaseScale item) 1 * JS.orNum (imgZoom item) 1 in
  let drawH := img_height img * JS.orNum (imgBaseScale item) 1 * JS.orNum (imgZoom item) 1 in
  let cX := (width item - drawW) / 2 in
  let cY := (height item - drawH) / 2 in
  let ix := cX + JS.orNum (option_map px (imgOffset item)) 0 in
  let iy := cY + JS.orNum (option_map py (imgOffset item)) 0 in
  [ ctx_save; ctx_translate (x item) (y item); ctx_scale (scale item) (scale item);
    set_shadowColor "rgba(0,0,0,0.3)"; set_shadowBlur 10;
    set_shadowOffsetX 3; set_shadowOffsetY 3;
    ctx_beginPath; ctx_rect 0 0 (width item) (height item); ctx_clip;
    set_shadowColor "transparent";
    ctx_drawImage (img_src img) ix iy drawW drawH; ctx_restore ].

(** A text item of a collage slide. *)
Definition collageText (item : CanvasItem) : list CanvasOp :=
  let p := JS.orNum (backgroundPadding item) 0 in
  let halfW := (width item + p * 2) / 2 in
  let halfH := (height item + p * 2) / 2 in
  let cx := x item + halfW * scale item in
  let cy := y item + halfH * scale item in
  [ ctx_save; ctx_translate cx cy; ctx_rotate (JS.orNum (rotation item) 0);
    ctx_scale (scale item) (scale item); ctx_translate (- halfW) (- halfH) ]
  ++ (if JS.ltb 0 p then [ ctx_translate p p ] else [])
  ++ [ set_font (mkFont true (fontSize item) (fontFamily item)); set_textBaseline "top" ]
  ++ (if JS.truthyStr (backgroundColor item)
      then
        let bgW := width item + p * 2 in
        let bgH := height item + p * 2 in
        let radius := JS.orNum (backgroundRadius item) 0 in
        let bAlpha := match backgroundOpacity item with Some a => a | None => 0.8 end in
        [ ctx_save; set_globalAlpha bAlpha;
          set_fillStyle (Color (JS.orStr (backgroundColor item) "")); ctx_beginPath;
          (if hasRoundRect then ctx_roundRect (- p) (- p) bgW bgH radius
           else ctx_rect (- p) (- p) bgW bgH);
          ctx_fill; ctx_restore ]
      else [])
  ++ [ set_shadowColor "rgba(0,0,0,0.2)"; set_shadowBlur 4 ]
  ++ (if JS.truthyNum (strokeWidth item) && JS.ltb 0 (JS.numOf (strokeWidth item))
      then [ set_strokeStyle (JS.orStr (strokeColor item) "#ffffff");
             set_lineWidth (JS.numOf (strokeWidth item));
             set_lineJoin "round"; ctx_strokeText (JS.orStr (text item) "") 0 0 ]
      else [])
  ++ [ set_fillStyle (Color (JS.orStr (color item) "#000"));
       ctx_fillText (JS.orStr (text item) "") 0 0; ctx_restore ].

(** [sorted.forEach(item => ...)] of a collage slide. *)
Fixpoint collageItems (env : FrameEnv) (currentId : string) (timeSec : Q) (k : nat)
  (sorted : list CanvasItem) : list CanvasOp :=
  match sorted with
  | [] => []
  | item :: rest =>
      let '(ops, k') :=
        if itemType_eqb (type item) TImage && JS.truthyStr (sourceUrl item)
        then
          match collageAssets env (JS.orStr (sourceUrl item) "") with
          | Some img => (collageImage item img, k)
          | None => ([], k)
          end
        else if itemType_eqb (type item) TText then (collageText item, k)
        else if itemType_eqb (type item) TEffect then drawEffect env currentId item timeSec k
        else ([], k) in
      ops ++ collageItems env currentId timeSec k' rest
  end.

(** [renderCollageFrame(collage, alpha, scale, offsetX, offsetY, timeSec)] *)
Definition renderCollageFrame (env : FrameEnv) (currentId : string) (k : nat)
  (collage : CollageData) (alpha scale offsetX offsetY timeSec : Q) : list CanvasOp :=
  let w := 960 in
  let h := 720 in
  let ratio := JS.min (canvas_width env / w) (canvas_height env / h) * scale in
  let destW := w * ratio in
  let destH := h * ratio in
  let destX := (canvas_width env - destW) / 2 + offsetX in
  let destY := (canvas_height env - destH) / 2 + offsetY in
  let '(c0, c1) := Collage.gradientDef (bgGradientId collage) in
  let sorted := JS.sortAsc zIndex (items collage) in
  [ ctx_save; set_globalAlpha (JS.max 0 (JS.min 1 alpha));
    ctx_translate destX destY; ctx_scale ratio ratio;
    ctx_beginPath; ctx_rect 0 0 w h; ctx_clip;
    set_fillStyle (LinearGradient 0 0 w h [(0, c0); (1, c1)]);
    ctx_fillRect 0 0 w h ]
  ++ collageItems env currentId timeSec k sorted
  ++ [ ctx_restore ].

(** [renderMedia(media, alpha, scale, offsetX, offsetY, mediaData)];
  [timeSec] is [timeInSlide / 1000] of the frame. *)
Definition renderMedia (env : FrameEnv) (currentId : string) (timeSec : Q)
  (media : option MediaElement) (alpha scale offsetX offsetY : Q)
  (mediaData : option UploadedMedia) : list CanvasOp :=
  match option_map m_collageData mediaData with
  | Some (Some collage) =>
      renderCollageFrame env currentId 0 collage alpha scale offsetX offsetY timeSec
  | _ =>
      match media with
      | None =>
          match mediaData with
          | Some md =>
              if JS.truthyFlag (m_missing md)
              then renderPlaceholder env (JS.orStr (m_fileName md) "Unknown") alpha
              else []
          | None => []
          end
      | Some el =>
          let ratio := JS.min (canvas_width env / mediaW el) (canvas_height env / mediaH el) * scale in
          let w := mediaW el * ratio in
          let h := mediaH el * ratio in
          let dx := (canvas_width env - w) / 2 + offsetX in
          let dy := (canvas_height env - h) / 2 + offsetY in
          [ ctx_save; set_globalAlpha (JS.max 0 (JS.min 1 alpha));
            ctx_drawImage (media_src el) dx dy w h; ctx_restore ]
      end
  end.

End Frame.

(** *** The render pipeline *)

(** The value of a quotient [a / b] of the source whose divisor can be 0:
  JavaScript gives [Infinity] or [-Infinity] for a dividend that is not 0,
  and [NaN] for [0 / 0].  The divisors in question are [slideDuration]
  and [effectiveTransitionDuration], whose zero is the positive one. *)
Inductive Quotient :=
| Finite (q : Q)
| PlusInfinity
| MinusInfinity
| NotANumber.

Definition quotient (a b : Q) : Quotient :=
  if Qeq_bool b 0
  then if JS.ltb 0 a then PlusInfinity
       else if JS.ltb a 0 then MinusInfinity
       else NotANumber
  else Finite (a / b).

(** [getZoomScale] on a progress that is a number of the model. *)
Definition getZoomScale (ty : TransitionType) (progress0to1 : Q) : Q :=
  match ty with
  | ZOOM_IN => 1.0 + (progress0to1 * 0.15)
  | ZOOM_OUT => 1.15 - (progress0to1 * 0.15)
  | _ => 1.0
  end.

(** [getZoomScale(transitionType, slideLifeProgress)] on the quotient that
  [slideLifeProgress] is: an infinite progress gives an infinite scale in
  the two zooms, and 1.0 in the other transitions. *)
Definition zoomScaleOf (ty : TransitionType) (progress : Quotient) : Quotient :=
  match progress with
  | Finite p => Finite (getZoomScale ty p)
  | PlusInfinity =>
      match ty with
      | ZOOM_IN => PlusInfinity
      | ZOOM_OUT => MinusInfinity
      | _ => Finite 1.0
      end
  | MinusInfinity =>
      match ty with
      | ZOOM_IN => MinusInfinity
      | ZOOM_OUT => PlusInfinity
      | _ => Finite 1.0
      end
  | NotANumber =>
      match ty with
      | ZOOM_IN | ZOOM_OUT => NotANumber
      | _ => Finite 1.0
      end
  end.

(** One call of [renderMedia] made by the pipeline: which slide, and the
  alpha, scale and offsets passed. *)
Inductive Which := Current | Next.

Record RenderCall := mkCall {
  rc_which : Which;
  rc_alpha : Q;
  rc_scale : Q;
  rc_offsetX : Q;
  rc_offsetY : Q
}.

(** The [switch (transitionType)] of the transition phase. *)
Definition transitionCalls (ty : TransitionType) (t currentScale cw ch : Q)
  : list RenderCall :=
  let nextScale := 1.0 in
  match ty with
  | SLIDE_LEFT =>
      [ mkCall Current 1 currentScale (- t * cw) 0;
        mkCall Next 1 nextScale ((1 - t) * cw) 0 ]
  | SLIDE_RIGHT =>
      [ mkCall Current 1 currentScale (t * cw) 0;
        mkCall Next 1 nextScale (- (1 - t) * cw) 0 ]
  | SLIDE_UP =>
      [ mkCall Current 1 currentScale 0 (- t * ch);
        mkCall Next 1 nextScale 0 ((1 - t) * ch) ]
  | SLIDE_DOWN =>
      [ mkCall Current 1 currentScale 0 (t * ch);
        mkCall Next 1 nextScale 0 (- (1 - t) * ch) ]
  | FADE | ZOOM_IN | ZOOM_OUT =>
      [ mkCall Current 1 currentScale 0 0;
        mkCall Next t nextScale 0 0 ]
  end.

(** [currentMediaData.transition || TransitionType.FADE] *)
Definition transitionOf (m : UploadedMedia) : TransitionType :=
  match m_transition m with Some ty => ty | None => FADE end.

(** The clamped progress of the transition phase,
  [Math.max(0, Math.min(1, transProgress))]: an infinite quotient is
  clamped to 1 or to 0; [None] is the [NaN] that [0 / 0] leaves. *)
Definition transitionProgress (settings : VideoSettings) (s : SlideAt) (loopTime : Q)
  : option Q :=
  let transProgress :=
    quotient (timeInSlide s loopTime - transitionStart settings s)
      (effectiveTransitionDuration settings s) in
  match transProgress with
  | Finite q => Some (JS.max 0 (JS.min 1 q))
  | PlusInfinity => Some 1
  | MinusInfinity => Some 0
  | NotANumber => None
  end.

(** Is the frame drawn without transition logic? *)
Definition drawsAlone (env : FrameEnv) (settings : VideoSettings) (n : nat)
  (s : SlideAt) (loopTime : Q) : bool :=
  (n =? 1)%nat
  || (appState_eqb (appState env) RENDERING && (slideIndex s =? n - 1)%nat)
  || JS.ltb (timeInSlide s loopTime) (transitionStart settings s).

(** The main render pipeline as the list of [renderMedia] calls it makes.
  [None]: the frame passes a scale that is infinite or a progress that is
  [NaN] to [renderMedia]; these are not numbers of the model, and the
  drawing of such a frame is left out of it.  This happens only when the
  search has found no slide, where [slideDuration] is 0. *)
Definition pipelineCalls (env : FrameEnv) (settings : VideoSettings)
  (mediaList : list UploadedMedia) (current : UploadedMedia) (s : SlideAt) (loopTime : Q)
  : option (list RenderCall) :=
  let transitionType := transitionOf current in
  let slideLifeProgress := quotient (timeInSlide s loopTime) (slideDuration s) in
  match zoomScaleOf transitionType slideLifeProgress with
  | Finite currentScale =>
      if drawsAlone env settings (List.length mediaList) s loopTime
      then Some [ mkCall Current 1 currentScale 0 0 ]
      else
        match transitionProgress settings s loopTime with
        | Some t =>
            Some (transitionCalls transitionType t currentScale
                    (canvas_width env) (canvas_height env))
        | None => None
        end
  | _ => None
  end.

Inductive FrameResult :=
| Skipped                            (* returned before drawing *)
| Threw                              (* a TypeError on an absent slide *)
| NotFinite                          (* draws with Infinity or NaN: left out *)
| Drawn (ops : list CanvasOp).

Section FrameLoop.
Context `{Platform}.

(** [currentMediaData.overlayEffects.forEach(effect => drawEffect(...))] *)
Fixpoint drawOverlayEffects (env : FrameEnv) (currentId : string) (timeSec : Q)
  (k : nat) (effects : list CanvasItem) : list CanvasOp :=
  match effects with
  | [] => []
  | e :: rest =>
      let '(ops, k') := drawEffect env currentId e timeSec k in
      ops ++ drawOverlayEffects env currentId timeSec k' rest
  end.

(** The legacy text overlay of a slide, with its selection chrome. *)
Definition drawOverlayText (env : FrameEnv) (currentId : string) (ot : CanvasItem)
  : list CanvasOp :=
  let p := JS.orNum (backgroundPadding ot) 0 in
  let font := mkFont true (fontSize ot) (fontFamily ot) in
  let measuredW := measureTextWidth font (JS.orStr (text ot) "") in
  let measuredH := JS.orNum (fontSize ot) 50 * 1.2 in
  let finalW := JS.orNum (Some (width ot)) measuredW in
  let boxW := finalW + p * 2 in
  let boxH := measuredH + p * 2 in
  let tx := p in
  let ty := p in
  [ ctx_save; set_font font;
    ctx_translate (x ot + boxW / 2) (y ot + boxH / 2);
    ctx_rotate (JS.orNum (rotation ot) 0);
    ctx_translate (- boxW / 2) (- boxH / 2);
    set_globalAlpha 1; set_textAlign "left"; set_textBaseline "top" ]
  ++ (if JS.truthyStr (backgroundColor ot)
      then
        let radius := JS.orNum (backgroundRadius ot) 0 in
        let alpha := match backgroundOpacity ot with Some a => a | None => 0.8 end in
        [ set_globalAlpha alpha;
          set_fillStyle (Color (JS.orStr (backgroundColor ot) "")); ctx_beginPath;
          (if hasRoundRect then ctx_roundRect 0 0 boxW boxH radius
           else ctx_rect 0 0 boxW boxH);
          ctx_fill; set_globalAlpha 1 ]
      else [])
  ++ [ set_shadowColor "rgba(0,0,0,0.5)"; set_shadowBlur 4;
       set_shadowOffsetX 2; set_shadowOffsetY 2 ]
  ++ (if JS.truthyNum (strokeWidth ot) && JS.ltb 0 (JS.numOf (strokeWidth ot))
      then [ set_lineWidth (JS.numOf (strokeWidth ot));
             set_strokeStyle (JS.orStr (strokeColor ot) "#000");
             set_lineJoin "round"; ctx_strokeText (JS.orStr (text ot) "") tx ty ]
      else [])
  ++ [ set_fillStyle (Color (JS.orStr (color ot) "#fff"));
       ctx_fillText (JS.orStr (text ot) "") tx ty; ctx_restore ]
  ++ (if overlaySelected env currentId "text"
      then
        let handleSize := 10 in
        let rotDist := 25 in
        [ ctx_save; ctx_translate (x ot + boxW / 2) (y ot + boxH / 2);
          ctx_rotate (JS.orNum (rotation ot) 0);
          ctx_translate (- boxW / 2) (- boxH / 2);
          set_strokeStyle "#3b82f6"; set_lineWidth 2; ctx_setLineDash [5; 3];
          set_shadowColor "transparent";
          ctx_strokeRect 0 0 boxW boxH;
          set_fillStyle (Color "#3b82f6"); ctx_setLineDash []; ctx_beginPath;
          ctx_arc boxW boxH handleSize 0 (Math_PI * 2); ctx_fill;
          ctx_beginPath; ctx_moveTo (boxW / 2) 0; ctx_lineTo (boxW / 2) (- rotDist); ctx_stroke;
          ctx_beginPath; ctx_arc (boxW / 2) (- rotDist) handleSize 0 (Math_PI * 2); ctx_fill;
          ctx_restore ]
      else []).

(** The overlays of the current slide, drawn unless it is a collage. *)
Definition drawOverlays (env : FrameEnv) (current : UploadedMedia) (timeSec : Q)
  : list CanvasOp :=
  match m_collageData current with
  | Some _ => []
  | None =>
      (match m_overlayEffects current with
       | Some effects => drawOverlayEffects env (m_id current) timeSec 0 effects
       | None => []
       end)
      ++ (match m_overlayText current with
          | Some ot => drawOverlayText env (m_id current) ot
          | None => []
          end)
  end.

(** [imagesRef.current[i]]: the element loaded for slide [i], if any. *)
Definition elementAt (imagesRef : list (option MediaElement)) (i : nat)
  : option MediaElement :=
  match nth_error imagesRef i with Some m => m | None => None end.

(** [(slideIndex + 1) % mediaList.length] *)
Definition nextSlideIndex (mediaList : list UploadedMedia) (s : SlideAt) : nat :=
  (S (slideIndex s) mod List.length mediaList)%nat.

(** The canvas operations of one [renderMedia] call of the pipeline. *)
Definition renderCall (env : FrameEnv) (imagesRef : list (option MediaElement))
  (mediaList : list UploadedMedia) (s : SlideAt) (currentId : string) (timeSec : Q)
  (c : RenderCall) : list CanvasOp :=
  let i := match rc_which c with
           | Current => slideIndex s
           | Next => nextSlideIndex mediaList s
           end in
  renderMedia env currentId timeSec (elementAt imagesRef i)
    (rc_alpha c) (rc_scale c) (rc_offsetX c) (rc_offsetY c)
    (nth_error mediaList i).

(** [drawFrame] at a clock value [loopTime]: the canvas is cleared, the
  pipeline renders the slide or the transition, then the overlays of the
  current slide are drawn. *)
Definition drawFrameAt (env : FrameEnv) (settings : VideoSettings)
  (imagesRef : list (option MediaElement)) (mediaList : list UploadedMedia)
  (loopTime : Q) : FrameResult :=
  match imagesRef with
  | [] => Skipped
  | _ =>
      let s := findSlide settings mediaList loopTime in
      match nth_error mediaList (slideIndex s) with
      | None => Threw
      | Some current =>
          let timeSec := timeInSlide s loopTime / 1000 in
          match pipelineCalls env settings mediaList current s loopTime with
          | None => NotFinite
          | Some calls =>
              Drawn
                ([ set_fillStyle (Color "#000");
                   ctx_fillRect 0 0 (canvas_width env) (canvas_height env) ]
                 ++ flat_map (renderCall env imagesRef mediaList s (m_id current) timeSec)
                      calls
                 ++ drawOverlays env current timeSec)
          end
      end
  end.

End FrameLoop.

(** *** The audio graph *)

(** A decoded buffer: only its duration, in seconds, is read. *)
Record AudioBuffer := mkBuffer { duration : Q }.

(** A call on the [gain] parameter of a gain node. *)
Inductive AutomationEvent :=
| setValueAtTime (value time : Q)
| linearRampToValueAtTime (value time : Q).

Definition ev_time (e : AutomationEvent) : Q :=
  match e with setValueAtTime _ t => t | linearRampToValueAtTime _ t => t end.
Definition ev_value (e : AutomationEvent) : Q :=
  match e with setValueAtTime v _ => v | linearRampToValueAtTime v _ => v end.

(** A buffer source started at [src_start], behind its own gain node. *)
Record ScheduledSource := mkSource {
  src_buffer : AudioBuffer;
  src_start : Q;
  src_gain : list AutomationEvent
}.

(** The variables of the scheduling loop and the sources created so far. *)
Record ScheduleState := mkSchedule {
  cursorTime : Q;
  trackIndex : nat;
  sources : list ScheduledSource
}.

Definition CROSSFADE_DURATION : Q := 0.5.

(** [audioBuffersRef.current[trackIndex % audioBuffersRef.current.length]] *)
Definition bufferAt (buffers : list (option AudioBuffer)) (trackIndex : nat)
  : option AudioBuffer :=
  match nth_error buffers (trackIndex mod List.length buffers) with
  | Some b => b
  | None => None
  end.

(** [!(!buffer || buffer.duration < 0.1)] *)
Definition usable (b : option AudioBuffer) : bool :=
  match b with
  | Some buf => negb (JS.ltb (duration buf) 0.1)
  | None => false
  end.

Definition fadeTime (buf : AudioBuffer) : Q := JS.min CROSSFADE_DURATION (duration buf / 3).

(** The gain automation of one track that starts at [startTime]. *)
Definition trackGainEvents (buf : AudioBuffer) (startTime : Q) : list AutomationEvent :=
  let trackEndTime := startTime + duration buf in
  (if JS.ltb 0 startTime
   then [ setValueAtTime 0 startTime;
          linearRampToValueAtTime 1 (startTime + fadeTime buf) ]
   else [ setValueAtTime 1 0 ])
  ++ [ setValueAtTime 1 (trackEndTime - fadeTime buf);
       linearRampToValueAtTime 0 trackEndTime ].

Inductive StepResult :=
| Continue (st : ScheduleState)
| Exit (st : ScheduleState).

(** One evaluation of the loop condition and, when it holds, one run of the
  body of [while (cursorTime < videoDuration)]. *)
Definition scheduleStep (buffers : list (option AudioBuffer)) (videoDuration : Q)
  (st : ScheduleState) : StepResult :=
  if JS.ltb (cursorTime st) videoDuration
  then
    match bufferAt buffers (trackIndex st) with
    | Some buf =>
        if JS.ltb (duration buf) 0.1
        then
          let ti := S (trackIndex st) in
          if (100 <? ti)%nat then Exit (mkSchedule (cursorTime st) ti (sources st))
          else Continue (mkSchedule (cursorTime st) ti (sources st))
        else
          let startTime := cursorTime st in
          Continue
            (mkSchedule (cursorTime st + (duration buf - fadeTime buf))
               (S (trackIndex st))
               (sources st ++ [ mkSource buf startTime (trackGainEvents buf startTime) ]))
    | None =>
        let ti := S (trackIndex st) in
        if (100 <? ti)%nat then Exit (mkSchedule (cursorTime st) ti (sources st))
        else Continue (mkSchedule (cursorTime st) ti (sources st))
    end
  else Exit st.

(** The loop, run for at most [fuel] steps; [None] when the fuel runs out
  before the loop exits. *)
Fixpoint scheduleLoop (buffers : list (option AudioBuffer)) (videoDuration : Q)
  (fuel : nat) (st : ScheduleState) : option ScheduleState :=
  match fuel with
  | O => None
  | S fuel' =>
      match scheduleStep buffers videoDuration st with
      | Exit st' => Some st'
      | Continue st' => scheduleLoop buffers videoDuration fuel' st'
      end
  end.

(** Two measures for the termination of the loop: the number of fifteenths
  of a second left to the end of the video, and with it the number of
  attempts left. *)
Definition remaining (videoDuration cursor : Q) : nat :=
  Z.to_nat (Qceiling ((videoDuration - cursor) * 15)).

Definition loopMeasure (videoDuration : Q) (st : ScheduleState) : nat :=
  (remaining videoDuration (cursorTime st) * 102 + (101 - trackIndex st))%nat.

(** Ducking: the calls made on [duckingGain.gain] by
  [mediaList.forEach], from the running [currentTime]. *)
Fixpoint duckFrom (settings : VideoSettings) (rest : list UploadedMedia) (currentTime : Q)
  : list AutomationEvent :=
  match rest with
  | [] => []
  | m :: rest' =>
      let d := slideSeconds settings m in
      (match m_type m with
       | MVideo =>
           if JS.truthyFlag (m_enableOriginalAudio m) && negb (JS.truthyFlag (m_missing m))
           then
             let duckStart := JS.max 0 currentTime in
             let duckEnd := currentTime + d in
             [ setValueAtTime 1 duckStart;
               linearRampToValueAtTime 0.2 (duckStart + 0.3);
               setValueAtTime 0.2 (duckEnd - 0.3);
               linearRampToValueAtTime 1 duckEnd ]
           else []
       | MImage => []
       end)
      ++ duckFrom settings rest' (currentTime + d)
  end.

Definition duckingEvents (settings : VideoSettings) (mediaList : list UploadedMedia)
  : list AutomationEvent :=
  setValueAtTime 1 0 :: duckFrom settings mediaList 0.

Definition FADE_OUT_DURATION : Q := 2.0.

Definition masterEvents (videoDuration : Q) : list AutomationEvent :=
  let fadeStart := JS.max 0 (videoDuration - FADE_OUT_DURATION) in
  [ setValueAtTime 1 0; setValueAtTime 1 fadeStart;
    linearRampToValueAtTime 0 videoDuration ].

(** The music part of the graph: the scheduled sources and the automation
  of [duckingGain] and [masterGain]. *)
Record AudioGraph := mkGraph {
  g_sources : list ScheduledSource;
  g_ducking : list AutomationEvent;
  g_master : list AutomationEvent
}.

(** [setupAudioGraph], music part.  Nothing is built when there is no
  buffer; [None] when the fuel does not suffice for the scheduling loop. *)
Definition setupAudioGraph (fuel : nat) (settings : VideoSettings)
  (mediaList : list UploadedMedia) (buffers : list (option AudioBuffer))
  : option AudioGraph :=
  match buffers with
  | [] => Some (mkGraph [] [] [])
  | _ =>
      let videoDuration := calculateTotalDuration settings mediaList / 1000 in
      match scheduleLoop buffers videoDuration fuel (mkSchedule 0 0 []) with
      | Some st =>
          Some (mkGraph (sources st) (duckingEvents settings mediaList)
                  (masterEvents videoDuration))
      | None => None
      end
  end.

(** The value of an audio parameter at time [t] under a list of automation
  events, following the Web Audio rules: events are ordered by time, an
  event of equal time after the ones already there; the value holds after
  an event, and on the way to a linear ramp event it is interpolated from
  the previous event. *)
Fixpoint insertEvent (e : AutomationEvent) (timeline : list AutomationEvent)
  : list AutomationEvent :=
  match timeline with
  | [] => [e]
  | e' :: rest =>
      if JS.ltb (ev_time e) (ev_time e') then e :: timeline
      else e' :: insertEvent e rest
  end.

Definition timelineOf (calls : list AutomationEvent) : list AutomationEvent :=
  fold_left (fun tl e => insertEvent e tl) calls [].

Fixpoint valueFrom (prevT prevV : Q) (timeline : list AutomationEvent) (t : Q) : Q :=
  match timeline with
  | [] => prevV
  | e :: rest =>
      if JS.leb (ev_time e) t then valueFrom (ev_time e) (ev_value e) rest t
      else
        match e with
        | linearRampToValueAtTime v1 t1 =>
            prevV + (v1 - prevV) * ((t - prevT) / (t1 - prevT))
        | setValueAtTime _ _ => prevV
        end
  end.

(** The parameter starts at [defaultValue] (1 for a gain) at time 0. *)
Definition paramValueAt (defaultValue : Q) (calls : list AutomationEvent) (t : Q) : Q :=
  valueFrom 0 defaultValue (timelineOf calls) t.

(** *** Pointer move on the overlays of a slide *)

Inductive OverlayMode := OV_NONE | OV_MOVE | OV_ROTATE | OV_RESIZE.

(** [initialOverlayState]: a copy of the overlay, with [startRotation] and
  [startAngle] added when a rotation starts. *)
Record OverlaySnapshot := mkOverlaySnapshot {
  ov_item : CanvasItem;
  ov_startRotation : option Q;
  ov_startAngle : option Q
}.

Record PointerState := mkPointer {
  interactionMode : OverlayMode;
  dragStartPos : Point;
  initialOverlayState : option OverlaySnapshot
}.

(** The argument of [onMediaUpdate]. *)
Inductive MediaUpdate :=
| overlayText (ot : CanvasItem)
| overlayEffects (effects : list CanvasItem).

Definition with_fontSize (i : CanvasItem) (s : Q) : CanvasItem :=
  mkItem (id i) (type i) (x i) (y i) (width i) (height i) (scale i) (rotation i) (zIndex i)
    (sourceUrl i) (imgOffset i) (imgZoom i) (imgBaseScale i) (isSticker i) (text i)
    (fontFamily i) (Some s) (color i) (strokeColor i) (strokeWidth i)
    (backgroundColor i) (backgroundOpacity i) (backgroundPadding i) (backgroundRadius i)
    (animationType i) (imgElement i).

(** [effects.findIndex(e => e.id === selectedOverlayId)] *)
Fixpoint findIndexById (oid : string) (effects : list CanvasItem) (i : nat) : option nat :=
  match effects with
  | [] => None
  | e :: rest => if String.eqb (id e) oid then Some i else findIndexById oid rest (S i)
  end.

(** [newEffects[idx] = newItem] on a copy of the list, for [idx] in range. *)
Fixpoint replaceAt (idx : nat) (newItem : CanvasItem) (effects : list CanvasItem)
  : list CanvasItem :=
  match effects, idx with
  | [], _ => []
  | _ :: rest, O => newItem :: rest
  | e :: rest, S i => e :: replaceAt i newItem rest
  end.

Section Pointer.
Context `{Platform}.

(** The overlay text as [handleMouseMove] updates it. *)
Definition moveText (mode : OverlayMode) (snap : OverlaySnapshot) (pos : Point)
  (dx dy : Q) : option CanvasItem :=
  let ot := ov_item snap in
  match mode with
  | OV_ROTATE =>
      let font := mkFont true (fontSize ot) (fontFamily ot) in
      let metrics := JS.orNum (Some (measureTextWidth font (JS.orStr (text ot) ""))) 100 in
      let p := JS.orNum (backgroundPadding ot) 0 in
      let w := if JS.truthyStr (backgroundColor ot) then metrics + p * 2 else metrics + 20 in
      let h := if JS.truthyStr (backgroundColor ot)
               then JS.orNum (fontSize ot) 50 * 1.2 + p * 2
               else JS.orNum (fontSize ot) 50 * 1.2 in
      let cx := x ot + w / 2 in
      let cy := y ot + h / 2 in
      let currentAngle := Math_atan2 (py pos - cy) (px pos - cx) in
      let deltaAngle := currentAngle - JS.numOf (ov_startAngle snap) in
      Some (Collage.with_rotation ot (JS.numOf (ov_startRotation snap) + deltaAngle))
  | OV_MOVE => Some (Collage.with_xy ot (x ot + dx) (y ot + dy))
  | OV_RESIZE =>
      let newSize := JS.max 10 (JS.orNum (fontSize ot) 60 + dy * 0.5) in
      Some (with_fontSize ot newSize)
  | OV_NONE => None
  end.

(** The effect overlay as [handleMouseMove] updates it: [newItem]. *)
Definition moveEffect (mode : OverlayMode) (snap : OverlaySnapshot) (pos : Point)
  (dx dy : Q) : CanvasItem :=
  let init := ov_item snap in
  match mode with
  | OV_ROTATE =>
      let cx := x init + width init * scale init / 2 in
      let cy := y init + height init * scale init / 2 in
      let currentAngle := Math_atan2 (py pos - cy) (px pos - cx) in
      let deltaAngle := currentAngle - JS.numOf (ov_startAngle snap) in
      Collage.with_rotation init (JS.numOf (ov_startRotation snap) + deltaAngle)
  | OV_MOVE => Collage.with_xy init (x init + dx) (y init + dy)
  | OV_RESIZE =>
      let angle := JS.orNum (rotation init) 0 in
      let localDx := dx * Math_cos (- angle) - dy * Math_sin (- angle) in
      let newW := width init * scale init + localDx in
      let newScale := JS.max 0.1 (newW / width init) in
      Collage.with_scale init newScale
  | OV_NONE => init
  end.

(** [handleMouseMove]: the update sent to [onMediaUpdate], if any, with the
  id of the slide. *)
Definition handleMouseMove (env : FrameEnv) (hasOnMediaUpdate : bool)
  (mediaList : list UploadedMedia) (currentMediaIndex : nat) (ps : PointerState)
  (pos : Point) : option (string * MediaUpdate) :=
  match interactionMode ps, selectedOverlayId env, initialOverlayState ps with
  | OV_NONE, _, _ | _, None, _ | _, _, None => None
  | mode, Some oid, Some snap =>
      if negb (JS.truthyStr (Some oid)) || negb hasOnMediaUpdate then None
      else
        match nth_error mediaList currentMediaIndex with
        | None => None
        | Some currentMedia =>
            match selectedMediaId env with
            | Some sm =>
                if String.eqb (m_id currentMedia) sm
                then
                  let dx := px pos - px (dragStartPos ps) in
                  let dy := py pos - py (dragStartPos ps) in
                  if String.eqb oid "text"
                  then option_map (fun ot => (m_id currentMedia, overlayText ot))
                         (moveText mode snap pos dx dy)
                  else
                    let effects :=
                      match m_overlayEffects currentMedia with Some l => l | None => [] end in
                    match findIndexById oid effects 0 with
                    | None => None
                    | Some idx =>
                        Some (m_id currentMedia,
                              overlayEffects
                                (replaceAt idx (moveEffect mode snap pos dx dy) effects))
                    end
                else None
            | None => None
            end
        end
  end.

End Pointer.

(** *** Jump to a slide *)

(** The effect that follows [forcedIndex]: the start of the requested
    slide is summed up and [manualSeekTime] is set 100 ms past it. *)
Inductive JumpResult :=
| NoJump                  (* the guard of the effect fails *)
| JumpThrew               (* a TypeError: [mediaList[i]] is absent *)
| SeekTo (time : Q).      (* [setManualSeekTime(time)] *)

(** [for (let i = 0; i < forcedIndex; i++) time += ...], from index [i]
    with [count] iterations left; [None] when [mediaList[i]] is absent. *)
Fixpoint sumStarts (settings : VideoSettings) (mediaList : list UploadedMedia)
  (i count : nat) (time : Q) : option Q :=
  match count with
  | O => Some time
  | S count' =>
      match nth_error mediaList i with
      | None => None
      | Some m => sumStarts settings mediaList (S i) count' (time + slideSeconds settings m * 1000)
      end
  end.

Definition jumpTo (settings : VideoSettings) (mediaList : list UploadedMedia)
  (forcedIndex : option nat) : JumpResult :=
  match forcedIndex, mediaList with
  | None, _ | _, [] => NoJump
  | Some k, _ =>
      match sumStarts settings mediaList 0 k 0 with
      | None => JumpThrew
      | Some time => SeekTo (time + 100)
      end
  end.

(** The durations of a list of slides, in milliseconds, summed up. *)
Fixpoint sumMs (settings : VideoSettings) (l : list UploadedMedia) : Q :=
  match l with
  | [] => 0
  | m :: rest => slideSeconds settings m * 1000 + sumMs settings rest
  end.

(** *** Notions for the properties of the audio graph *)

(** The sources of a list follow one another from cursor [c]: each one
    starts at the cursor, and the cursor then moves on by the duration of
    the track minus its fade; [final] is the cursor after the last one. *)
Fixpoint chained (c : Q) (l : list ScheduledSource) (final : Q) : Prop :=
  match l with
  | [] => final = c
  | s :: rest =>
      src_start s = c
      /\ chained (c + (duration (src_buffer s) - fadeTime (src_buffer s))) rest final
  end.

(** The condition under which [mediaList.forEach] ducks the music for a
    slide: [m.type === 'video' && m.enableOriginalAudio && !m.missing]. *)
Definition ducks (m : UploadedMedia) : bool :=
  match m_type m with
  | MVideo => JS.truthyFlag (m_enableOriginalAudio m) && negb (JS.truthyFlag (m_missing m))
  | MImage => false
  end.

(** [currentTime] after the slides of a list, from [currentTime = t]. *)
Definition secondsAfter (settings : VideoSettings) (l : list UploadedMedia) (t : Q) : Q :=
  fold_left (fun acc m => acc + slideSeconds settings m) l t.

(** What holds of every state of the scheduling loop: the sources follow
    one another from 0 up to the cursor, and each one plays a buffer of the
    list that lasts at least 0.1 s, starts inside the video and carries the
    gain automation of its start. *)
Definition scheduleInvariant (buffers : list (option AudioBuffer))
  (videoDuration : Q) (st : ScheduleState) : Prop :=
  chained 0 (sources st) (cursorTime st)
  /\ 0 <= cursorTime st
  /\ Forall
       (fun s =>
          In (Some (src_buffer s)) buffers
          /\ 0.1 <= duration (src_buffer s)
          /\ 0 <= src_start s
          /\ src_start s < videoDuration
          /\ src_gain s = trackGainEvents (src_buffer s) (src_start s))
       (sources st).

(** *** Pointer press on the overlays of a slide *)

Section Press.
Context `{Platform}.

(** The three tests that [handleMouseDown] makes on an overlay, in the
    order of the source: the rotation handle above the box, the resize
    handle at its bottom right corner, then the body.  The source writes
    them out once for the effects and once for the text, with the centre
    [(cx, cy)] and the half sizes computed before. *)
Definition pressTests (pos : Point) (item : CanvasItem) (cx cy halfW halfH : Q)
  : option (OverlayMode * OverlaySnapshot) :=
  let angle := JS.orNum (rotation item) 0 in
  let dx := px pos - cx in
  let dy := py pos - cy in
  let localDx := dx * Math_cos (- angle) - dy * Math_sin (- angle) in
  let localDy := dx * Math_sin (- angle) + dy * Math_cos (- angle) in
  let hSize := 20 in
  let rotDist := 25 in
  if JS.leb (Math_hypot (localDx - 0) (localDy - (- halfH - rotDist))) hSize
  then Some (OV_ROTATE,
             mkOverlaySnapshot item (Some (JS.orNum (rotation item) 0))
               (Some (Math_atan2 (py pos - cy) (px pos - cx))))
  else if JS.leb (Math_hypot (localDx - halfW) (localDy - halfH)) hSize
  then Some (OV_RESIZE, mkOverlaySnapshot item None None)
  else if JS.leb (Qabs localDx) halfW && JS.leb (Qabs localDy) halfH
  then Some (OV_MOVE, mkOverlaySnapshot item None None)
  else None.

Definition pressEffect (pos : Point) (effect : CanvasItem)
  : option (OverlayMode * OverlaySnapshot) :=
  let cx := x effect + width effect * scale effect / 2 in
  let cy := y effect + height effect * scale effect / 2 in
  let halfW := (width effect * scale effect) / 2 in
  let halfH := (height effect * scale effect) / 2 in
  pressTests pos effect cx cy halfW halfH.

(** [for (const effect of effects) ...]: the first effect of the list that
    one of the tests hits, with its id. *)
Fixpoint scanEffects (pos : Point) (effects : list CanvasItem)
  : option (string * (OverlayMode * OverlaySnapshot)) :=
  match effects with
  | [] => None
  | effect :: rest =>
      match pressEffect pos effect with
      | Some hit => Some (id effect, hit)
      | None => scanEffects pos rest
      end
  end.

Definition pressText (pos : Point) (ot : CanvasItem)
  : option (OverlayMode * OverlaySnapshot) :=
  let font := mkFont true (fontSize ot) (fontFamily ot) in
  let metrics_width := measureTextWidth font (JS.orStr (text ot) "") in
  let p := JS.orNum (backgroundPadding ot) 0 in
  let w := if JS.truthyStr (backgroundColor ot)
           then metrics_width + p * 2 else metrics_width + 20 in
  let h := if JS.truthyStr (backgroundColor ot)
           then JS.orNum (fontSize ot) 50 * 1.2 + p * 2
           else JS.orNum (fontSize ot) 50 * 1.2 in
  let cx := x ot + w / 2 in
  let cy := y ot + h / 2 in
  pressTests pos ot cx cy (w / 2) (h / 2).

(** [handleMouseDown]: the new [selectedOverlayId] and the new pointer
    state.  [hasCanvas] is [canvasRef.current] being there. *)
Definition handleMouseDown (env : FrameEnv) (hasCanvas : bool)
  (mediaList : list UploadedMedia) (currentMediaIndex : nat) (ps : PointerState)
  (pos : Point) : option string * PointerState :=
  if appState_eqb (appState env) RENDERING || isPlaying env || negb hasCanvas
  then (selectedOverlayId env, ps)
  else
    match nth_error mediaList currentMediaIndex with
    | None => (selectedOverlayId env, ps)
    | Some currentMedia =>
        match selectedMediaId env with
        | None => (selectedOverlayId env, ps)
        | Some sm =>
            if String.eqb (m_id currentMedia) sm
            then
              let effects :=
                match m_overlayEffects currentMedia with
                | Some l => rev l
                | None => []
                end in
              match scanEffects pos effects with
              | Some (oid, (mode, snap)) => (Some oid, mkPointer mode pos (Some snap))
              | None =>
                  match m_overlayText currentMedia with
                  | Some ot =>
                      match pressText pos ot with
                      | Some (mode, snap) =>
                          (Some "text"%string, mkPointer mode pos (Some snap))
                      | None => (None, ps)
                      end
                  | None => (None, ps)
                  end
              end
            else (selectedOverlayId env, ps)
        end
    end.

(** The environment of the next handler call, after [setSelectedOverlayId]. *)
Definition with_selectedOverlayId (env : FrameEnv) (oid : option string) : FrameEnv :=
  mkEnv (canvas_width env) (canvas_height env) (appState env) (isPlaying env)
    (selectedMediaId env) oid (collageAssets env).

End Press.

End Preview.

(* ------------------------------------------------------------------ *)
(** ** The state stack of the 2D context *)

Module Stack.
Import Canvas.

(** The depth of the stack of saved states after a list of operations,
    from depth [d]; [None] when a [restore] finds the stack empty. *)
Fixpoint depthAfter (ops : list CanvasOp) (d : nat) : option nat :=
  match ops with
  | [] => Some d
  | ctx_save :: rest => depthAfter rest (S d)
  | ctx_restore :: rest =>
      match d with
      | O => None
      | S d' => depthAfter rest d'
      end
  | _ :: rest => depthAfter rest d
  end.

(** Every [save] of the list is undone by a [restore] of the list, and no
    [restore] of the list undoes a [save] made before it. *)
Definition balanced (ops : list CanvasOp) : Prop :=
  forall d, depthAfter ops d = Some d.

(** An operation that leaves the stack alone. *)
Definition neutral (op : CanvasOp) : bool :=
  match op with
  | ctx_save | ctx_restore => false
  | _ => true
  end.

End Stack.

(* ------------------------------------------------------------------ *)
(** ** App.tsx: the media list *)

Module App.
Import Types.

(** [list.splice(start, 1)] and [list.splice(start, 0, x)] on a copy of the
    list.  A [start] past the end removes nothing, and inserts at the
    end. *)
Definition splice_remove {A : Type} (start : nat) (l : list A) : list A :=
  firstn start l ++ skipn (S start) l.

Definition splice_insert {A : Type} (start : nat) (x : A) (l : list A) : list A :=
  firstn start l ++ x :: skipn start l.

(** [handleDragOver]: the new media list and the new [draggedItemIndex].
    An element of the result is [None] where the source leaves
    [undefined] in the array, which it does when [draggedItemIndex] is not
    an index of the list. *)
Definition handleDragOver (media : list UploadedMedia) (draggedItemIndex : option nat)
  (index : nat) : list (option UploadedMedia) * option nat :=
  match draggedItemIndex with
  | None => (map Some media, None)
  | Some dragged =>
      if Nat.eqb dragged index then (map Some media, Some dragged)
      else
        let newMedia := map Some media in
        let draggedItem := nth_error media dragged in
        (splice_insert index draggedItem (splice_remove dragged newMedia), Some index)
  end.

(** [newMedia[index] = item(newMedia[index])] for the first index whose
    element has the id. *)
Fixpoint replaceFirst (eid : string) (item : UploadedMedia -> UploadedMedia)
  (l : list UploadedMedia) : list UploadedMedia :=
  match l with
  | [] => []
  | m :: rest =>
      if String.eqb (m_id m) eid then item m :: rest
      else m :: replaceFirst eid item rest
  end.

Section Random.
Context `{Platform}.

(** [Object.values(TransitionType)] *)
Definition transitionTypes : list TransitionType :=
  [FADE; SLIDE_UP; SLIDE_DOWN; SLIDE_LEFT; SLIDE_RIGHT; ZOOM_IN; ZOOM_OUT].

(** [getRandomTransition], on the [k]-th value of the random source;
    [None] is the [undefined] of an index outside the array. *)
Definition getRandomTransition (k : nat) : option TransitionType :=
  let randomIndex :=
    Qfloor (Math_random k * inject_Z (Z.of_nat (List.length transitionTypes))) in
  if (randomIndex <? 0)%Z then None
  else nth_error transitionTypes (Z.to_nat randomIndex).

(** [handleCollageSave], on the media list: [freshId] is the value of
    [crypto.randomUUID()] and [fileName] the name made from the clock.  The
    [File] and the [previewUrl] of the new item are not part of
    [UploadedMedia] here. *)
Definition handleCollageSave (prev : list UploadedMedia) (selectedIds : list string)
  (collageData : CollageData) (existingId : option string) (freshId fileName : string)
  : list UploadedMedia :=
  let collageItem (transition : option TransitionType) :=
    mkMedia (JS.orStr existingId freshId) MImage (Some fileName) None None None
      (Some collageData) None (Some []) transition in
  let filtered :=
    filter (fun m => negb (existsb (String.eqb (m_id m)) selectedIds)) prev in
  let fresh := collageItem (getRandomTransition 0) :: filtered in
  match existingId with
  | Some eid =>
      if JS.truthyStr existingId
      then
        match find (fun m => String.eqb (m_id m) eid) prev with
        | Some _ => replaceFirst eid (fun old => collageItem (m_transition old)) prev
        | None => fresh
        end
      else fresh
  | None => fresh
  end.

End Random.

(** *** Saving and loading a project *)

(** [SavedMediaItem]: the fields of [UploadedMedia] and [fileData]. *)
Record SavedMediaItem := mkSaved {
  saved_rest : UploadedMedia;
  fileData : option string
}.

(** [serializedMedia] of [handleSaveProject]: each item of the list comes
    with the data URL that [blobToBase64] gives for its file, if it has a
    file. *)
Definition serializedMedia (media : list (UploadedMedia * option string))
  : list SavedMediaItem :=
  map (fun mf =>
         let m := fst mf in
         mkSaved m
           (match m_collageData m, snd mf with
            | Some _, Some base64 => Some base64
            | _, _ => None
            end))
      media.

(** One item of [restoredMedia] in [handleLoadProject]; [random] is what
    the call of [getRandomTransition] for this item returns. *)
Definition restoreItem (random : option TransitionType) (m : SavedMediaItem)
  : UploadedMedia :=
  let r := saved_rest m in
  let transition :=
    match m_transition r with
    | Some t => Some t
    | None => random
    end in
  let isCollage :=
    match m_collageData r with
    | Some _ => JS.truthyStr (fileData m)
    | None => false
    end in
  if isCollage
  then mkMedia (m_id r) MImage (m_fileName r) (Some false) (m_duration r)
         (m_enableOriginalAudio r) (m_collageData r) (m_overlayText r)
         (m_overlayEffects r) transition
  else mkMedia (m_id r) (m_type r) (m_fileName r) (Some true) (m_duration r)
         (m_enableOriginalAudio r) (m_collageData r) (m_overlayText r)
         (m_overlayEffects r) transition.

(** [restoredMedia]: the items of the project file, restored in order;
    [randoms i] is the random transition drawn for the item of index
    [i]. *)
Fixpoint restoreFrom (randoms : nat -> option TransitionType) (i : nat)
  (l : list SavedMediaItem) : list UploadedMedia :=
  match l with
  | [] => []
  | m :: rest => restoreItem (randoms i) m :: restoreFrom randoms (S i) rest
  end.

Definition restoredMedia (randoms : nat -> option TransitionType)
  (media : list SavedMediaItem) : list UploadedMedia :=
  restoreFrom randoms 0 media.

End App.

(* ------------------------------------------------------------------ *)
(** ** Sample data *)

Module Sample.
Import Types.

(** A platform for evaluating the definitions on concrete inputs.  Its
  sine and cosine are the rational parametrisation of the circle,
  [2a / (1 + a^2)] and [(1 - a^2) / (1 + a^2)]: they are exact on the
  rationals, agree with the real functions at 0 and satisfy the identities
  of a rotation.  [hypot] is the larger of the two magnitudes plus half the
  smaller one, and the random source is constant.  Nothing proved for every
  platform depends on it. *)
#[local] Instance platform : Platform := {|
  Math_sin := fun a => 2 * a / (1 + a * a);
  Math_cos := fun a => (1 - a * a) / (1 + a * a);
  Math_atan2 := fun b a => if Qeq_bool a 0 then 0 else b / a;
  Math_hypot := fun a b => Qmax (Qabs a) (Qabs b) + Qmin (Qabs a) (Qabs b) / 2;
  Math_PI := 355 / 113;
  Math_random := fun _ => 0.5;
  measureTextWidth := fun f s => inject_Z (Z.of_nat (String.length s)) * JS.orNum (font_size f) 10 * 0.6;
  hasRoundRect := true
|}.

Definition blankItem (i : string) (ty : ItemType) : CanvasItem :=
  mkItem i ty 0 0 100 40 1 None 1 None None None None None None None None None None
    None None None None None None None.

(** A text item whose background box was switched off again: the toggle
  of the editor clears [backgroundColor] and leaves [backgroundPadding]
  at 10. *)
Definition plainText : CanvasItem :=
  mkItem "title" TText 0 0 100 40 1 None 1000 None None None None None
    (Some "Hi"%string) (Some "sans-serif"%string) (Some 60) (Some "#334155"%string)
    (Some "#ffffff"%string) (Some 0) None (Some 0.7) (Some 10) (Some 4)
    (Some NONE) None.

(** The same text with the background box switched on. *)
Definition boxedText : CanvasItem :=
  mkItem "title" TText 0 0 100 40 1 None 1000 None None None None None
    (Some "Hi"%string) (Some "sans-serif"%string) (Some 60) (Some "#334155"%string)
    (Some "#ffffff"%string) (Some 0) (Some "#000000"%string) (Some 0.7) (Some 10) (Some 4)
    (Some NONE) None.

(** A recording-frame sticker as [addEffectItem] creates it. *)
Definition recSticker : CanvasItem :=
  mkItem "effect-1" TEffect 380 260 200 200 1 (Some 0) 11 None None None None None
    None None None None None None None None None None (Some REC_FRAME) None.

Definition photo (i : string) : UploadedMedia :=
  mkMedia i MImage (Some (i ++ ".jpg")%string) None None None None None None None.

Definition clip (i : string) (seconds : Q) : UploadedMedia :=
  mkMedia i MVideo (Some (i ++ ".mp4")%string) None (Some seconds) (Some true)
    None None None None.





(** A stored sticker whose source no longer loads, as [loadCollage]
  rehydrates it. *)
Definition storedSticker : CanvasItem :=
  mkItem "sticker-1" TImage 10 10 100 100 1 None 20 (Some "blob:gone"%string) None None
    (Some 1) (Some true) None None None None None None None None None None None None.

Definition brokenSticker : CanvasItem :=
  Collage.hydrateItem (fun _ => None) (fun _ => None) storedSticker.


Definition settings : VideoSettings := mkSettings 3 1 1280 720.

(** Photos of 5 seconds, for the timeline of a photo followed by a clip. *)
Definition settings5 : VideoSettings := mkSettings 5 1 1280 720.

Definition photoThenClip : list UploadedMedia := [photo "intro"; clip "clip" 5].

(** Decoded tracks: one of zero length, one that failed to decode, one of
  two seconds. *)
Definition tracks : list (option Preview.AudioBuffer) :=
  [Some (Preview.mkBuffer 0); None; Some (Preview.mkBuffer 2)].

Definition env : Preview.FrameEnv :=
  Preview.mkEnv 1280 720 EDITING false None None (fun _ => None).

(** An editor with the boxed title above a recording-frame sticker and
  nothing selected. *)
Definition editor : Collage.EditorState :=
  Collage.mkEditor [boxedText; recSticker] None false Collage.MODE_NONE (mkPoint 0 0) None.

(** A selected photo slide that carries the recording-frame sticker as an
  overlay, and the preview that edits it. *)
Definition decorated : UploadedMedia :=
  mkMedia "s" MImage (Some "s.jpg"%string) None None None None None
    (Some [recSticker]) (Some FADE).

Definition editingEnv : Preview.FrameEnv :=
  Preview.mkEnv 1280 720 EDITING false (Some "s"%string) None (fun _ => None).

End Sample.

(* ------------------------------------------------------------------ *)
(** * Properties *)

(** ** Comparisons and clamps *)

Lemma leb_true (a b : Q) : a <= b -> JS.leb a b = true.
Proof. intro Hab. unfold JS.leb. now apply Qle_bool_iff. Qed.

Lemma leb_false (a b : Q) : b < a -> JS.leb a b = false.
Proof.
  intro Hba. unfold JS.leb. destruct (Qle_bool a b) eqn:E; [|reflexivity].
  apply Qle_bool_iff in E. lra.
Qed.

Lemma ltb_true (a b : Q) : a < b -> JS.ltb a b = true.
Proof. intro Hab. unfold JS.ltb. fold (JS.leb b a). now rewrite (leb_false b a Hab). Qed.

Lemma ltb_false (a b : Q) : b <= a -> JS.ltb a b = false.
Proof. intro Hba. unfold JS.ltb. fold (JS.leb b a). now rewrite (leb_true b a Hba). Qed.

Lemma ltb_spec (a b : Q) : JS.ltb a b = true <-> a < b.
Proof.
  split; [|apply ltb_true].
  intro E. destruct (Qlt_le_dec a b) as [Hlt|Hle]; [exact Hlt|].
  rewrite (ltb_false _ _ Hle) in E. discriminate.
Qed.

Lemma leb_spec (a b : Q) : JS.leb a b = true <-> a <= b.
Proof. apply Qle_bool_iff. Qed.

Lemma max_ge_l (a b : Q) : a <= JS.max a b.
Proof. apply Q.le_max_l. Qed.

Lemma max_ge_r (a b : Q) : b <= JS.max a b.
Proof. apply Q.le_max_r. Qed.

Lemma min_le_l (a b : Q) : JS.min a b <= a.
Proof. apply Q.le_min_l. Qed.

Lemma min_le_r (a b : Q) : JS.min a b <= b.
Proof. apply Q.le_min_r. Qed.

Lemma max_eq_l (a b : Q) : b <= a -> JS.max a b == a.
Proof. apply Q.max_l. Qed.

Lemma max_eq_r (a b : Q) : a <= b -> JS.max a b == b.
Proof. apply Q.max_r. Qed.

Lemma min_eq_l (a b : Q) : a <= b -> JS.min a b == a.
Proof. apply Q.min_l. Qed.

Lemma min_eq_r (a b : Q) : b <= a -> JS.min a b == b.
Proof. apply Q.min_r. Qed.

(** [Math.max(0, Math.min(1, x))] lies in the unit interval. *)
Lemma clamp01 (v : Q) : 0 <= JS.max 0 (JS.min 1 v) /\ JS.max 0 (JS.min 1 v) <= 1.
Proof.
  split; [apply max_ge_l|].
  apply Q.max_lub; [lra|apply min_le_l].
Qed.

(** ** The clock of the timeline *)

Section ThreeSlides.
Import Types Preview.

Variable settings : VideoSettings.
Variables a b c : UploadedMedia.
Hypothesis Ha : slideSeconds settings a * 1000 == 3000.
Hypothesis Hb : slideSeconds settings b * 1000 == 3000.
Hypothesis Hc : slideSeconds settings c * 1000 == 3000.
Hypothesis Htrans : transitionDuration settings * 1000 == 1000.

Lemma three_at_2500 :
  findSlide settings [a; b; c] 2500
  = mkSlideAt 0 (slideSeconds settings a * 1000) 0.
Proof.
  unfold findSlide. cbn [findSlideFrom].
  rewrite leb_true by lra. rewrite ltb_true by lra. reflexivity.
Qed.

Lemma three_at_3500 :
  findSlide settings [a; b; c] 3500
  = mkSlideAt 1 (slideSeconds settings b * 1000) (0 + slideSeconds settings a * 1000).
Proof.
  unfold findSlide. cbn [findSlideFrom].
  rewrite leb_true by lra. rewrite ltb_false by lra. cbn [andb].
  rewrite leb_true by lra. rewrite ltb_true by lra. reflexivity.
Qed.

Lemma three_transitionStart (s : SlideAt) :
  slideDuration s == 3000 -> transitionStart settings s == 2000.
Proof.
  intro Hd. unfold transitionStart, effectiveTransitionDuration.
  pose proof (min_eq_l (transitionDuration settings * 1000) (slideDuration s)) as Hmin.
  assert (Hle : transitionDuration settings * 1000 <= slideDuration s) by lra.
  specialize (Hmin Hle).
  rewrite max_eq_r; lra.
Qed.

End ThreeSlides.

(** C2.  Three slides of 3000 ms each and a transition of 1000 ms: the
  search for the slide of a clock value gives, at 2500, slide 0 with local
  time 2500, which is past the start of the transition window (2000), so
  the frame is drawn by the transition phase; at 3500 it gives slide 1
  with local time 500, before the window, so the slide is drawn alone. *)
Theorem C2_clock_lookup :
  forall (env : Preview.FrameEnv) (settings : Types.VideoSettings)
         (a b c : Types.UploadedMedia),
    Preview.slideSeconds settings a * 1000 == 3000 ->
    Preview.slideSeconds settings b * 1000 == 3000 ->
    Preview.slideSeconds settings c * 1000 == 3000 ->
    Types.transitionDuration settings * 1000 == 1000 ->
    (Preview.slideIndex (Preview.findSlide settings [a; b; c] 2500) = 0%nat
     /\ Preview.timeInSlide (Preview.findSlide settings [a; b; c] 2500) 2500 == 2500
     /\ Preview.transitionStart settings (Preview.findSlide settings [a; b; c] 2500) == 2000
     /\ Preview.drawsAlone env settings 3
          (Preview.findSlide settings [a; b; c] 2500) 2500 = false)
    /\
    (Preview.slideIndex (Preview.findSlide settings [a; b; c] 3500) = 1%nat
     /\ Preview.timeInSlide (Preview.findSlide settings [a; b; c] 3500) 3500 == 500
     /\ Preview.transitionStart settings (Preview.findSlide settings [a; b; c] 3500) == 2000
     /\ Preview.drawsAlone env settings 3
          (Preview.findSlide settings [a; b; c] 3500) 3500 = true).
Proof.
  intros env settings a b c Ha Hb Hc Ht.
  rewrite (three_at_2500 settings a b c Ha).
  rewrite (three_at_3500 settings a b c Ha Hb).
  assert (S0 : Preview.transitionStart settings
                 (Preview.mkSlideAt 0 (Preview.slideSeconds settings a * 1000) 0) == 2000)
    by (apply three_transitionStart; [exact Ht | exact Ha]).
  assert (S1 : Preview.transitionStart settings
                 (Preview.mkSlideAt 1 (Preview.slideSeconds settings b * 1000)
                    (0 + Preview.slideSeconds settings a * 1000)) == 2000)
    by (apply three_transitionStart; [exact Ht | exact Hb]).
  split; (split; [reflexivity|]); (split; [unfold Preview.timeInSlide; cbn; lra|]);
    (split; [assumption|]).
  - unfold Preview.drawsAlone. cbn [Preview.slideIndex Nat.eqb Nat.sub].
    rewrite andb_false_r. cbn [orb].
    apply ltb_false. unfold Preview.timeInSlide. cbn [Preview.currentSlideStart]. lra.
  - unfold Preview.drawsAlone.
    rewrite (ltb_true (Preview.timeInSlide _ _)).
    + now rewrite orb_true_r.
    + unfold Preview.timeInSlide. cbn [Preview.currentSlideStart]. lra.
Qed.

Lemma C2_clock_lookup_witness :
  (Preview.slideIndex
     (Preview.findSlide Sample.settings
        [Sample.photo "a"; Sample.photo "b"; Sample.photo "c"] 2500) = 0%nat
   /\ Preview.timeInSlide
        (Preview.findSlide Sample.settings
           [Sample.photo "a"; Sample.photo "b"; Sample.photo "c"] 2500) 2500 == 2500
   /\ Preview.transitionStart Sample.settings
        (Preview.findSlide Sample.settings
           [Sample.photo "a"; Sample.photo "b"; Sample.photo "c"] 2500) == 2000
   /\ Preview.drawsAlone Sample.env Sample.settings 3
        (Preview.findSlide Sample.settings
           [Sample.photo "a"; Sample.photo "b"; Sample.photo "c"] 2500) 2500 = false)
  /\
  (Preview.slideIndex
     (Preview.findSlide Sample.settings
        [Sample.photo "a"; Sample.photo "b"; Sample.photo "c"] 3500) = 1%nat
   /\ Preview.timeInSlide
        (Preview.findSlide Sample.settings
           [Sample.photo "a"; Sample.photo "b"; Sample.photo "c"] 3500) 3500 == 500
   /\ Preview.transitionStart Sample.settings
        (Preview.findSlide Sample.settings
           [Sample.photo "a"; Sample.photo "b"; Sample.photo "c"] 3500) == 2000
   /\ Preview.drawsAlone Sample.env Sample.settings 3
        (Preview.findSlide Sample.settings
           [Sample.photo "a"; Sample.photo "b"; Sample.photo "c"] 3500) 3500 = true).
Proof.
  apply (C2_clock_lookup Sample.env Sample.settings
           (Sample.photo "a") (Sample.photo "b") (Sample.photo "c"));
    reflexivity.
Defined.

(** ** A clock value inside the show *)

Lemma fold_total (settings : Types.VideoSettings) (l : list Types.UploadedMedia) (acc : Q) :
  fold_left (fun a item => a + Preview.slideSeconds settings item * 1000) l acc
  == acc + Preview.sumMs settings l.
Proof.
  revert acc. induction l as [|m l IH]; intro acc; cbn [fold_left Preview.sumMs].
  - ring.
  - rewrite IH. ring.
Qed.

Lemma total_is_sum (settings : Types.VideoSettings) (l : list Types.UploadedMedia) :
  Preview.calculateTotalDuration settings l == Preview.sumMs settings l.
Proof. unfold Preview.calculateTotalDuration. rewrite fold_total. ring. Qed.

Lemma findSlideFrom_found (settings : Types.VideoSettings) (t : Q)
  (rest : list Types.UploadedMedia) :
  forall (i : nat) (start : Q),
    start <= t -> t < start + Preview.sumMs settings rest ->
    exists (j : nat) (m : Types.UploadedMedia),
      nth_error rest j = Some m
      /\ Preview.findSlideFrom settings t rest i start
         = Preview.mkSlideAt (i + j) (Preview.slideSeconds settings m * 1000)
             (Preview.currentSlideStart (Preview.findSlideFrom settings t rest i start))
      /\ Preview.currentSlideStart (Preview.findSlideFrom settings t rest i start)
         == start + Preview.sumMs settings (firstn j rest)
      /\ Preview.currentSlideStart (Preview.findSlideFrom settings t rest i start) <= t
      /\ t < Preview.currentSlideStart (Preview.findSlideFrom settings t rest i start)
             + Preview.slideSeconds settings m * 1000.
Proof.
  induction rest as [|m rest IH]; intros i start Hlo Hhi.
  - cbn [Preview.sumMs] in Hhi. lra.
  - cbn [Preview.findSlideFrom]. rewrite (leb_true _ _ Hlo). cbn [andb].
    destruct (JS.ltb t (start + Preview.slideSeconds settings m * 1000)) eqn:Ein.
    + apply ltb_spec in Ein. exists 0%nat, m.
      cbn [nth_error firstn Preview.sumMs Preview.currentSlideStart].
      rewrite Nat.add_0_r. repeat split; try assumption. ring.
    + assert (Hge : start + Preview.slideSeconds settings m * 1000 <= t).
      { destruct (Qlt_le_dec t (start + Preview.slideSeconds settings m * 1000)) as [Hlt|Hge];
          [|exact Hge].
        apply ltb_true in Hlt. congruence. }
      cbn [Preview.sumMs] in Hhi.
      destruct (IH (S i) (start + Preview.slideSeconds settings m * 1000) Hge
                  ltac:(lra)) as [j [m' [Hnth [Heq [Hstart [Hle Hlt]]]]]].
      exists (S j), m'. cbn [nth_error firstn Preview.sumMs].
      repeat split; try assumption.
      * rewrite Heq at 1. f_equal. lia.
      * rewrite Hstart. ring.
Qed.

(** The slide that the search returns for a time inside the show. *)
Lemma findSlide_located :
  forall (settings : Types.VideoSettings) (mediaList : list Types.UploadedMedia) (t : Q),
    0 <= t ->
    t < Preview.calculateTotalDuration settings mediaList ->
    exists m : Types.UploadedMedia,
      nth_error mediaList (Preview.slideIndex (Preview.findSlide settings mediaList t))
      = Some m
      /\ Preview.slideDuration (Preview.findSlide settings mediaList t)
         = Preview.slideSeconds settings m * 1000
      /\ Preview.currentSlideStart (Preview.findSlide settings mediaList t)
         == Preview.sumMs settings
              (firstn (Preview.slideIndex (Preview.findSlide settings mediaList t)) mediaList)
      /\ 0 <= Preview.timeInSlide (Preview.findSlide settings mediaList t) t
      /\ Preview.timeInSlide (Preview.findSlide settings mediaList t) t
         < Preview.slideDuration (Preview.findSlide settings mediaList t).
Proof.
  intros settings mediaList t Hlo Hhi.
  rewrite total_is_sum in Hhi.
  destruct (findSlideFrom_found settings t mediaList 0 0 Hlo ltac:(lra))
    as [j [m [Hnth [Heq [Hstart [Hle Hlt]]]]]].
  unfold Preview.findSlide, Preview.timeInSlide.
  pose proof (f_equal Preview.slideIndex Heq) as Hidx.
  pose proof (f_equal Preview.slideDuration Heq) as Hdur.
  cbn [Preview.slideIndex Preview.slideDuration Nat.add] in Hidx, Hdur.
  exists m. rewrite Hidx, Hdur.
  repeat split; try assumption.
  - rewrite Hstart. ring.
  - lra.
  - lra.
Qed.

(** ** Transitions *)

Lemma quotient_finite (a b : Q) : ~ b == 0 -> Preview.quotient a b = Preview.Finite (a / b).
Proof.
  intro Hb. unfold Preview.quotient.
  destruct (Qeq_bool b 0) eqn:E; [|reflexivity].
  apply Qeq_bool_iff in E. contradiction.
Qed.

Lemma transitionProgress_unit (settings : Types.VideoSettings) (s : Preview.SlideAt)
  (t p : Q) :
  Preview.transitionProgress settings s t = Some p -> 0 <= p /\ p <= 1.
Proof.
  unfold Preview.transitionProgress.
  destruct (Preview.quotient _ _) as [q| | |]; intro Hp; try discriminate;
    injection Hp as <-.
  - apply clamp01.
  - lra.
  - lra.
Qed.

(** The pipeline at a clock value inside the show: the two quotients have
  divisors above 0. *)
Lemma pipelineCalls_located (env : Preview.FrameEnv) (settings : Types.VideoSettings)
  (mediaList : list Types.UploadedMedia) (current : Types.UploadedMedia) (t : Q) :
  0 <= t ->
  t < Preview.calculateTotalDuration settings mediaList ->
  Preview.pipelineCalls env settings mediaList current
    (Preview.findSlide settings mediaList t) t
  = Some (if Preview.drawsAlone env settings (List.length mediaList)
               (Preview.findSlide settings mediaList t) t
          then [ Preview.mkCall Preview.Current 1
                   (Preview.getZoomScale (Preview.transitionOf current)
                      (Preview.timeInSlide (Preview.findSlide settings mediaList t) t
                       / Preview.slideDuration (Preview.findSlide settings mediaList t)))
                   0 0 ]
          else Preview.transitionCalls (Preview.transitionOf current)
                 (JS.max 0
                    (JS.min 1
                       ((Preview.timeInSlide (Preview.findSlide settings mediaList t) t
                         - Preview.transitionStart settings
                             (Preview.findSlide settings mediaList t))
                        / Preview.effectiveTransitionDuration settings
                            (Preview.findSlide settings mediaList t))))
                 (Preview.getZoomScale (Preview.transitionOf current)
                    (Preview.timeInSlide (Preview.findSlide settings mediaList t) t
                     / Preview.slideDuration (Preview.findSlide settings mediaList t)))
                 (Preview.canvas_width env) (Preview.canvas_height env)).
Proof.
  intros Hlo Hhi.
  destruct (findSlide_located settings mediaList t Hlo Hhi)
    as (m & _ & _ & _ & H0 & H1).
  set (s := Preview.findSlide settings mediaList t) in *.
  assert (Hd : ~ Preview.slideDuration s == 0) by lra.
  unfold Preview.pipelineCalls.
  rewrite (quotient_finite _ _ Hd). cbn [Preview.zoomScaleOf].
  destruct (Preview.drawsAlone env settings (List.length mediaList) s t) eqn:Ephase.
  - reflexivity.
  - unfold Preview.drawsAlone in Ephase.
    apply orb_false_iff in Ephase. destruct Ephase as [_ Ephase].
    assert (Hge : Preview.transitionStart settings s <= Preview.timeInSlide s t).
    { destruct (Qlt_le_dec (Preview.timeInSlide s t) (Preview.transitionStart settings s))
        as [Hlt|Hge]; [|exact Hge].
      apply ltb_true in Hlt. congruence. }
    unfold Preview.transitionStart in Hge.
    pose proof (max_ge_r 0 (Preview.slideDuration s
                            - Preview.effectiveTransitionDuration settings s)).
    unfold Preview.transitionProgress.
    rewrite quotient_finite by lra. reflexivity.
Qed.

(** A frame at a clock value inside the show: the search has found the
  current slide, the two quotients of the pipeline have divisors above 0,
  and the frame is the cleared canvas, the [renderMedia] calls of the
  pipeline and the overlays of the current slide. *)
Lemma frame_located (P : Platform) (env : Preview.FrameEnv)
  (settings : Types.VideoSettings) (imagesRef : list (option Preview.MediaElement))
  (mediaList : list Types.UploadedMedia) (t : Q) :
  imagesRef <> [] ->
  0 <= t ->
  t < Preview.calculateTotalDuration settings mediaList ->
  exists current : Types.UploadedMedia,
    nth_error mediaList (Preview.slideIndex (Preview.findSlide settings mediaList t))
    = Some current
    /\ 0 <= Preview.timeInSlide (Preview.findSlide settings mediaList t) t
    /\ Preview.timeInSlide (Preview.findSlide settings mediaList t) t
       < Preview.slideDuration (Preview.findSlide settings mediaList t)
    /\ (Preview.drawsAlone env settings (List.length mediaList)
          (Preview.findSlide settings mediaList t) t = false ->
        0 < Preview.effectiveTransitionDuration settings
              (Preview.findSlide settings mediaList t))
    /\ Preview.drawFrameAt env settings imagesRef mediaList t
       = Preview.Drawn
           ([ Canvas.set_fillStyle (Canvas.Color "#000");
              Canvas.ctx_fillRect 0 0 (Preview.canvas_width env) (Preview.canvas_height env) ]
            ++ flat_map
                 (Preview.renderCall env imagesRef mediaList
                    (Preview.findSlide settings mediaList t) (Types.m_id current)
                    (Preview.timeInSlide (Preview.findSlide settings mediaList t) t / 1000))
                 (if Preview.drawsAlone env settings (List.length mediaList)
                       (Preview.findSlide settings mediaList t) t
                  then [ Preview.mkCall Preview.Current 1
                           (Preview.getZoomScale (Preview.transitionOf current)
                              (Preview.timeInSlide (Preview.findSlide settings mediaList t) t
                               / Preview.slideDuration
                                   (Preview.findSlide settings mediaList t)))
                           0 0 ]
                  else Preview.transitionCalls (Preview.transitionOf current)
                         (JS.max 0
                            (JS.min 1
                               ((Preview.timeInSlide
                                   (Preview.findSlide settings mediaList t) t
                                 - Preview.transitionStart settings
                                     (Preview.findSlide settings mediaList t))
                                / Preview.effectiveTransitionDuration settings
                                    (Preview.findSlide settings mediaList t))))
                         (Preview.getZoomScale (Preview.transitionOf current)
                            (Preview.timeInSlide (Preview.findSlide settings mediaList t) t
                             / Preview.slideDuration
                                 (Preview.findSlide settings mediaList t)))
                         (Preview.canvas_width env) (Preview.canvas_height env))
            ++ Preview.drawOverlays env current
                 (Preview.timeInSlide (Preview.findSlide settings mediaList t) t / 1000)).
Proof.
  intros Hi Hlo Hhi.
  destruct (findSlide_located settings mediaList t Hlo Hhi)
    as (current & Hnth & _ & _ & H0 & H1).
  set (s := Preview.findSlide settings mediaList t) in *.
  assert (Hd : ~ Preview.slideDuration s == 0) by lra.
  assert (He : Preview.drawsAlone env settings (List.length mediaList) s t = false ->
               0 < Preview.effectiveTransitionDuration settings s).
  { unfold Preview.drawsAlone. intro Hphase.
    apply orb_false_iff in Hphase. destruct Hphase as [_ Hphase].
    assert (Hge : Preview.transitionStart settings s <= Preview.timeInSlide s t).
    { destruct (Qlt_le_dec (Preview.timeInSlide s t) (Preview.transitionStart settings s))
        as [Hlt|Hge]; [|exact Hge].
      apply ltb_true in Hlt. congruence. }
    unfold Preview.transitionStart in Hge.
    pose proof (max_ge_r 0 (Preview.slideDuration s
                            - Preview.effectiveTransitionDuration settings s)).
    lra. }
  exists current. split; [exact Hnth|]. split; [exact H0|]. split; [exact H1|].
  split; [exact He|].
  unfold Preview.drawFrameAt. destruct imagesRef as [|el imagesRef]; [contradiction|].
  fold s. rewrite Hnth. unfold Preview.pipelineCalls.
  rewrite (quotient_finite _ _ Hd). cbn [Preview.zoomScaleOf].
  destruct (Preview.drawsAlone env settings (List.length mediaList) s t) eqn:Ephase.
  - reflexivity.
  - specialize (He eq_refl). unfold Preview.transitionProgress.
    rewrite quotient_finite by lra. reflexivity.
Qed.







(** ** Floors of the resize interactions *)

Lemma Forall2_map_r {A : Type} (R : A -> A -> Prop) (f : A -> A) (l : list A) :
  (forall a, R a (f a)) -> Forall2 R l (map f l).
Proof. intro Hf. induction l as [|a l IH]; constructor; auto. Qed.

Lemma Forall2_diag {A : Type} (R : A -> A -> Prop) (l : list A) :
  (forall a, R a a) -> Forall2 R l l.
Proof. intro Hr. induction l; constructor; auto. Qed.

Lemma replaceAt_changes_one (good : Types.CanvasItem -> Prop) (newItem : Types.CanvasItem)
  (effects : list Types.CanvasItem) (idx : nat) :
  good newItem ->
  Forall2 (fun before after => after = before \/ good after)
    effects (Preview.replaceAt idx newItem effects).
Proof.
  intro Hgood. revert idx.
  induction effects as [|e effects IH]; intro idx.
  - destruct idx; constructor.
  - destruct idx as [|idx]; cbn [Preview.replaceAt].
    + constructor; [right; exact Hgood|].
      apply Forall2_diag. intro a. left. reflexivity.
    + constructor; [left; reflexivity|apply IH].
Qed.

(** C4.  Whatever the pointer delta (the pointer position, against any
  drag start), the scale that a resize gives to an item is at least 0.1,
  in the collage editor and on the effect overlays of the timeline, and
  the width and the height that a crop-resize gives are at least 50.  At
  the level of the handlers: after a pointer move in RESIZE mode every
  item of the list is as before or has a scale of at least 0.1, and after
  one in CROP_BR mode every item is as before or is at least 50 wide and
  50 high. *)
Theorem C4_resize_and_crop_floors :
  forall (P : Platform) (pos : Types.Point),
    (forall (snap : Collage.Snapshot) (item : Types.CanvasItem) (dx dy : Q),
        0.1 <= Types.scale (Collage.moveItem Collage.RESIZE snap pos dx dy item)
        /\ 50 <= Types.width (Collage.moveItem Collage.CROP_BR snap pos dx dy item)
        /\ 50 <= Types.height (Collage.moveItem Collage.CROP_BR snap pos dx dy item))
    /\ (forall (snap : Preview.OverlaySnapshot) (dx dy : Q),
           0.1 <= Types.scale (Preview.moveEffect Preview.OV_RESIZE snap pos dx dy))
    /\ (forall st : Collage.EditorState,
           Collage.interactionMode st = Collage.RESIZE ->
           Forall2 (fun before after => after = before \/ 0.1 <= Types.scale after)
             (Collage.canvasItems st)
             (Collage.canvasItems (Collage.handleMouseMove st pos)))
    /\ (forall st : Collage.EditorState,
           Collage.interactionMode st = Collage.CROP_BR ->
           Forall2
             (fun before after =>
                after = before \/ (50 <= Types.width after /\ 50 <= Types.height after))
             (Collage.canvasItems st)
             (Collage.canvasItems (Collage.handleMouseMove st pos)))
    /\ (forall (env : Preview.FrameEnv) (mediaList : list Types.UploadedMedia)
               (currentMediaIndex : nat) (ps : Preview.PointerState)
               (mid : string) (effects' : list Types.CanvasItem),
           Preview.interactionMode ps = Preview.OV_RESIZE ->
           Preview.handleMouseMove env true mediaList currentMediaIndex ps pos
           = Some (mid, Preview.overlayEffects effects') ->
           exists effects,
             Forall2 (fun before after => after = before \/ 0.1 <= Types.scale after)
               effects effects').
Proof.
  intros P pos. split; [|split; [|split; [|split]]].
  - intros snap item dx dy. cbn. repeat split; apply max_ge_l.
  - intros snap dx dy. cbn. apply max_ge_l.
  - intros st Hmode. unfold Collage.handleMouseMove. rewrite Hmode.
    destruct (JS.truthyStr (Collage.selectedItemId st));
      destruct (Collage.initialItemState st) as [snap|];
      cbn [Collage.canvasItems];
      try (apply Forall2_diag; intro a; left; reflexivity).
    apply Forall2_map_r. intro a.
    destruct (Collage.isSelected (Collage.selectedItemId st) a); [right|left; reflexivity].
    cbn. apply max_ge_l.
  - intros st Hmode. unfold Collage.handleMouseMove. rewrite Hmode.
    destruct (JS.truthyStr (Collage.selectedItemId st));
      destruct (Collage.initialItemState st) as [snap|];
      cbn [Collage.canvasItems];
      try (apply Forall2_diag; intro a; left; reflexivity).
    apply Forall2_map_r. intro a.
    destruct (Collage.isSelected (Collage.selectedItemId st) a); [right|left; reflexivity].
    cbn. split; apply max_ge_l.
  - intros env mediaList idx ps mid effects' Hmode Hmove.
    unfold Preview.handleMouseMove in Hmove. rewrite Hmode in Hmove.
    destruct (Preview.selectedOverlayId env) as [oid|]; [|discriminate].
    destruct (Preview.initialOverlayState ps) as [snap|]; [|discriminate].
    destruct (negb (JS.truthyStr (Some oid)) || negb true); [discriminate|].
    destruct (nth_error mediaList idx) as [currentMedia|]; [|discriminate].
    destruct (Preview.selectedMediaId env) as [sm|]; [|discriminate].
    destruct (String.eqb (Types.m_id currentMedia) sm); [|discriminate].
    destruct (String.eqb oid "text").
    + cbn in Hmove. discriminate.
    + destruct (Preview.findIndexById oid _ 0) as [i|]; [|discriminate].
      injection Hmove as _ <-.
      eexists. apply replaceAt_changes_one. cbn. apply max_ge_l.
Qed.

Lemma C4_resize_and_crop_floors_witness :
  Forall2 (fun before after => after = before \/ 0.1 <= Types.scale after)
    [Sample.recSticker]
    (Collage.canvasItems
       (@Collage.handleMouseMove Sample.platform
          (Collage.mkEditor [Sample.recSticker] (Some "effect-1"%string) false
             Collage.RESIZE (Types.mkPoint 580 460)
             (Some (Collage.mkSnapshot Sample.recSticker None None)))
          (Types.mkPoint (-100000) 460)))
  /\ Forall2
       (fun before after =>
          after = before \/ (50 <= Types.width after /\ 50 <= Types.height after))
       [Sample.recSticker]
       (Collage.canvasItems
          (@Collage.handleMouseMove Sample.platform
             (Collage.mkEditor [Sample.recSticker] (Some "effect-1"%string) true
                Collage.CROP_BR (Types.mkPoint 580 460)
                (Some (Collage.mkSnapshot Sample.recSticker None None)))
             (Types.mkPoint (-100000) (-100000)))).
Proof.
  destruct (C4_resize_and_crop_floors Sample.platform (Types.mkPoint (-100000) 460))
    as [_ [_ [Hresize _]]].
  destruct (C4_resize_and_crop_floors Sample.platform (Types.mkPoint (-100000) (-100000)))
    as [_ [_ [_ [Hcrop _]]]].
  split.
  - apply (Hresize (Collage.mkEditor [Sample.recSticker] (Some "effect-1"%string) false
                      Collage.RESIZE (Types.mkPoint 580 460)
                      (Some (Collage.mkSnapshot Sample.recSticker None None)))).
    reflexivity.
  - apply (Hcrop (Collage.mkEditor [Sample.recSticker] (Some "effect-1"%string) true
                    Collage.CROP_BR (Types.mkPoint 580 460)
                    (Some (Collage.mkSnapshot Sample.recSticker None None)))).
    reflexivity.
Defined.

(** ** Frame of the pointer-move handler *)

Lemma moveItem_frame (P : Platform) (mode : Collage.InteractionMode)
  (snap : Collage.Snapshot) (pos : Types.Point) (dx dy : Q) (item : Types.CanvasItem) :
  Collage.outsideFields mode (Collage.moveItem mode snap pos dx dy item) = Collage.outsideFields mode item.
Proof. destruct mode; reflexivity. Qed.

(** C10.  A pointer move of the collage editor keeps the selection, the
  crop flag, the mode and the drag-start data, and maps the item list
  position by position: an item that is not the selected one is unchanged,
  and the selected item is unchanged outside the fields of the mode: x and
  y for MOVE, rotation for ROTATE, scale for RESIZE, imgOffset for
  CROP_PAN, and width, height and imgOffset for CROP_BR. *)
Theorem C10_pointer_move_frame :
  forall (P : Platform) (st : Collage.EditorState) (pos : Types.Point),
    Forall2
      (fun before after =>
         if Collage.isSelected (Collage.selectedItemId st) before
         then Collage.outsideFields (Collage.interactionMode st) after
              = Collage.outsideFields (Collage.interactionMode st) before
         else after = before)
      (Collage.canvasItems st)
      (Collage.canvasItems (Collage.handleMouseMove st pos))
    /\ Collage.selectedItemId (Collage.handleMouseMove st pos) = Collage.selectedItemId st
    /\ Collage.isCropping (Collage.handleMouseMove st pos) = Collage.isCropping st
    /\ Collage.interactionMode (Collage.handleMouseMove st pos) = Collage.interactionMode st
    /\ Collage.dragStartPos (Collage.handleMouseMove st pos) = Collage.dragStartPos st
    /\ Collage.initialItemState (Collage.handleMouseMove st pos) = Collage.initialItemState st.
Proof.
  intros P st pos.
  assert (Hsame : Forall2
      (fun before after =>
         if Collage.isSelected (Collage.selectedItemId st) before
         then Collage.outsideFields (Collage.interactionMode st) after
              = Collage.outsideFields (Collage.interactionMode st) before
         else after = before)
      (Collage.canvasItems st) (Collage.canvasItems st)).
  { apply Forall2_diag. intro a.
    destruct (Collage.isSelected (Collage.selectedItemId st) a); reflexivity. }
  unfold Collage.handleMouseMove.
  destruct (Collage.interactionMode st) eqn:Emode;
    destruct (JS.truthyStr (Collage.selectedItemId st));
    destruct (Collage.initialItemState st) as [snap|] eqn:Einit;
    cbn [Collage.canvasItems Collage.selectedItemId Collage.isCropping
         Collage.interactionMode Collage.dragStartPos Collage.initialItemState];
    rewrite ?Emode, ?Einit;
    (split; [|repeat split; reflexivity]);
    try exact Hsame;
    try (rewrite Emode in Hsame; exact Hsame);
    apply Forall2_map_r; intro a;
    destruct (Collage.isSelected (Collage.selectedItemId st) a); try reflexivity;
    apply moveItem_frame.
Qed.

(** ** The clock of the decorations *)

Lemma rem3_nonneg (now : Z) :
  (0 <= now)%Z -> Collage.frameTime now == inject_Z (now mod 3000) / 1000.
Proof.
  intro Hnow. unfold Collage.frameTime, JS.rem, JS.trunc.
  assert (Hq : inject_Z now / 1000 / 3 == now # 3000).
  { unfold Qeq, Qdiv, Qmult, Qinv, inject_Z. cbn. lia. }
  assert (Hpos : 0 <= inject_Z now / 1000 / 3).
  { rewrite Hq. unfold Qle. cbn. lia. }
  apply Qle_bool_iff in Hpos. rewrite Hpos.
  rewrite (Qfloor_comp _ _ Hq).
  change (Qfloor (now # 3000)) with (now / 3000)%Z.
  pose proof (Z.div_mod now 3000 ltac:(lia)) as Hdm.
  assert (Hmod : (now mod 3000 = now - 3000 * (now / 3000))%Z) by lia.
  rewrite Hmod. unfold Z.sub. rewrite inject_Z_plus, inject_Z_opp, inject_Z_mult.
  field.
Qed.

Lemma frameTime_range (now : Z) :
  (0 <= now)%Z -> 0 <= Collage.frameTime now /\ Collage.frameTime now < 3.
Proof.
  intro Hnow. rewrite (rem3_nonneg now Hnow).
  pose proof (Z.mod_pos_bound now 3000 ltac:(lia)) as [Hlo Hhi].
  split.
  - apply Qle_shift_div_l; [reflexivity|].
    rewrite Qmult_0_l. change 0 with (inject_Z 0). now rewrite <- Zle_Qle.
  - apply Qlt_shift_div_r; [reflexivity|].
    change (3 * 1000) with (inject_Z 3000). now rewrite <- Zlt_Qlt.
Qed.

Lemma frameTime_period (now : Z) :
  (0 <= now)%Z -> Collage.frameTime (now + 3000) == Collage.frameTime now.
Proof.
  intro Hnow.
  rewrite (rem3_nonneg now Hnow), (rem3_nonneg (now + 3000)) by lia.
  replace ((now + 3000) mod 3000)%Z with (now mod 3000)%Z; [reflexivity|].
  rewrite <- (Z.mod_add now 1 3000) by lia. reflexivity.
Qed.

(** The stable sort keeps the elements of the list. *)
Lemma insertAsc_in {A : Type} (key : A -> Q) (x a : A) (l : list A) :
  In a (JS.insertAsc key x l) <-> a = x \/ In a l.
Proof.
  induction l as [|y ys IH]; cbn [JS.insertAsc In].
  - intuition.
  - destruct (JS.ltb (key x) (key y)); cbn [In]; [intuition|].
    rewrite IH. intuition.
Qed.

Lemma sortAsc_in {A : Type} (key : A -> Q) (a : A) (l : list A) :
  In a (JS.sortAsc key l) <-> In a l.
Proof.
  unfold JS.sortAsc.
  assert (Hgen : forall acc, In a (fold_left (fun acc x => JS.insertAsc key x acc) l acc)
                             <-> In a l \/ In a acc).
  { induction l as [|x l IH]; intro acc; cbn [fold_left In].
    - intuition.
    - rewrite IH, insertAsc_in. intuition. }
  rewrite Hgen. cbn [In]. intuition.
Qed.

(** *** The editor: the frame runs the effect switch at its clock *)

Lemma effect_never_throws (item : Types.CanvasItem) :
  Types.type item = Types.TEffect -> Collage.drawImageThrows item = false.
Proof. intro Hty. unfold Collage.drawImageThrows. rewrite Hty. reflexivity. Qed.

Lemma drawItem_effect_segment (P : Platform) (sel : option string) (cropping : bool)
  (t : Q) (k : nat) (item : Types.CanvasItem) :
  Types.type item = Types.TEffect ->
  exists pre post,
    fst (fst (Collage.drawItem sel cropping t k item))
    = pre ++ fst (Collage.effectBranch (Types.width item) (Types.height item) t
                    (Types.animationType item) k) ++ post.
Proof.
  intro Hty. unfold Collage.drawItem. rewrite Hty.
  destruct (Collage.effectBranch (Types.width item) (Types.height item) t
              (Types.animationType item) k) as [ops k'] eqn:E.
  cbn [fst snd].
  exists ([Canvas.ctx_save] ++ Collage.drawTransform item). eexists.
  rewrite <- !app_assoc. reflexivity.
Qed.

Lemma drawItems_effect_segment (P : Platform) (sel : option string) (cropping : bool)
  (t : Q) (e : Types.CanvasItem) :
  Types.type e = Types.TEffect ->
  forall (sorted : list Types.CanvasItem) (k : nat),
    Forall (fun i => Collage.drawImageThrows i = false) sorted ->
    In e sorted ->
    exists ops drawn pre post k',
      Collage.drawItems sel cropping t k sorted = Collage.Completed ops drawn
      /\ ops = pre ++ fst (Collage.effectBranch (Types.width e) (Types.height e) t
                             (Types.animationType e) k') ++ post.
Proof.
  intro Hty.
  assert (Hdone : forall (sorted : list Types.CanvasItem) (k : nat),
             Forall (fun i => Collage.drawImageThrows i = false) sorted ->
             exists ops drawn,
               Collage.drawItems sel cropping t k sorted = Collage.Completed ops drawn).
  { induction sorted as [|item sorted IH]; intros k Hall; cbn [Collage.drawItems].
    - eauto.
    - inversion Hall as [|? ? Hitem Hrest]; subst.
      destruct (Collage.drawItem sel cropping t k item) as [[ops item'] k'].
      rewrite Hitem. destruct (IH k' Hrest) as (ops' & drawn' & ->). eauto. }
  induction sorted as [|item sorted IH]; intros k Hall Hin; [contradiction|].
  inversion Hall as [|? ? Hitem Hrest]; subst.
  cbn [Collage.drawItems].
  destruct (Collage.drawItem sel cropping t k item) as [[ops item'] k'] eqn:Eitem.
  rewrite Hitem.
  destruct Hin as [->|Hin].
  - destruct (Hdone sorted k' Hrest) as (ops' & drawn' & ->).
    destruct (drawItem_effect_segment P sel cropping t k e Hty) as (pre & post & Hseg).
    rewrite Eitem in Hseg. cbn [fst] in Hseg.
    exists (ops ++ ops'), (item' :: drawn'), pre, (post ++ ops'), k.
    split; [reflexivity|]. rewrite Hseg, <- !app_assoc. reflexivity.
  - destruct (IH k' Hrest Hin) as (ops' & drawn' & pre & post & k'' & -> & ->).
    exists (ops ++ pre ++ fst (Collage.effectBranch (Types.width e) (Types.height e) t
                                 (Types.animationType e) k'') ++ post),
      (item' :: drawn'), (ops ++ pre), post, k''.
    split; [reflexivity|]. rewrite <- !app_assoc. reflexivity.
Qed.

(** *** The timeline: a frame runs [drawEffect] at the slide-local time *)

Lemma drawOverlayEffects_segment (P : Platform) (env : Preview.FrameEnv) (cid : string)
  (timeSec : Q) (e : Types.CanvasItem) :
  forall (effects : list Types.CanvasItem) (k : nat),
    In e effects ->
    exists pre post k',
      Preview.drawOverlayEffects env cid timeSec k effects
      = pre ++ fst (Preview.drawEffect env cid e timeSec k') ++ post.
Proof.
  induction effects as [|a effects IH]; intros k Hin; [contradiction|].
  cbn [Preview.drawOverlayEffects].
  destruct (Preview.drawEffect env cid a timeSec k) as [ops k'] eqn:Ea.
  destruct Hin as [->|Hin].
  - exists [], (Preview.drawOverlayEffects env cid timeSec k' effects), k.
    rewrite Ea. reflexivity.
  - destruct (IH k' Hin) as (pre & post & k'' & ->).
    exists (ops ++ pre), post, k''. rewrite <- !app_assoc. reflexivity.
Qed.

Lemma collageItems_segment (P : Platform) (env : Preview.FrameEnv) (cid : string)
  (timeSec : Q) (e : Types.CanvasItem) :
  Types.type e = Types.TEffect ->
  forall (sorted : list Types.CanvasItem) (k : nat),
    In e sorted ->
    exists pre post k',
      Preview.collageItems env cid timeSec k sorted
      = pre ++ fst (Preview.drawEffect env cid e timeSec k') ++ post.
Proof.
  intro Hty. induction sorted as [|a sorted IH]; intros k Hin; [contradiction|].
  cbn [Preview.collageItems].
  destruct Hin as [->|Hin].
  - rewrite Hty. cbn [Types.itemType_eqb andb].
    destruct (Preview.drawEffect env cid e timeSec k) as [ops k'] eqn:Ee.
    exists [], (Preview.collageItems env cid timeSec k' sorted), k.
    rewrite Ee. reflexivity.
  - match goal with
    | |- context [let '(_, _) := ?c in _] => destruct c as [ops k']
    end.
    destruct (IH k' Hin) as (pre & post & k'' & ->).
    exists (ops ++ pre), post, k''. rewrite <- !app_assoc. reflexivity.
Qed.

(** A segment of a list stays one inside a longer list. *)
Lemma segment_app_l {A : Type} (seg X front : list A) :
  (exists pre post, X = pre ++ seg ++ post) ->
  exists pre post, front ++ X = pre ++ seg ++ post.
Proof.
  intros (pre & post & ->). exists (front ++ pre), post. now rewrite <- app_assoc.
Qed.

Lemma segment_app_r {A : Type} (seg X back : list A) :
  (exists pre post, X = pre ++ seg ++ post) ->
  exists pre post, X ++ back = pre ++ seg ++ post.
Proof.
  intros (pre & post & ->). exists pre, (post ++ back). now rewrite <- !app_assoc.
Qed.

(** The first [renderMedia] call of the pipeline is for the current slide. *)
Lemma pipeline_head (ty : Types.TransitionType) (t currentScale cw ch : Q) :
  exists alpha offsetX offsetY rest,
    Preview.transitionCalls ty t currentScale cw ch
    = Preview.mkCall Preview.Current alpha currentScale offsetX offsetY :: rest.
Proof. destruct ty; cbn [Preview.transitionCalls]; do 4 eexists; reflexivity. Qed.

Lemma frame_runs_effects (P : Platform) (env : Preview.FrameEnv)
  (settings : Types.VideoSettings) (imagesRef : list (option Preview.MediaElement))
  (mediaList : list Types.UploadedMedia) (t : Q) :
  imagesRef <> [] ->
  0 <= t ->
  t < Preview.calculateTotalDuration settings mediaList ->
  exists current : Types.UploadedMedia,
    nth_error mediaList (Preview.slideIndex (Preview.findSlide settings mediaList t))
    = Some current
    /\ (forall (effects : list Types.CanvasItem) (e : Types.CanvasItem),
           Types.m_collageData current = None ->
           Types.m_overlayEffects current = Some effects ->
           In e effects ->
           exists pre post k,
             Preview.drawFrameAt env settings imagesRef mediaList t
             = Preview.Drawn
                 (pre ++ fst (Preview.drawEffect env (Types.m_id current) e
                                (Preview.timeInSlide
                                   (Preview.findSlide settings mediaList t) t / 1000) k)
                  ++ post))
    /\ (forall (collage : Types.CollageData) (e : Types.CanvasItem),
           Types.m_collageData current = Some collage ->
           In e (Types.items collage) ->
           Types.type e = Types.TEffect ->
           exists pre post k,
             Preview.drawFrameAt env settings imagesRef mediaList t
             = Preview.Drawn
                 (pre ++ fst (Preview.drawEffect env (Types.m_id current) e
                                (Preview.timeInSlide
                                   (Preview.findSlide settings mediaList t) t / 1000) k)
                  ++ post)).
Proof.
  intros Hi Hlo Hhi.
  destruct (frame_located P env settings imagesRef mediaList t Hi Hlo Hhi)
    as (current & Hnth & _ & _ & _ & Hframe).
  set (s := Preview.findSlide settings mediaList t) in *.
  set (timeSec := Preview.timeInSlide s t / 1000) in *.
  exists current. split; [exact Hnth|]. split.
  - intros effects e Hnc Heff Hin.
    destruct (drawOverlayEffects_segment P env (Types.m_id current) timeSec e effects 0 Hin)
      as (pre & post & k & Hseg).
    rewrite Hframe. unfold Preview.drawOverlays. rewrite Hnc, Heff, Hseg.
    match goal with
    | |- exists _ _ _, Preview.Drawn ?L = _ =>
        assert (HL : exists pre' post',
                   L = pre' ++ fst (Preview.drawEffect env (Types.m_id current) e timeSec k)
                       ++ post')
    end.
    { apply segment_app_l, segment_app_l, segment_app_r. eauto. }
    destruct HL as (pre' & post' & ->). exists pre', post', k. reflexivity.
  - intros collage e Hc Hin Hty.
    apply (sortAsc_in Types.zIndex) in Hin.
    destruct (collageItems_segment P env (Types.m_id current) timeSec e Hty
                (JS.sortAsc Types.zIndex (Types.items collage)) 0 Hin)
      as (pre & post & k & Hseg).
    assert (Hcalls : exists alpha scale offsetX offsetY rest,
               (if Preview.drawsAlone env settings (List.length mediaList) s t
                then [ Preview.mkCall Preview.Current 1
                         (Preview.getZoomScale (Preview.transitionOf current)
                            (Preview.timeInSlide s t / Preview.slideDuration s)) 0 0 ]
                else Preview.transitionCalls (Preview.transitionOf current)
                       (JS.max 0
                          (JS.min 1
                             ((Preview.timeInSlide s t - Preview.transitionStart settings s)
                              / Preview.effectiveTransitionDuration settings s)))
                       (Preview.getZoomScale (Preview.transitionOf current)
                          (Preview.timeInSlide s t / Preview.slideDuration s))
                       (Preview.canvas_width env) (Preview.canvas_height env))
               = Preview.mkCall Preview.Current alpha scale offsetX offsetY :: rest).
    { destruct (Preview.drawsAlone env settings (List.length mediaList) s t).
      - do 5 eexists. reflexivity.
      - destruct (pipeline_head (Preview.transitionOf current)
                    (JS.max 0
                       (JS.min 1
                          ((Preview.timeInSlide s t - Preview.transitionStart settings s)
                           / Preview.effectiveTransitionDuration settings s)))
                    (Preview.getZoomScale (Preview.transitionOf current)
                       (Preview.timeInSlide s t / Preview.slideDuration s))
                    (Preview.canvas_width env) (Preview.canvas_height env))
          as (alpha & ox & oy & rest & ->).
        do 5 eexists. reflexivity. }
    destruct Hcalls as (alpha & scale & ox & oy & rest & Hcalls).
    rewrite Hframe, Hcalls. cbn [flat_map]. unfold Preview.renderCall at 1.
    cbn [Preview.rc_which Preview.rc_alpha Preview.rc_scale Preview.rc_offsetX
         Preview.rc_offsetY].
    rewrite Hnth. unfold Preview.renderMedia. cbn [option_map]. rewrite Hc.
    unfold Preview.renderCollageFrame.
    destruct (Collage.gradientDef (Types.bgGradientId collage)) as [c0 c1].
    rewrite Hseg.
    match goal with
    | |- exists _ _ _, Preview.Drawn ?L = _ =>
        assert (HL : exists pre' post',
                   L = pre' ++ fst (Preview.drawEffect env (Types.m_id current) e timeSec k)
                       ++ post')
    end.
    { apply segment_app_l, segment_app_r, segment_app_r, segment_app_l, segment_app_r.
      eauto. }
    destruct HL as (pre' & post' & ->). exists pre', post', k. reflexivity.
Qed.

(** *** The time value in the drawing code *)

Ltac found_in := solve [ repeat first [ left; reflexivity | right ] ].

Ltac not_in H :=
  repeat (destruct H as [H|H]; [discriminate H|]); exact H.

Lemma effectBranch_clock (P : Platform) (w h t : Q) (k : nat) :
  (In (Canvas.set_fillStyle (Canvas.Color "#ef4444"))
      (fst (Collage.effectBranch w h t (Some Types.REC_FRAME) k))
   <-> (Z.rem (Qfloor (t * 2)) 2 = 0)%Z)
  /\ In (Canvas.set_lineDashOffset
           (Math_PI * JS.max w h - Math_PI * JS.max w h * JS.min 1 t))
        (fst (Collage.effectBranch w h t (Some Types.RED_CIRCLE) k))
  /\ In (Canvas.ctx_translate (w / 2) (h - 10 - JS.min w h * 0.5 - Math_sin (t * 5) * 5))
        (fst (Collage.effectBranch w h t (Some Types.LOCATION_PIN) k))
  /\ In (Canvas.set_globalAlpha (0.8 + Math_sin (t * 20) * 0.2))
        (fst (Collage.effectBranch w h t (Some Types.BULB_LINE) k))
  /\ In (Canvas.ctx_scale (JS.min w h / 100 * (1 + Math_sin (t * 8) * 0.05))
           (JS.min w h / 100 * (1 + Math_sin (t * 8) * 0.05)))
        (fst (Collage.effectBranch w h t (Some Types.HEART_LINE) k)).
Proof.
  repeat split.
  - cbn [Collage.effectBranch fst]. unfold Collage.effect_REC_FRAME.
    match goal with
    | |- context [if ?c then _ else _] => destruct c eqn:E
    end; [intros _; now apply Z.eqb_eq|].
    intro Hin. exfalso. cbn [app In] in Hin. not_in Hin.
  - intro E. cbn [Collage.effectBranch fst]. unfold Collage.effect_REC_FRAME.
    rewrite E. cbn [Z.eqb app In]. found_in.
  - cbn [Collage.effectBranch fst]. unfold Collage.effect_RED_CIRCLE.
    cbn [app In]. found_in.
  - cbn [Collage.effectBranch fst]. unfold Collage.effect_LOCATION_PIN.
    cbn [app In]. found_in.
  - cbn [Collage.effectBranch fst]. unfold Collage.effect_BULB_LINE.
    cbn [app In]. found_in.
  - cbn [Collage.effectBranch fst]. unfold Collage.effect_HEART_LINE.
    cbn [app In]. found_in.
Qed.

Lemma drawEffect_clock (P : Platform) (env : Preview.FrameEnv) (cid : string)
  (e : Types.CanvasItem) (timeSec : Q) (k : nat) :
  Types.type e = Types.TEffect ->
  (Types.animationType e = Some Types.REC_FRAME ->
   (In (Canvas.set_fillStyle (Canvas.Color "#ef4444"))
       (fst (Preview.drawEffect env cid e timeSec k))
    <-> (Z.rem (Qfloor (timeSec * 2)) 2 = 0)%Z))
  /\ (Types.animationType e = Some Types.RED_CIRCLE ->
      In (Canvas.set_lineDashOffset
            (Math_PI * JS.max (Types.width e) (Types.height e)
             - Math_PI * JS.max (Types.width e) (Types.height e) * JS.min 1 timeSec))
         (fst (Preview.drawEffect env cid e timeSec k)))
  /\ (Types.animationType e = Some Types.LOCATION_PIN ->
      In (Canvas.ctx_translate (Types.width e / 2)
            (Types.height e - 10 - JS.min (Types.width e) (Types.height e) * 0.5
             - Math_sin (timeSec * 5) * 5))
         (fst (Preview.drawEffect env cid e timeSec k)))
  /\ (Types.animationType e = Some Types.BULB_LINE ->
      In (Canvas.set_globalAlpha (0.8 + Math_sin (timeSec * 20) * 0.2))
         (fst (Preview.drawEffect env cid e timeSec k)))
  /\ (Types.animationType e = Some Types.HEART_LINE ->
      In (Canvas.ctx_scale
            (JS.min (Types.width e) (Types.height e) / 100
             * (1 + Math_sin (timeSec * 8) * 0.05))
            (JS.min (Types.width e) (Types.height e) / 100
             * (1 + Math_sin (timeSec * 8) * 0.05)))
         (fst (Preview.drawEffect env cid e timeSec k))).
Proof.
  intro Hty. unfold Preview.drawEffect. rewrite Hty.
  split; [|split; [|split; [|split]]]; intro Hanim; rewrite Hanim; cbn [fst].
  - unfold Preview.case_REC_FRAME.
    match goal with
    | |- context [if (?a =? ?b)%Z then _ else _] => destruct (a =? b)%Z eqn:E
    end.
    + split; [intros _; now apply Z.eqb_eq|]. intros _.
      destruct (Preview.overlaySelected env cid (Types.id e)); cbn [app In fst]; found_in.
    + split; [|intro E'; apply Z.eqb_eq in E'; congruence].
      intro Hin. exfalso.
      destruct (Preview.overlaySelected env cid (Types.id e));
        unfold Preview.effectSelection in Hin; cbn [app In fst] in Hin; not_in Hin.
  - unfold Preview.case_RED_CIRCLE.
    destruct (Preview.overlaySelected env cid (Types.id e)); cbn [app In fst]; found_in.
  - unfold Preview.case_LOCATION_PIN.
    destruct (Preview.overlaySelected env cid (Types.id e)); cbn [app In fst]; found_in.
  - unfold Preview.case_BULB_LINE.
    destruct (Preview.overlaySelected env cid (Types.id e)); cbn [app In fst]; found_in.
  - unfold Preview.case_HEART_LINE.
    destruct (Preview.overlaySelected env cid (Types.id e)); cbn [app In fst]; found_in.
Qed.

(** C8, as the code has it.  The claim fails for the collage editor: its
  decoration clock is the wall clock modulo 3 seconds, so at 3000 ms it is
  back at 0. *)
Lemma C8_editor_clock_wraps :
  Collage.frameTime 2999 == 2.999
  /\ Collage.frameTime 3000 == 0
  /\ ~ (Collage.frameTime 2999 <= Collage.frameTime 3000).
Proof.
  assert (H1 : Collage.frameTime 2999 == 2.999) by (vm_compute; reflexivity).
  assert (H2 : Collage.frameTime 3000 == 0) by (vm_compute; reflexivity).
  repeat split; try assumption.
  rewrite H1, H2. intro Hle. apply Qle_bool_iff in Hle. discriminate.
Qed.

(** C8, amended.  The editor: the clock of a frame is the wall clock in
  seconds modulo 3, so it stays in [0, 3) and comes back to the same value
  every 3000 ms; a frame over items whose images have loaded runs to its
  end and runs the effect switch of every effect item at that clock.  The
  timeline: a frame at a clock value inside the show, with a list of
  elements that is not empty, runs [drawEffect] for
  every overlay effect of the current slide, and for every effect item of a
  current slide that is a collage, at the slide-local time in seconds, which
  nothing caps or resets.  In both copies the time value reaches the drawing
  code as it is, for every value: the dot of the recording frame is drawn
  when the integer part of twice the time is even, the pin bobs by the sine
  of 5 times the time, the bulb flickers by the sine of 20 times it and the
  heart beats by the sine of 8 times it; the stroke of the red circle
  advances with the smaller of 1 and the time. *)
Theorem C8_effect_clocks :
  forall P : Platform,
    (forall now : Z,
        (0 <= now)%Z ->
        Collage.frameTime now == inject_Z (now mod 3000) / 1000
        /\ 0 <= Collage.frameTime now
        /\ Collage.frameTime now < 3
        /\ Collage.frameTime (now + 3000) == Collage.frameTime now)
    /\ (forall (bgGradientId : string) (sel : option string) (cropping : bool) (now : Z)
               (itemsRef : list Types.CanvasItem) (e : Types.CanvasItem),
           Forall (fun i => Collage.drawImageThrows i = false) itemsRef ->
           In e itemsRef ->
           Types.type e = Types.TEffect ->
           exists ops drawn pre post k,
             Collage.drawFrame bgGradientId sel cropping now itemsRef
             = Collage.Completed ops drawn
             /\ ops = pre ++ fst (Collage.effectBranch (Types.width e) (Types.height e)
                                    (Collage.frameTime now) (Types.animationType e) k)
                          ++ post)
    /\ (forall (w h t : Q) (k : nat),
           (In (Canvas.set_fillStyle (Canvas.Color "#ef4444"))
               (fst (Collage.effectBranch w h t (Some Types.REC_FRAME) k))
            <-> (Z.rem (Qfloor (t * 2)) 2 = 0)%Z)
           /\ In (Canvas.set_lineDashOffset
                    (Math_PI * JS.max w h - Math_PI * JS.max w h * JS.min 1 t))
                 (fst (Collage.effectBranch w h t (Some Types.RED_CIRCLE) k))
           /\ In (Canvas.ctx_translate (w / 2)
                    (h - 10 - JS.min w h * 0.5 - Math_sin (t * 5) * 5))
                 (fst (Collage.effectBranch w h t (Some Types.LOCATION_PIN) k))
           /\ In (Canvas.set_globalAlpha (0.8 + Math_sin (t * 20) * 0.2))
                 (fst (Collage.effectBranch w h t (Some Types.BULB_LINE) k))
           /\ In (Canvas.ctx_scale (JS.min w h / 100 * (1 + Math_sin (t * 8) * 0.05))
                    (JS.min w h / 100 * (1 + Math_sin (t * 8) * 0.05)))
                 (fst (Collage.effectBranch w h t (Some Types.HEART_LINE) k)))
    /\ (forall (env : Preview.FrameEnv) (settings : Types.VideoSettings)
               (imagesRef : list (option Preview.MediaElement))
               (mediaList : list Types.UploadedMedia) (loopTime : Q),
           imagesRef <> [] ->
           0 <= loopTime ->
           loopTime < Preview.calculateTotalDuration settings mediaList ->
           exists current : Types.UploadedMedia,
             nth_error mediaList
               (Preview.slideIndex (Preview.findSlide settings mediaList loopTime))
             = Some current
             /\ (forall (effects : list Types.CanvasItem) (e : Types.CanvasItem),
                    Types.m_collageData current = None ->
                    Types.m_overlayEffects current = Some effects ->
                    In e effects ->
                    exists pre post k,
                      Preview.drawFrameAt env settings imagesRef mediaList loopTime
                      = Preview.Drawn
                          (pre
                           ++ fst (Preview.drawEffect env (Types.m_id current) e
                                     (Preview.timeInSlide
                                        (Preview.findSlide settings mediaList loopTime)
                                        loopTime / 1000) k)
                           ++ post))
             /\ (forall (collage : Types.CollageData) (e : Types.CanvasItem),
                    Types.m_collageData current = Some collage ->
                    In e (Types.items collage) ->
                    Types.type e = Types.TEffect ->
                    exists pre post k,
                      Preview.drawFrameAt env settings imagesRef mediaList loopTime
                      = Preview.Drawn
                          (pre
                           ++ fst (Preview.drawEffect env (Types.m_id current) e
                                     (Preview.timeInSlide
                                        (Preview.findSlide settings mediaList loopTime)
                                        loopTime / 1000) k)
                           ++ post)))
    /\ (forall (env : Preview.FrameEnv) (cid : string) (e : Types.CanvasItem)
               (timeSec : Q) (k : nat),
           Types.type e = Types.TEffect ->
           (Types.animationType e = Some Types.REC_FRAME ->
            (In (Canvas.set_fillStyle (Canvas.Color "#ef4444"))
                (fst (Preview.drawEffect env cid e timeSec k))
             <-> (Z.rem (Qfloor (timeSec * 2)) 2 = 0)%Z))
           /\ (Types.animationType e = Some Types.RED_CIRCLE ->
               In (Canvas.set_lineDashOffset
                     (Math_PI * JS.max (Types.width e) (Types.height e)
                      - Math_PI * JS.max (Types.width e) (Types.height e)
                        * JS.min 1 timeSec))
                  (fst (Preview.drawEffect env cid e timeSec k)))
           /\ (Types.animationType e = Some Types.LOCATION_PIN ->
               In (Canvas.ctx_translate (Types.width e / 2)
                     (Types.height e - 10
                      - JS.min (Types.width e) (Types.height e) * 0.5
                      - Math_sin (timeSec * 5) * 5))
                  (fst (Preview.drawEffect env cid e timeSec k)))
           /\ (Types.animationType e = Some Types.BULB_LINE ->
               In (Canvas.set_globalAlpha (0.8 + Math_sin (timeSec * 20) * 0.2))
                  (fst (Preview.drawEffect env cid e timeSec k)))
           /\ (Types.animationType e = Some Types.HEART_LINE ->
               In (Canvas.ctx_scale
                     (JS.min (Types.width e) (Types.height e) / 100
                      * (1 + Math_sin (timeSec * 8) * 0.05))
                     (JS.min (Types.width e) (Types.height e) / 100
                      * (1 + Math_sin (timeSec * 8) * 0.05)))
                  (fst (Preview.drawEffect env cid e timeSec k)))).
Proof.
  intro P. split; [|split; [|split; [|split]]].
  - intros now Hnow. repeat split.
    + now apply rem3_nonneg.
    + now apply frameTime_range.
    + now apply frameTime_range.
    + now apply frameTime_period.
  - intros bg sel cropping now itemsRef e Hall Hin Hty.
    assert (Hall' : Forall (fun i => Collage.drawImageThrows i = false)
                      (JS.sortAsc Types.zIndex itemsRef)).
    { rewrite Forall_forall in Hall |- *. intros i Hi. apply Hall.
      now apply (sortAsc_in Types.zIndex). }
    apply (sortAsc_in Types.zIndex) in Hin.
    destruct (drawItems_effect_segment P sel cropping (Collage.frameTime now) e Hty
                (JS.sortAsc Types.zIndex itemsRef) 0 Hall' Hin)
      as (ops & drawn & pre & post & k & Hrun & Hops).
    unfold Collage.drawFrame.
    destruct (Collage.gradientDef bg) as [c0 c1]. rewrite Hrun.
    exists ([ Canvas.set_fillStyle
                (Canvas.LinearGradient 0 0 Collage.WIDTH Collage.HEIGHT [(0, c0); (1, c1)]);
              Canvas.ctx_fillRect 0 0 Collage.WIDTH Collage.HEIGHT ] ++ ops), drawn.
    exists ([ Canvas.set_fillStyle
                (Canvas.LinearGradient 0 0 Collage.WIDTH Collage.HEIGHT [(0, c0); (1, c1)]);
              Canvas.ctx_fillRect 0 0 Collage.WIDTH Collage.HEIGHT ] ++ pre), post, k.
    split; [reflexivity|]. rewrite Hops, <- app_assoc. reflexivity.
  - intros w h t k. apply effectBranch_clock.
  - intros env settings imagesRef mediaList loopTime Hi Hlo Hhi.
    exact (frame_runs_effects P env settings imagesRef mediaList loopTime Hi Hlo Hhi).
  - intros env cid e timeSec k Hty. now apply drawEffect_clock.
Qed.

Lemma C8_effect_clocks_witness :
  (Collage.frameTime 4500 == inject_Z (4500 mod 3000) / 1000
   /\ 0 <= Collage.frameTime 4500
   /\ Collage.frameTime 4500 < 3
   /\ Collage.frameTime (4500 + 3000) == Collage.frameTime 4500)
  /\ (exists ops drawn pre post k,
         @Collage.drawFrame Sample.platform "blue" None false 4500
           [Sample.boxedText; Sample.recSticker]
         = Collage.Completed ops drawn
         /\ ops = pre ++ fst (@Collage.effectBranch Sample.platform 200 200
                                (Collage.frameTime 4500) (Some Types.REC_FRAME) k)
                      ++ post)
  /\ (exists current : Types.UploadedMedia,
         nth_error [Sample.decorated]
           (Preview.slideIndex (Preview.findSlide Sample.settings [Sample.decorated] 1200))
         = Some current
         /\ exists pre post k,
              @Preview.drawFrameAt Sample.platform Sample.editingEnv Sample.settings [None]
                [Sample.decorated] 1200
              = Preview.Drawn
                  (pre
                   ++ fst (@Preview.drawEffect Sample.platform Sample.editingEnv
                             (Types.m_id current) Sample.recSticker
                             (Preview.timeInSlide
                                (Preview.findSlide Sample.settings [Sample.decorated] 1200)
                                1200 / 1000) k)
                   ++ post))
  /\ (In (Canvas.set_fillStyle (Canvas.Color "#ef4444"))
         (fst (@Preview.drawEffect Sample.platform Sample.editingEnv "s" Sample.recSticker
                 (6 / 5) 0))
      <-> (Z.rem (Qfloor ((6 / 5) * 2)) 2 = 0)%Z).
Proof.
  destruct (C8_effect_clocks Sample.platform) as (Hclock & Hedit & _ & Hframe & Htime).
  split; [|split; [|split]].
  - apply (Hclock 4500%Z). discriminate.
  - apply (Hedit "blue"%string None false 4500%Z [Sample.boxedText; Sample.recSticker]
             Sample.recSticker).
    + repeat constructor.
    + right. left. reflexivity.
    + reflexivity.
  - destruct (Hframe Sample.editingEnv Sample.settings [None] [Sample.decorated] 1200)
      as (current & Hnth & Hover & _).
    + discriminate.
    + vm_compute. discriminate.
    + vm_compute. reflexivity.
    + exists current. split; [exact Hnth|].
      apply (Hover [Sample.recSticker] Sample.recSticker).
      * injection Hnth as <-. reflexivity.
      * injection Hnth as <-. reflexivity.
      * left. reflexivity.
  - apply (Htime Sample.editingEnv "s"%string Sample.recSticker (6 / 5) 0%nat).
    + reflexivity.
    + reflexivity.
Defined.

(** ** Slides without a loaded element *)

Lemma findSlideFrom_index (settings : Types.VideoSettings) (t : Q)
  (rest : list Types.UploadedMedia) (i : nat) (start : Q) :
  Preview.slideIndex (Preview.findSlideFrom settings t rest i start) = 0%nat
  \/ (i <= Preview.slideIndex (Preview.findSlideFrom settings t rest i start)
      < i + List.length rest)%nat.
Proof.
  revert i start. induction rest as [|m rest IH]; intros i start; cbn [Preview.findSlideFrom].
  - left. reflexivity.
  - destruct (JS.leb start t && JS.ltb t (start + Preview.slideSeconds settings m * 1000)).
    + right. cbn. lia.
    + destruct (IH (S i) (start + Preview.slideSeconds settings m * 1000)) as [H0|Hr].
      * left. exact H0.
      * right. cbn [List.length]. lia.
Qed.

Lemma findSlide_in_range (settings : Types.VideoSettings) (mediaList : list Types.UploadedMedia)
  (t : Q) :
  mediaList <> [] ->
  (Preview.slideIndex (Preview.findSlide settings mediaList t) < List.length mediaList)%nat.
Proof.
  intro Hne. unfold Preview.findSlide.
  destruct (findSlideFrom_index settings t mediaList 0 0) as [H0|Hr].
  - rewrite H0. destruct mediaList; [contradiction|cbn; lia].
  - lia.
Qed.





(** ** The loops of the tape run to their end *)

(** A loop whose integer measure is not negative while the condition holds
  and falls with every iteration gives the same result with any fuel
  above the measure. *)
Lemma run_fuel_irrelevant (cond : Q -> bool) (next : Q -> Q) (draws : nat)
  (body : Q -> nat -> list Canvas.CanvasOp) (m : Q -> Z) :
  (forall i, cond i = true -> (0 <= m i)%Z /\ (m (next i) < m i)%Z) ->
  forall fuel i k extra,
    (m i < Z.of_nat fuel)%Z ->
    Loop.run cond next draws body (fuel + extra) i k = Loop.run cond next draws body fuel i k.
Proof.
  intros Hm fuel. induction fuel as [|fuel IH]; intros i k extra Hfuel.
  - destruct (cond i) eqn:Ec.
    + destruct (Hm i Ec). lia.
    + destruct extra; cbn [Nat.add Loop.run]; [reflexivity|]. now rewrite Ec.
  - cbn [Nat.add Loop.run]. destruct (cond i) eqn:Ec; [|reflexivity].
    destruct (Hm i Ec) as [_ Hdec].
    rewrite (IH (next i) (k + draws)%nat extra) by lia. reflexivity.
Qed.

Lemma floor_pred (v : Q) : (Qfloor (v - 1) < Qfloor v)%Z.
Proof.
  pose proof (Qfloor_le (v - 1)) as Hlo.
  pose proof (Qlt_floor v) as Hhi.
  rewrite inject_Z_plus in Hhi. change (inject_Z 1) with 1 in Hhi.
  rewrite Zlt_Qlt. lra.
Qed.

Lemma floor_nonneg (v : Q) : 0 <= v -> (0 <= Qfloor v)%Z.
Proof.
  intro Hv. change 0%Z with (Qfloor 0). now apply Qfloor_resp_le.
Qed.

Lemma iterations_above (span step : Q) :
  (Qfloor (span / step) < Z.of_nat (Loop.iterations span step))%Z.
Proof. unfold Loop.iterations. lia. Qed.

(** The fuel that [effect_TAPE] and [case_TAPE] give to their four loops is
  enough: more fuel draws the same edges and the same grid. *)
Lemma tape_loops_complete (P : Platform) (w h : Q) (k extra : nat) :
  Loop.run (fun i => JS.leb i w) (fun i => i + 5) 1
    (fun i k => [Canvas.ctx_lineTo i (Math_random k * 2)])
    (Loop.iterations w 5 + extra) 0 k
  = Loop.run (fun i => JS.leb i w) (fun i => i + 5) 1
      (fun i k => [Canvas.ctx_lineTo i (Math_random k * 2)])
      (Loop.iterations w 5) 0 k
  /\ Loop.run (fun i => JS.leb 0 i) (fun i => i - 5) 1
       (fun i k => [Canvas.ctx_lineTo i (h - Math_random k * 2)])
       (Loop.iterations w 5 + extra) w k
     = Loop.run (fun i => JS.leb 0 i) (fun i => i - 5) 1
         (fun i k => [Canvas.ctx_lineTo i (h - Math_random k * 2)])
         (Loop.iterations w 5) w k
  /\ Loop.run (fun x => JS.ltb x w) (fun x => x + 10) 0
       (fun x _ => [Canvas.ctx_moveTo x 0; Canvas.ctx_lineTo x h])
       (Loop.iterations w 10 + extra) 0 k
     = Loop.run (fun x => JS.ltb x w) (fun x => x + 10) 0
         (fun x _ => [Canvas.ctx_moveTo x 0; Canvas.ctx_lineTo x h])
         (Loop.iterations w 10) 0 k
  /\ Loop.run (fun y => JS.ltb y h) (fun y => y + 10) 0
       (fun y _ => [Canvas.ctx_moveTo 0 y; Canvas.ctx_lineTo w y])
       (Loop.iterations h 10 + extra) 0 k
     = Loop.run (fun y => JS.ltb y h) (fun y => y + 10) 0
         (fun y _ => [Canvas.ctx_moveTo 0 y; Canvas.ctx_lineTo w y])
         (Loop.iterations h 10) 0 k.
Proof.
  repeat split.
  - apply (run_fuel_irrelevant _ _ _ _ (fun i => Qfloor ((w - i) / 5))).
    + intros i Hc. apply leb_spec in Hc. split.
      * apply floor_nonneg. apply Qle_shift_div_l; [reflexivity|]. lra.
      * rewrite (Qfloor_comp ((w - (i + 5)) / 5) ((w - i) / 5 - 1)) by field.
        apply floor_pred.
    + rewrite (Qfloor_comp ((w - 0) / 5) (w / 5)) by field. apply iterations_above.
  - apply (run_fuel_irrelevant _ _ _ _ (fun i => Qfloor (i / 5))).
    + intros i Hc. apply leb_spec in Hc. split.
      * apply floor_nonneg. apply Qle_shift_div_l; [reflexivity|]. lra.
      * rewrite (Qfloor_comp ((i - 5) / 5) (i / 5 - 1)) by field.
        apply floor_pred.
    + apply iterations_above.
  - apply (run_fuel_irrelevant _ _ _ _ (fun x => Qfloor ((w - x) / 10))).
    + intros x Hc. apply ltb_spec in Hc. split.
      * apply floor_nonneg. apply Qle_shift_div_l; [reflexivity|]. lra.
      * rewrite (Qfloor_comp ((w - (x + 10)) / 10) ((w - x) / 10 - 1)) by field.
        apply floor_pred.
    + rewrite (Qfloor_comp ((w - 0) / 10) (w / 10)) by field. apply iterations_above.
  - apply (run_fuel_irrelevant _ _ _ _ (fun y => Qfloor ((h - y) / 10))).
    + intros y Hc. apply ltb_spec in Hc. split.
      * apply floor_nonneg. apply Qle_shift_div_l; [reflexivity|]. lra.
      * rewrite (Qfloor_comp ((h - (y + 10)) / 10) ((h - y) / 10 - 1)) by field.
        apply floor_pred.
    + rewrite (Qfloor_comp ((h - 0) / 10) (h / 10)) by field. apply iterations_above.
Qed.

(** ** The two copies of the decoration drawing *)

Lemma run_no_text_layout (cond : Q -> bool) (next : Q -> Q) (draws : nat)
  (body : Q -> nat -> list Canvas.CanvasOp) :
  (forall i k, existsb Canvas.setsTextLayout (body i k) = false) ->
  forall fuel i k,
    existsb Canvas.setsTextLayout (fst (Loop.run cond next draws body fuel i k)) = false.
Proof.
  intros Hbody fuel. induction fuel as [|fuel IH]; intros i k; cbn [Loop.run].
  - reflexivity.
  - destruct (cond i); [|reflexivity].
    specialize (IH (next i) (k + draws)%nat).
    destruct (Loop.run cond next draws body fuel (next i) (k + draws)%nat) as [ops k'].
    cbn [fst] in *. rewrite existsb_app, Hbody, IH. reflexivity.
Qed.

(** The effect branch of the editor never assigns [textAlign] or
  [textBaseline]. *)
Lemma effectBranch_no_text_layout (P : Platform) (w h t : Q)
  (anim : option Types.AnimationType) (k : nat) :
  existsb Canvas.setsTextLayout (fst (Collage.effectBranch w h t anim k)) = false.
Proof.
  unfold Collage.effectBranch.
  destruct anim as [[]|]; cbn [fst]; try reflexivity.
  - unfold Collage.effect_REC_FRAME.
    destruct (Z.rem (Qfloor (t * 2)) 2 =? 0)%Z; reflexivity.
  - unfold Collage.effect_TAPE.
    repeat match goal with
           | |- context [Loop.run ?c ?n ?d ?b ?f ?i ?k] =>
               let Hr := fresh "Hr" in
               pose proof (run_no_text_layout c n d b ltac:(intros; reflexivity) f i k) as Hr;
               destruct (Loop.run c n d b f i k)
           end.
    cbn [fst] in *.
    repeat (rewrite existsb_app || cbn [existsb Canvas.setsTextLayout orb app]).
    repeat match goal with H : existsb _ _ = false |- _ => rewrite H; clear H end.
    reflexivity.
  - unfold Collage.effect_BULB_LINE.
    destruct (JS.ltb 0 (Math_sin (t * 5))); reflexivity.
Qed.

(** [drawEffect] issues the operations of the editor's transform and effect
  branch, with the two text layout assignments in between. *)
Lemma drawEffect_vs_effectBranch (P : Platform) (env : Preview.FrameEnv) (cid : string)
  (item : Types.CanvasItem) (anim : Types.AnimationType) (t : Q) (k : nat) :
  Types.type item = Types.TEffect ->
  Types.animationType item = Some anim ->
  Preview.overlaySelected env cid (Types.id item) = false ->
  Preview.drawEffect env cid item t k
  = ([ Canvas.ctx_save;
       Canvas.ctx_translate
         (Types.x item + Types.width item * Types.scale item / 2)
         (Types.y item + Types.height item * Types.scale item / 2);
       Canvas.ctx_rotate (JS.orNum (Types.rotation item) 0);
       Canvas.ctx_scale (Types.scale item) (Types.scale item);
       Canvas.ctx_translate (- Types.width item / 2) (- Types.height item / 2);
       Canvas.set_textAlign "center"; Canvas.set_textBaseline "middle" ]
     ++ fst (Collage.effectBranch (Types.width item) (Types.height item) t (Some anim) k)
     ++ [ Canvas.ctx_restore ],
     snd (Collage.effectBranch (Types.width item) (Types.height item) t (Some anim) k)).
Proof.
  intros Hty Hanim Hsel. unfold Preview.drawEffect, Collage.effectBranch.
  rewrite Hty, Hanim, Hsel.
  destruct anim; cbn [fst snd]; try (rewrite app_nil_r; reflexivity).
  change (Preview.case_TAPE (Types.width item) (Types.height item) k)
    with (Collage.effect_TAPE (Types.width item) (Types.height item) k).
  destruct (Collage.effect_TAPE (Types.width item) (Types.height item) k) as [ops k'].
  cbn [fst snd]. rewrite app_nil_r. reflexivity.
Qed.

(** What the draw loop of the editor issues for an effect item that is not
  the selected one. *)
Lemma drawItem_effect (P : Platform) (sel : option string) (cropping : bool) (t : Q)
  (k : nat) (item : Types.CanvasItem) :
  Types.type item = Types.TEffect ->
  Collage.isSelected sel item = false ->
  fst (fst (Collage.drawItem sel cropping t k item))
  = [ Canvas.ctx_save;
      Canvas.ctx_translate (Collage.drawCx item) (Collage.drawCy item);
      Canvas.ctx_rotate (JS.orNum (Types.rotation item) 0);
      Canvas.ctx_scale (Types.scale item) (Types.scale item);
      Canvas.ctx_translate (- Collage.drawHalfW item) (- Collage.drawHalfH item) ]
    ++ fst (Collage.effectBranch (Types.width item) (Types.height item) t
              (Types.animationType item) k)
    ++ [ Canvas.ctx_restore ].
Proof.
  intros Hty Hsel. unfold Collage.drawItem. rewrite Hty.
  destruct (Collage.effectBranch (Types.width item) (Types.height item) t
              (Types.animationType item) k) as [ops k'] eqn:E.
  cbn [fst snd]. rewrite Hsel, (effect_never_throws item Hty).
  unfold Collage.drawTransform.
  assert (Hp : Collage.drawPad item = 0).
  { unfold Collage.drawPad. rewrite Hty. reflexivity. }
  rewrite Hp. change (JS.ltb 0 0) with false. cbn [app]. rewrite ?app_nil_r. reflexivity.
Qed.

Lemma filter_none {A : Type} (f : A -> bool) (l : list A) :
  existsb f l = false -> filter f l = [].
Proof.
  induction l as [|a l IH]; cbn; [reflexivity|].
  destruct (f a); cbn; [discriminate|assumption].
Qed.

(** C7, at a recording-frame sticker.  For every platform and time value
  the timeline copy assigns [textAlign = 'center'] and
  [textBaseline = 'middle'] before the shared drawing code, and the
  editor copy assigns neither, so the two sequences of operations differ
  (the label REC is laid out differently). *)
Theorem C7_copies_differ :
  forall (P : Platform) (t : Q),
    filter Canvas.setsTextLayout
      (fst (Preview.drawEffect Sample.env "slide" Sample.recSticker t 0))
    = [ Canvas.set_textAlign "center"; Canvas.set_textBaseline "middle" ]
    /\ filter Canvas.setsTextLayout
         (fst (fst (Collage.drawItem None false t 0 Sample.recSticker)))
       = []
    /\ fst (Preview.drawEffect Sample.env "slide" Sample.recSticker t 0)
       <> fst (fst (Collage.drawItem None false t 0 Sample.recSticker)).
Proof.
  intros P t.
  assert (H1 : filter Canvas.setsTextLayout
                 (fst (Preview.drawEffect Sample.env "slide" Sample.recSticker t 0))
               = [ Canvas.set_textAlign "center"; Canvas.set_textBaseline "middle" ]).
  { rewrite (drawEffect_vs_effectBranch P Sample.env "slide" Sample.recSticker
               Types.REC_FRAME t 0 eq_refl eq_refl eq_refl).
    cbn [fst]. rewrite !filter_app.
    rewrite (filter_none _ _ (effectBranch_no_text_layout P _ _ t _ 0)).
    reflexivity. }
  assert (H2 : filter Canvas.setsTextLayout
                 (fst (fst (Collage.drawItem None false t 0 Sample.recSticker))) = []).
  { rewrite (drawItem_effect P None false t 0 Sample.recSticker eq_refl eq_refl).
    rewrite !filter_app.
    rewrite (filter_none _ _ (effectBranch_no_text_layout P _ _ t _ 0)).
    reflexivity. }
  repeat split; try assumption.
  intro Heq. rewrite Heq, H2 in H1. discriminate.
Qed.

(** ** Padding of the draw loop and of the hit test *)

(** The two padding rules agree on every item that is not a text, and on a
  text with a background colour. *)
Lemma pads_agree (item : Types.CanvasItem) :
  Types.type item <> Types.TText \/ JS.truthyStr (Types.backgroundColor item) = true ->
  Collage.drawPad item = Collage.hitPad item.
Proof.
  unfold Collage.drawPad, Collage.hitPad.
  intros [Hty|Hbg].
  - destruct (Types.type item); try reflexivity. contradiction.
  - rewrite Hbg, andb_true_r. reflexivity.
Qed.

(** With equal paddings the centre and the extent of the draw loop are the
  ones of the hit test. *)
Lemma geometry_agrees (item : Types.CanvasItem) :
  Collage.drawPad item = Collage.hitPad item ->
  Collage.drawCx item == Collage.hitCx item
  /\ Collage.drawCy item == Collage.hitCy item
  /\ 2 * Collage.drawHalfW item * Types.scale item == Collage.hitTotalW item
  /\ 2 * Collage.drawHalfH item * Types.scale item == Collage.hitTotalH item.
Proof.
  intro Hp.
  unfold Collage.drawCx, Collage.drawCy, Collage.hitCx, Collage.hitCy,
    Collage.drawHalfW, Collage.drawHalfH, Collage.hitTotalW, Collage.hitTotalH.
  rewrite Hp. repeat split; field.
Qed.

(** C1, at a text item without background colour whose [backgroundPadding]
  is 10 (the state the background toggle of the editor leaves behind).
  The draw loop uses padding 0 and the hit test padding 10: the item and
  its selection box are drawn around the centre (50, 20) with extent
  100 x 40, and the hit test works around (60, 30) with extent 120 x 60.
  A press on the centre of the drawn resize handle, at (100, 40), is not
  taken as a resize: the handler starts a move. *)
Theorem C1_hit_test_padding_differs :
  Collage.drawPad Sample.plainText == 0
  /\ Collage.hitPad Sample.plainText == 10
  /\ (Collage.drawCx Sample.plainText == 50 /\ Collage.drawCy Sample.plainText == 20)
  /\ (Collage.hitCx Sample.plainText == 60 /\ Collage.hitCy Sample.plainText == 30)
  /\ (2 * Collage.drawHalfW Sample.plainText * Types.scale Sample.plainText == 100
      /\ Collage.hitTotalW Sample.plainText == 120)
  /\ (2 * Collage.drawHalfH Sample.plainText * Types.scale Sample.plainText == 40
      /\ Collage.hitTotalH Sample.plainText == 60)
  /\ Collage.interactionMode
       (@Collage.handleMouseDown Sample.platform
          (Collage.mkEditor [Sample.plainText] (Some "title"%string) false
             Collage.MODE_NONE (Types.mkPoint 0 0) None)
          (Types.mkPoint 100 40))
     = Collage.MOVE.
Proof. repeat split; vm_compute; reflexivity. Qed.

(** When the platform's sine and cosine satisfy the identities of a
  rotation, the padding is not negative and the two paddings agree, the
  hit test inverts the transform of the draw loop: a point [(u, v)] of the
  drawing code of the item lands on the canvas at a point that the hit
  test maps to the scaled position of [(u, v)] in the padded box. *)
Section Inverse.
Context {P : Platform}.
Hypothesis cos_neg : forall a, Math_cos (- a) == Math_cos a.
Hypothesis sin_neg : forall a, Math_sin (- a) == - Math_sin a.
Hypothesis circle : forall a, Math_cos a * Math_cos a + Math_sin a * Math_sin a == 1.

Lemma hit_test_inverts_draw (item : Types.CanvasItem) (u v : Q) :
  Collage.drawPad item = Collage.hitPad item ->
  0 <= Collage.drawPad item ->
  Collage.localX item
    (Geometry.apply (Geometry.transformOf (Collage.drawTransform item)) (Types.mkPoint u v))
  == Types.scale item * (u + Collage.drawPad item)
  /\ Collage.localY item
       (Geometry.apply (Geometry.transformOf (Collage.drawTransform item)) (Types.mkPoint u v))
     == Types.scale item * (v + Collage.drawPad item).
Proof.
  intros Hp Hnonneg.
  unfold Collage.localX, Collage.localY, Collage.localDx, Collage.localDy,
    Collage.hitCx, Collage.hitCy, Collage.hitTotalW, Collage.hitTotalH.
  rewrite <- Hp.
  rewrite (cos_neg (JS.orNum (Types.rotation item) 0)).
  rewrite (sin_neg (JS.orNum (Types.rotation item) 0)).
  pose proof (circle (JS.orNum (Types.rotation item) 0)) as Hc.
  unfold Collage.drawTransform, Collage.drawCx, Collage.drawCy,
    Collage.drawHalfW, Collage.drawHalfH.
  destruct (JS.ltb 0 (Collage.drawPad item)) eqn:Epos;
    cbn [app Geometry.transformOf fold_left Geometry.step Geometry.apply Geometry.identity
         Geometry.m_a Geometry.m_b Geometry.m_c Geometry.m_d Geometry.m_e Geometry.m_f
         Types.px Types.py];
    set (co := Math_cos (JS.orNum (Types.rotation item) 0)) in *;
    set (si := Math_sin (JS.orNum (Types.rotation item) 0)) in *;
    set (p := Collage.drawPad item) in *;
    set (s := Types.scale item);
    set (w := Types.width item);
    set (h := Types.height item).
  - split.
    + transitivity (s * (u + p) * (co * co + si * si)
                    + s * (w / 2 + p) * (1 - (co * co + si * si))); [field|].
      rewrite Hc. ring.
    + transitivity (s * (v + p) * (co * co + si * si)
                    + s * (h / 2 + p) * (1 - (co * co + si * si))); [field|].
      rewrite Hc. ring.
  - assert (Hz : p == 0).
    { destruct (Qlt_le_dec 0 p) as [Hlt|Hle].
      - apply ltb_true in Hlt. congruence.
      - lra. }
    split.
    + transitivity (s * u * (co * co + si * si)
                    + s * (w / 2 + p) * (1 - (co * co + si * si))); [field|].
      rewrite Hc, Hz. ring.
    + transitivity (s * v * (co * co + si * si)
                    + s * (h / 2 + p) * (1 - (co * co + si * si))); [field|].
      rewrite Hc, Hz. ring.
Qed.

End Inverse.

(** The sample platform satisfies the three identities. *)
Lemma sample_rotation_identities :
  (forall a, @Math_cos Sample.platform (- a) == @Math_cos Sample.platform a)
  /\ (forall a, @Math_sin Sample.platform (- a) == - @Math_sin Sample.platform a)
  /\ (forall a, @Math_cos Sample.platform a * @Math_cos Sample.platform a
                + @Math_sin Sample.platform a * @Math_sin Sample.platform a == 1).
Proof.
  assert (Hpos : forall a : Q, ~ 1 + a * a == 0).
  { intros a Ha. assert (0 <= a * a) by nra. lra. }
  repeat split; intro a; cbn [Math_cos Math_sin Sample.platform]; field;
    try apply Hpos.
Qed.

(** With the background box on, the two paddings are both 10 and a press on
  the centre of the drawn resize handle, at (120, 60), starts a resize. *)
Lemma boxed_text_resize_handle :
  Collage.drawPad Sample.boxedText = Collage.hitPad Sample.boxedText
  /\ Collage.interactionMode
       (@Collage.handleMouseDown Sample.platform
          (Collage.mkEditor [Sample.boxedText] (Some "title"%string) false
             Collage.MODE_NONE (Types.mkPoint 0 0) None)
          (Types.mkPoint 120 60))
     = Collage.RESIZE.
Proof. split; vm_compute; reflexivity. Qed.

(** ** Ducking under a clip *)

Lemma duckFrom_images (settings : Types.VideoSettings) (post : list Types.UploadedMedia)
  (t : Q) :
  Forall (fun m => Types.m_type m = Types.MImage) post ->
  Preview.duckFrom settings post t = [].
Proof.
  intro Hall. revert t. induction Hall as [|m post Hm Hall IH]; intro t.
  - reflexivity.
  - cbn [Preview.duckFrom]. rewrite Hm. cbn [app]. apply IH.
Qed.

(** The calls made on the ducking gain for a timeline that is a photo of
  5 seconds, a clip of 5 seconds with its original audio, then photos. *)
Lemma ducking_calls (settings : Types.VideoSettings) (img vid : Types.UploadedMedia)
  (post : list Types.UploadedMedia) :
  Types.m_type img = Types.MImage ->
  Types.photoDuration settings = 5 ->
  Types.m_type vid = Types.MVideo ->
  Types.m_duration vid = Some 5 ->
  JS.truthyFlag (Types.m_enableOriginalAudio vid) = true ->
  JS.truthyFlag (Types.m_missing vid) = false ->
  Forall (fun m => Types.m_type m = Types.MImage) post ->
  Preview.duckingEvents settings (img :: vid :: post)
  = [ Preview.setValueAtTime 1 0;
      Preview.setValueAtTime 1 (JS.max 0 (0 + 5));
      Preview.linearRampToValueAtTime 0.2 (JS.max 0 (0 + 5) + 0.3);
      Preview.setValueAtTime 0.2 (0 + 5 + 5 - 0.3);
      Preview.linearRampToValueAtTime 1 (0 + 5 + 5) ].
Proof.
  intros Himg Hphoto Hvid Hdur Haudio Hmissing Hpost.
  unfold Preview.duckingEvents. cbn [Preview.duckFrom].
  unfold Preview.slideSeconds. rewrite Himg, Hvid, Hdur, Hphoto, Haudio, Hmissing.
  cbn [negb andb app JS.orNum].
  change (Qeq_bool 5 0) with false. cbv iota.
  rewrite (duckFrom_images settings post _ Hpost). reflexivity.
Qed.

(** C5.  A photo of 5 seconds followed by a clip of 5 seconds that keeps its
  original audio (so the clip spans 5 s to 10 s), then any photos: the gain
  that the ducking stage applies to the music falls linearly from 1 to 0.2
  over [5, 5.3], is 0.2 on [5.3, 9.7] and rises linearly back to 1 over
  [9.7, 10]. *)
Theorem C5_ducking_envelope :
  forall (settings : Types.VideoSettings) (img vid : Types.UploadedMedia)
         (post : list Types.UploadedMedia) (t : Q),
    Types.m_type img = Types.MImage ->
    Types.photoDuration settings = 5 ->
    Types.m_type vid = Types.MVideo ->
    Types.m_duration vid = Some 5 ->
    JS.truthyFlag (Types.m_enableOriginalAudio vid) = true ->
    JS.truthyFlag (Types.m_missing vid) = false ->
    Forall (fun m => Types.m_type m = Types.MImage) post ->
    (5 <= t -> t <= 5.3 ->
     Preview.paramValueAt 1 (Preview.duckingEvents settings (img :: vid :: post)) t
     == 1 - 0.8 * ((t - 5) / 0.3))
    /\ (5.3 <= t -> t <= 9.7 ->
        Preview.paramValueAt 1 (Preview.duckingEvents settings (img :: vid :: post)) t
        == 0.2)
    /\ (9.7 <= t -> t <= 10 ->
        Preview.paramValueAt 1 (Preview.duckingEvents settings (img :: vid :: post)) t
        == 0.2 + 0.8 * ((t - 9.7) / 0.3)).
Proof.
  intros settings img vid post t Himg Hphoto Hvid Hdur Haudio Hmissing Hpost.
  rewrite (ducking_calls settings img vid post Himg Hphoto Hvid Hdur Haudio Hmissing Hpost).
  unfold Preview.paramValueAt.
  match goal with
  | |- context [Preview.timelineOf ?evs] =>
      let tl := eval vm_compute in (Preview.timelineOf evs) in
      change (Preview.timelineOf evs) with tl
  end.
  cbn [Preview.valueFrom Preview.ev_time Preview.ev_value].
  repeat split; intros Hlo Hhi.
  - rewrite (leb_true 0 t) by lra. rewrite (leb_true (5 # 1) t) by lra.
    destruct (Qlt_le_dec t (53 # 10)) as [Hlt|Hge].
    + rewrite (leb_false (53 # 10) t) by lra. field.
    + assert (Et : t == 53 # 10) by lra.
      rewrite (leb_true (53 # 10) t) by lra.
      rewrite (leb_false (97 # 10) t) by lra. rewrite Et. reflexivity.
  - rewrite (leb_true 0 t) by lra. rewrite (leb_true (5 # 1) t) by lra.
    rewrite (leb_true (53 # 10) t) by lra.
    destruct (Qlt_le_dec t (97 # 10)) as [Hlt|Hge].
    + rewrite (leb_false (97 # 10) t) by lra. reflexivity.
    + rewrite (leb_true (97 # 10) t) by lra.
      assert (Et : t == 97 # 10) by lra.
      rewrite (leb_false (10 # 1) t) by lra. rewrite Et. reflexivity.
  - rewrite (leb_true 0 t) by lra. rewrite (leb_true (5 # 1) t) by lra.
    rewrite (leb_true (53 # 10) t) by lra. rewrite (leb_true (97 # 10) t) by lra.
    destruct (Qlt_le_dec t (10 # 1)) as [Hlt|Hge].
    + rewrite (leb_false (10 # 1) t) by lra. field.
    + assert (Et : t == 10 # 1) by lra.
      rewrite (leb_true (10 # 1) t) by lra. rewrite Et. reflexivity.
Qed.

Lemma C5_ducking_envelope_witness :
  Preview.paramValueAt 1 (Preview.duckingEvents Sample.settings5 Sample.photoThenClip) 5.15
  == 1 - 0.8 * ((5.15 - 5) / 0.3)
  /\ Preview.paramValueAt 1 (Preview.duckingEvents Sample.settings5 Sample.photoThenClip) 6
     == 0.2
  /\ Preview.paramValueAt 1 (Preview.duckingEvents Sample.settings5 Sample.photoThenClip) 9.85
     == 0.2 + 0.8 * ((9.85 - 9.7) / 0.3).
Proof.
  split; [|split].
  - apply (C5_ducking_envelope Sample.settings5 (Sample.photo "intro")
             (Sample.clip "clip" 5) [] 5.15); try reflexivity; try constructor;
      discriminate.
  - apply (C5_ducking_envelope Sample.settings5 (Sample.photo "intro")
             (Sample.clip "clip" 5) [] 6); try reflexivity; try constructor;
      discriminate.
  - apply (C5_ducking_envelope Sample.settings5 (Sample.photo "intro")
             (Sample.clip "clip" 5) [] 9.85); try reflexivity; try constructor;
      discriminate.
Defined.

(** ** Termination of the track scheduling *)

(** A usable track moves the cursor forward by at least a fifteenth of a
  second. *)
Lemma advance_bound (buf : Preview.AudioBuffer) :
  JS.ltb (Preview.duration buf) 0.1 = false ->
  (1 # 15) <= Preview.duration buf - Preview.fadeTime buf.
Proof.
  intro Hu.
  assert (Hd : 0.1 <= Preview.duration buf).
  { destruct (Qlt_le_dec (Preview.duration buf) 0.1) as [Hlt|Hge]; [|exact Hge].
    apply ltb_true in Hlt. congruence. }
  unfold Preview.fadeTime, Preview.CROSSFADE_DURATION, JS.min.
  assert (E3 : Preview.duration buf / 3 == Preview.duration buf * (1 # 3)) by field.
  destruct (Q.min_spec 0.5 (Preview.duration buf / 3)) as [[Hlt Hm]|[Hle Hm]];
    rewrite Hm.
  - rewrite E3 in Hlt. lra.
  - rewrite E3. lra.
Qed.

Lemma remaining_decreases (videoDuration cursor adv : Q) :
  cursor < videoDuration -> (1 # 15) <= adv ->
  (Preview.remaining videoDuration (cursor + adv) < Preview.remaining videoDuration cursor)%nat.
Proof.
  intros Hlt Hadv. unfold Preview.remaining.
  set (X := (videoDuration - cursor) * 15).
  assert (HX : 0 < X) by (unfold X; lra).
  assert (Hceil : (1 <= Qceiling X)%Z).
  { pose proof (Qle_ceiling X) as Hc.
    assert (Hpos : inject_Z 0 < inject_Z (Qceiling X)) by (change (inject_Z 0) with 0; lra).
    rewrite <- Zlt_Qlt in Hpos. lia. }
  assert (Hstep : (Qceiling ((videoDuration - (cursor + adv)) * 15) <= Qceiling X - 1)%Z).
  { rewrite <- (Qceiling_Z (Qceiling X - 1)).
    apply Qceiling_resp_le.
    unfold Z.sub. rewrite inject_Z_plus, inject_Z_opp.
    pose proof (Qle_ceiling X) as Hc.
    change (inject_Z 1) with 1. unfold X in *. lra. }
  lia.
Qed.

Lemma scheduleStep_decreases (buffers : list (option Preview.AudioBuffer))
  (videoDuration : Q) (st st' : Preview.ScheduleState) :
  Preview.scheduleStep buffers videoDuration st = Preview.Continue st' ->
  (Preview.loopMeasure videoDuration st' < Preview.loopMeasure videoDuration st)%nat.
Proof.
  unfold Preview.scheduleStep, Preview.loopMeasure.
  destruct (JS.ltb (Preview.cursorTime st) videoDuration) eqn:Ecur; [|discriminate].
  apply ltb_spec in Ecur.
  assert (Hskip :
    (if (100 <? S (Preview.trackIndex st))%nat
     then Preview.Exit
            (Preview.mkSchedule (Preview.cursorTime st) (S (Preview.trackIndex st))
               (Preview.sources st))
     else Preview.Continue
            (Preview.mkSchedule (Preview.cursorTime st) (S (Preview.trackIndex st))
               (Preview.sources st))) = Preview.Continue st' ->
    (Preview.remaining videoDuration (Preview.cursorTime st') * 102 + (101 - Preview.trackIndex st')
     < Preview.remaining videoDuration (Preview.cursorTime st) * 102 + (101 - Preview.trackIndex st))%nat).
  { destruct (100 <? S (Preview.trackIndex st))%nat eqn:Ecap; [discriminate|].
    apply Nat.ltb_ge in Ecap. intro E. injection E as <-.
    cbn [Preview.cursorTime Preview.trackIndex]. lia. }
  destruct (Preview.bufferAt buffers (Preview.trackIndex st)) as [buf|]; [|exact Hskip].
  destruct (JS.ltb (Preview.duration buf) 0.1) eqn:Eshort; [exact Hskip|].
  intro E. injection E as <-. cbn [Preview.cursorTime Preview.trackIndex].
  pose proof (remaining_decreases videoDuration (Preview.cursorTime st)
                (Preview.duration buf - Preview.fadeTime buf) Ecur
                (advance_bound buf Eshort)).
  lia.
Qed.

Lemma scheduleLoop_terminates (buffers : list (option Preview.AudioBuffer))
  (videoDuration : Q) (fuel : nat) :
  forall st,
    (Preview.loopMeasure videoDuration st < fuel)%nat ->
    exists final, Preview.scheduleLoop buffers videoDuration fuel st = Some final.
Proof.
  induction fuel as [|fuel IH]; intros st Hm; [lia|].
  cbn [Preview.scheduleLoop].
  destruct (Preview.scheduleStep buffers videoDuration st) as [st'|st'] eqn:Estep.
  - apply IH. pose proof (scheduleStep_decreases _ _ _ _ Estep). lia.
  - eexists. reflexivity.
Qed.

Lemma scheduleLoop_more_fuel (buffers : list (option Preview.AudioBuffer))
  (videoDuration : Q) (fuel : nat) :
  forall st final extra,
    Preview.scheduleLoop buffers videoDuration fuel st = Some final ->
    Preview.scheduleLoop buffers videoDuration (fuel + extra) st = Some final.
Proof.
  induction fuel as [|fuel IH]; intros st final extra Hrun; [discriminate|].
  cbn [Preview.scheduleLoop Nat.add] in *.
  destruct (Preview.scheduleStep buffers videoDuration st) as [st'|st'].
  - now apply IH.
  - exact Hrun.
Qed.

(** When the loop exits, the cursor has reached the end of the video or the
  attempt counter has passed 100. *)
Lemma scheduleLoop_exit (buffers : list (option Preview.AudioBuffer))
  (videoDuration : Q) (fuel : nat) :
  forall st final,
    Preview.scheduleLoop buffers videoDuration fuel st = Some final ->
    videoDuration <= Preview.cursorTime final \/ (100 < Preview.trackIndex final)%nat.
Proof.
  induction fuel as [|fuel IH]; intros st final Hrun; [discriminate|].
  cbn [Preview.scheduleLoop] in Hrun.
  destruct (Preview.scheduleStep buffers videoDuration st) as [st'|st'] eqn:Estep.
  - now apply (IH st').
  - injection Hrun as <-. unfold Preview.scheduleStep in Estep.
    destruct (JS.ltb (Preview.cursorTime st) videoDuration) eqn:Ecur.
    + right.
      destruct (Preview.bufferAt buffers (Preview.trackIndex st)) as [buf|];
        [destruct (JS.ltb (Preview.duration buf) 0.1); [|discriminate]|];
        (destruct (100 <? S (Preview.trackIndex st))%nat eqn:Ecap; [|discriminate]);
        injection Estep as <-; cbn [Preview.trackIndex];
        now apply Nat.ltb_lt in Ecap.
    + left. injection Estep as <-.
      destruct (Qlt_le_dec (Preview.cursorTime st) videoDuration) as [Hlt|Hge];
        [|exact Hge].
      apply ltb_true in Hlt. congruence.
Qed.

(** With at least one buffer, [setupAudioGraph] builds the graph: the
  scheduled sources, the ducking calls and the master fade. *)
Lemma setupAudioGraph_builds (settings : Types.VideoSettings)
  (mediaList : list Types.UploadedMedia) (b : option Preview.AudioBuffer)
  (buffers : list (option Preview.AudioBuffer)) :
  exists (fuel : nat) (graph : Preview.AudioGraph),
    Preview.setupAudioGraph fuel settings mediaList (b :: buffers) = Some graph
    /\ Preview.g_ducking graph = Preview.duckingEvents settings mediaList
    /\ Preview.g_master graph
       = Preview.masterEvents (Preview.calculateTotalDuration settings mediaList / 1000).
Proof.
  set (videoDuration := Preview.calculateTotalDuration settings mediaList / 1000).
  destruct (scheduleLoop_terminates (b :: buffers) videoDuration
              (S (Preview.loopMeasure videoDuration (Preview.mkSchedule 0 0 [])))
              (Preview.mkSchedule 0 0 []) ltac:(lia)) as [final Hrun].
  exists (S (Preview.loopMeasure videoDuration (Preview.mkSchedule 0 0 []))).
  eexists. unfold Preview.setupAudioGraph. fold videoDuration. rewrite Hrun.
  repeat split.
Qed.

(** C6.  For every list of decoded buffers, absent ones and ones of zero
  length included, and every video duration, the scheduling loop exits:
  some amount of fuel lets it return its final state, and more fuel
  returns the same state.  A usable track (at least 0.1 s long) moves the
  cursor forward by its duration minus min(0.5, duration / 3), which is
  positive; an unusable track only counts an attempt, and the loop exits
  once the counter has passed 100.  On exit the cursor has reached the end
  of the video or the counter has passed 100. *)
Theorem C6_scheduling_terminates :
  forall (buffers : list (option Preview.AudioBuffer)) (videoDuration : Q),
    (forall buf : Preview.AudioBuffer,
        Preview.usable (Some buf) = true ->
        0 < Preview.duration buf - Preview.fadeTime buf
        /\ Preview.fadeTime buf == JS.min 0.5 (Preview.duration buf / 3)
        /\ forall st : Preview.ScheduleState,
             Preview.cursorTime st < videoDuration ->
             Preview.bufferAt buffers (Preview.trackIndex st) = Some buf ->
             exists st',
               Preview.scheduleStep buffers videoDuration st = Preview.Continue st'
               /\ Preview.cursorTime st'
                  = Preview.cursorTime st + (Preview.duration buf - Preview.fadeTime buf))
    /\ (forall st : Preview.ScheduleState,
           Preview.cursorTime st < videoDuration ->
           Preview.usable (Preview.bufferAt buffers (Preview.trackIndex st)) = false ->
           (100 <= Preview.trackIndex st)%nat ->
           exists st', Preview.scheduleStep buffers videoDuration st = Preview.Exit st')
    /\ (exists (fuel : nat) (final : Preview.ScheduleState),
           Preview.scheduleLoop buffers videoDuration fuel (Preview.mkSchedule 0 0 [])
           = Some final
           /\ (forall extra : nat,
                  Preview.scheduleLoop buffers videoDuration (fuel + extra)
                    (Preview.mkSchedule 0 0 []) = Some final)
           /\ (videoDuration <= Preview.cursorTime final
               \/ (100 < Preview.trackIndex final)%nat)).
Proof.
  intros buffers videoDuration. split; [|split].
  - intros buf Hu. unfold Preview.usable in Hu. apply negb_true_iff in Hu.
    pose proof (advance_bound buf Hu) as Hadv.
    split; [lra|]. split; [reflexivity|].
    intros st Hcur Hbuf. unfold Preview.scheduleStep.
    rewrite (ltb_true _ _ Hcur), Hbuf, Hu.
    eexists. split; reflexivity.
  - intros st Hcur Hu Hcap. unfold Preview.scheduleStep.
    rewrite (ltb_true _ _ Hcur).
    assert (Hlt : (100 <? S (Preview.trackIndex st))%nat = true)
      by (apply Nat.ltb_lt; lia).
    unfold Preview.usable in Hu.
    destruct (Preview.bufferAt buffers (Preview.trackIndex st)) as [buf|].
    + apply negb_false_iff in Hu. rewrite Hu, Hlt. eexists. reflexivity.
    + rewrite Hlt. eexists. reflexivity.
  - destruct (scheduleLoop_terminates buffers videoDuration
                (S (Preview.loopMeasure videoDuration (Preview.mkSchedule 0 0 [])))
                (Preview.mkSchedule 0 0 []) ltac:(lia)) as [final Hrun].
    exists (S (Preview.loopMeasure videoDuration (Preview.mkSchedule 0 0 []))), final.
    split; [exact Hrun|]. split.
    + intro extra. now apply scheduleLoop_more_fuel.
    + eapply scheduleLoop_exit. exact Hrun.
Qed.

Lemma C6_scheduling_terminates_witness :
  (0 < Preview.duration (Preview.mkBuffer 2) - Preview.fadeTime (Preview.mkBuffer 2))
  /\ (exists st',
        Preview.scheduleStep Sample.tracks 10 (Preview.mkSchedule 0 100 [])
        = Preview.Exit st')
  /\ (exists (fuel : nat) (final : Preview.ScheduleState),
        Preview.scheduleLoop Sample.tracks 10 fuel (Preview.mkSchedule 0 0 []) = Some final
        /\ (forall extra : nat,
               Preview.scheduleLoop Sample.tracks 10 (fuel + extra)
                 (Preview.mkSchedule 0 0 []) = Some final)
        /\ (10 <= Preview.cursorTime final \/ (100 < Preview.trackIndex final)%nat)).
Proof.
  destruct (C6_scheduling_terminates Sample.tracks 10) as [Husable [Hcap Hloop]].
  split; [|split].
  - apply (Husable (Preview.mkBuffer 2)). reflexivity.
  - apply (Hcap (Preview.mkSchedule 0 100 [])).
    + reflexivity.
    + reflexivity.
    + apply le_n.
  - exact Hloop.
Defined.

(* ------------------------------------------------------------------ *)
(** * Further properties *)

(** ** The slide of a clock value *)

(** X1.  For every media list and every clock value from 0 up to, but not
    including, the total duration, the search finds a slide of the list: its
    index is in range, the duration it reports is the one of that slide, the
    start it reports is the sum of the durations of the slides before it, and
    the local time lies between 0 and the duration of the slide. *)
Theorem findSlide_in_timeline :
  forall (settings : Types.VideoSettings) (mediaList : list Types.UploadedMedia) (t : Q),
    0 <= t ->
    t < Preview.calculateTotalDuration settings mediaList ->
    exists m : Types.UploadedMedia,
      nth_error mediaList (Preview.slideIndex (Preview.findSlide settings mediaList t))
      = Some m
      /\ Preview.slideDuration (Preview.findSlide settings mediaList t)
         = Preview.slideSeconds settings m * 1000
      /\ Preview.currentSlideStart (Preview.findSlide settings mediaList t)
         == Preview.sumMs settings
              (firstn (Preview.slideIndex (Preview.findSlide settings mediaList t)) mediaList)
      /\ 0 <= Preview.timeInSlide (Preview.findSlide settings mediaList t) t
      /\ Preview.timeInSlide (Preview.findSlide settings mediaList t) t
         < Preview.slideDuration (Preview.findSlide settings mediaList t).
Proof. exact findSlide_located. Qed.

Lemma findSlide_in_timeline_witness :
  exists m : Types.UploadedMedia,
    nth_error Sample.photoThenClip
      (Preview.slideIndex (Preview.findSlide Sample.settings5 Sample.photoThenClip 7200))
    = Some m
    /\ Preview.slideDuration (Preview.findSlide Sample.settings5 Sample.photoThenClip 7200)
       = Preview.slideSeconds Sample.settings5 m * 1000
    /\ Preview.currentSlideStart (Preview.findSlide Sample.settings5 Sample.photoThenClip 7200)
       == Preview.sumMs Sample.settings5
            (firstn (Preview.slideIndex
                       (Preview.findSlide Sample.settings5 Sample.photoThenClip 7200))
               Sample.photoThenClip)
    /\ 0 <= Preview.timeInSlide (Preview.findSlide Sample.settings5 Sample.photoThenClip 7200) 7200
    /\ Preview.timeInSlide (Preview.findSlide Sample.settings5 Sample.photoThenClip 7200) 7200
       < Preview.slideDuration (Preview.findSlide Sample.settings5 Sample.photoThenClip 7200).
Proof.
  apply (findSlide_in_timeline Sample.settings5 Sample.photoThenClip 7200);
    vm_compute; [discriminate|reflexivity].
Defined.

Lemma sumMs_nonneg (settings : Types.VideoSettings) (l : list Types.UploadedMedia) :
  Forall (fun m => 0 <= Preview.slideSeconds settings m) l -> 0 <= Preview.sumMs settings l.
Proof.
  induction 1 as [|m l Hm Hall IH]; cbn [Preview.sumMs]; lra.
Qed.

Lemma findSlideFrom_none (settings : Types.VideoSettings) (t : Q)
  (rest : list Types.UploadedMedia) :
  Forall (fun m => 0 <= Preview.slideSeconds settings m) rest ->
  forall (i : nat) (start : Q),
    t < start \/ start + Preview.sumMs settings rest <= t ->
    Preview.slideIndex (Preview.findSlideFrom settings t rest i start) = 0%nat
    /\ Preview.slideDuration (Preview.findSlideFrom settings t rest i start) = 0
    /\ Preview.currentSlideStart (Preview.findSlideFrom settings t rest i start)
       == start + Preview.sumMs settings rest.
Proof.
  induction 1 as [|m rest Hm Hall IH]; intros i start Hout; cbn [Preview.findSlideFrom Preview.sumMs].
  - repeat split. cbn. ring.
  - pose proof (sumMs_nonneg settings rest Hall) as Hsum.
    assert (Htest : JS.leb start t
                    && JS.ltb t (start + Preview.slideSeconds settings m * 1000) = false).
    { destruct Hout as [Hbefore|Hafter].
      - rewrite (leb_false _ _ Hbefore). reflexivity.
      - cbn [Preview.sumMs] in Hafter. rewrite (ltb_false t) by lra. apply andb_false_r. }
    rewrite Htest.
    destruct (IH (S i) (start + Preview.slideSeconds settings m * 1000)) as [H0 [H1 H2]].
    + destruct Hout as [Hbefore|Hafter]; [left; lra|right].
      cbn [Preview.sumMs] in Hafter. lra.
    + repeat split; try assumption. rewrite H2. ring.
Qed.

(** X2.  With slide durations that are not negative, a clock value at or
    past the total duration matches no slide: the search leaves
    [slideIndex] at 0 and [slideDuration] at 0, its start has run up to the
    total, and the local time is the clock value minus the total. *)
Theorem findSlide_past_the_end :
  forall (settings : Types.VideoSettings) (mediaList : list Types.UploadedMedia) (t : Q),
    Forall (fun m => 0 <= Preview.slideSeconds settings m) mediaList ->
    Preview.calculateTotalDuration settings mediaList <= t ->
    Preview.slideIndex (Preview.findSlide settings mediaList t) = 0%nat
    /\ Preview.slideDuration (Preview.findSlide settings mediaList t) = 0
    /\ Preview.currentSlideStart (Preview.findSlide settings mediaList t)
       == Preview.calculateTotalDuration settings mediaList
    /\ Preview.timeInSlide (Preview.findSlide settings mediaList t) t
       == t - Preview.calculateTotalDuration settings mediaList.
Proof.
  intros settings mediaList t Hnonneg Hpast.
  pose proof (total_is_sum settings mediaList) as Htot.
  destruct (findSlideFrom_none settings t mediaList Hnonneg 0 0) as [H0 [H1 H2]].
  { right. lra. }
  unfold Preview.findSlide, Preview.timeInSlide.
  repeat split; try assumption.
  - rewrite H2, Htot. ring.
  - rewrite H2, Htot. ring.
Qed.

Lemma findSlide_past_the_end_witness :
  Preview.slideIndex (Preview.findSlide Sample.settings5 Sample.photoThenClip 12000) = 0%nat
  /\ Preview.slideDuration (Preview.findSlide Sample.settings5 Sample.photoThenClip 12000) = 0
  /\ Preview.currentSlideStart (Preview.findSlide Sample.settings5 Sample.photoThenClip 12000)
     == Preview.calculateTotalDuration Sample.settings5 Sample.photoThenClip
  /\ Preview.timeInSlide (Preview.findSlide Sample.settings5 Sample.photoThenClip 12000) 12000
     == 12000 - Preview.calculateTotalDuration Sample.settings5 Sample.photoThenClip.
Proof.
  apply (findSlide_past_the_end Sample.settings5 Sample.photoThenClip 12000).
  - repeat constructor; vm_compute; discriminate.
  - vm_compute. discriminate.
Defined.

(** ** Jumping to a slide *)

Lemma findSlideFrom_at (settings : Types.VideoSettings) (t : Q)
  (rest : list Types.UploadedMedia) :
  forall (j i : nat) (start : Q) (m : Types.UploadedMedia),
    Forall (fun m' => 0 <= Preview.slideSeconds settings m') (firstn j rest) ->
    nth_error rest j = Some m ->
    start + Preview.sumMs settings (firstn j rest) <= t ->
    t < start + Preview.sumMs settings (firstn j rest) + Preview.slideSeconds settings m * 1000 ->
    Preview.slideIndex (Preview.findSlideFrom settings t rest i start) = (i + j)%nat
    /\ Preview.slideDuration (Preview.findSlideFrom settings t rest i start)
       = Preview.slideSeconds settings m * 1000
    /\ Preview.currentSlideStart (Preview.findSlideFrom settings t rest i start)
       == start + Preview.sumMs settings (firstn j rest).
Proof.
  induction rest as [|m0 rest IH]; intros j i start m Hnonneg Hnth Hlo Hhi.
  - destruct j; discriminate.
  - destruct j as [|j]; cbn [nth_error firstn Preview.sumMs Preview.findSlideFrom] in *.
    + injection Hnth as ->.
      rewrite leb_true by lra. rewrite ltb_true by lra.
      cbn [andb Preview.slideIndex Preview.slideDuration Preview.currentSlideStart].
      rewrite Nat.add_0_r. repeat split. ring.
    + inversion Hnonneg as [|? ? Hm0 Hrest]; subst.
      pose proof (sumMs_nonneg settings _ Hrest) as Hsum.
      rewrite (ltb_false t) by lra. rewrite andb_false_r.
      destruct (IH j (S i) (start + Preview.slideSeconds settings m0 * 1000) m Hrest Hnth)
        as [H0 [H1 H2]]; try lra.
      repeat split; try assumption; [lia|]. rewrite H2. ring.
Qed.

Lemma sumStarts_spec (settings : Types.VideoSettings) (mediaList : list Types.UploadedMedia) :
  forall (count i : nat) (time : Q),
    (i + count <= List.length mediaList)%nat ->
    exists v,
      Preview.sumStarts settings mediaList i count time = Some v
      /\ v == time + Preview.sumMs settings (firstn count (skipn i mediaList)).
Proof.
  induction count as [|count IH]; intros i time Hlen; cbn [Preview.sumStarts].
  - exists time. split; [reflexivity|]. cbn. ring.
  - destruct (nth_error mediaList i) as [m|] eqn:Hnth.
    + destruct (IH (S i) (time + Preview.slideSeconds settings m * 1000) ltac:(lia))
        as [v [Hv Heq]].
      exists v. split; [exact Hv|].
      rewrite Heq.
      assert (Hskip : skipn i mediaList = m :: skipn (S i) mediaList).
      { clear - Hnth. revert i Hnth.
        induction mediaList as [|a l IHl]; intros [|i] Hnth; try discriminate.
        - injection Hnth as ->. reflexivity.
        - cbn [skipn]. now apply IHl. }
      rewrite Hskip. cbn [firstn Preview.sumMs]. ring.
    + apply nth_error_None in Hnth. lia.
Qed.

Lemma sumStarts_out_of_range (settings : Types.VideoSettings)
  (mediaList : list Types.UploadedMedia) :
  forall (count i : nat) (time : Q),
    (List.length mediaList < i + count)%nat ->
    (i <= List.length mediaList)%nat ->
    Preview.sumStarts settings mediaList i count time = None.
Proof.
  induction count as [|count IH]; intros i time Hlen Hi; cbn [Preview.sumStarts].
  - lia.
  - destruct (nth_error mediaList i) as [m|] eqn:Hnth; [|reflexivity].
    apply IH; [lia|].
    assert (nth_error mediaList i <> None) by congruence.
    apply nth_error_Some in H. lia.
Qed.

(** X3.  A jump to slide [k] of the list, with durations that are not
    negative before it and a slide [k] longer than 100 ms, seeks to a clock
    value whose slide is [k], at local time 100.  A jump to an index past
    the length of a non-empty list reads an absent slide and throws. *)
Theorem jump_lands_on_slide :
  forall (settings : Types.VideoSettings) (mediaList : list Types.UploadedMedia)
         (k : nat) (m : Types.UploadedMedia),
    (nth_error mediaList k = Some m ->
     Forall (fun m' => 0 <= Preview.slideSeconds settings m') (firstn k mediaList) ->
     100 < Preview.slideSeconds settings m * 1000 ->
     exists time,
       Preview.jumpTo settings mediaList (Some k) = Preview.SeekTo time
       /\ Preview.slideIndex (Preview.findSlide settings mediaList time) = k
       /\ Preview.timeInSlide (Preview.findSlide settings mediaList time) time == 100)
    /\ (mediaList <> [] -> (List.length mediaList < k)%nat ->
        Preview.jumpTo settings mediaList (Some k) = Preview.JumpThrew).
Proof.
  intros settings mediaList k m. split.
  - intros Hnth Hnonneg Hlong.
    assert (Hk : (k < List.length mediaList)%nat).
    { apply nth_error_Some. congruence. }
    destruct (sumStarts_spec settings mediaList k 0 0 ltac:(lia)) as [v [Hv Heq]].
    cbn [skipn] in Heq.
    exists (v + 100). unfold Preview.jumpTo. rewrite Hv.
    split; [destruct mediaList; [cbn in Hk; lia|reflexivity]|].
    destruct (findSlideFrom_at settings (v + 100) mediaList k 0 0 m Hnonneg Hnth)
      as [H0 [H1 H2]]; try lra.
    unfold Preview.findSlide, Preview.timeInSlide.
    split; [exact H0|]. rewrite H2, Heq. ring.
  - intros Hne Hlen. unfold Preview.jumpTo.
    rewrite (sumStarts_out_of_range settings mediaList k 0 0) by lia.
    destruct mediaList; [contradiction|reflexivity].
Qed.

Lemma jump_lands_on_slide_witness :
  (exists time,
      Preview.jumpTo Sample.settings5 Sample.photoThenClip (Some 1%nat) = Preview.SeekTo time
      /\ Preview.slideIndex (Preview.findSlide Sample.settings5 Sample.photoThenClip time)
         = 1%nat
      /\ Preview.timeInSlide (Preview.findSlide Sample.settings5 Sample.photoThenClip time) time
         == 100)
  /\ Preview.jumpTo Sample.settings5 Sample.photoThenClip (Some 3%nat) = Preview.JumpThrew.
Proof.
  split.
  - apply (proj1 (jump_lands_on_slide Sample.settings5 Sample.photoThenClip 1
                    (Sample.clip "clip" 5))).
    + reflexivity.
    + repeat constructor. vm_compute. discriminate.
    + vm_compute. reflexivity.
  - apply (proj2 (jump_lands_on_slide Sample.settings5 Sample.photoThenClip 3
                    (Sample.clip "clip" 5))).
    + discriminate.
    + repeat constructor.
Defined.

(** ** The clock of a frame *)

Lemma rem_range (a b : Q) : 0 <= a -> 0 < b -> 0 <= JS.rem a b /\ JS.rem a b < b.
Proof.
  intros Ha Hb. unfold JS.rem, JS.trunc.
  assert (Hq : 0 <= a / b).
  { apply Qle_shift_div_l; [exact Hb|]. lra. }
  apply Qle_bool_iff in Hq as Hqb. rewrite Hqb.
  pose proof (Qfloor_le (a / b)) as Hlo.
  pose proof (Qlt_floor (a / b)) as Hhi.
  rewrite inject_Z_plus in Hhi. change (inject_Z 1) with 1 in Hhi.
  set (f := inject_Z (Qfloor (a / b))) in *.
  assert (Hab : a == a / b * b) by (field; lra).
  split.
  - assert (f * b <= a / b * b) by (apply Qmult_le_compat_r; lra). lra.
  - assert (a / b * b < (f + 1) * b) by (apply Qmult_lt_compat_r; lra). lra.
Qed.

(** X4.  The clock of an export.  [startRendering] records the total
    duration and requests the frames from the [drawFrame] that was made
    with [appState] at [RENDERING].  With a total of at least 1 ms and an
    elapsed time that is not negative: once the elapsed time has reached the
    total the frame stops the export and draws nothing; before that the
    clock is the elapsed time itself while that is at most the total minus
    1 ms, and the total minus 1 ms after that.  So the clock follows the
    elapsed time, it lies from 0 up to, but not including, the total, and
    the search finds the slide of the list whose time span holds it. *)
Theorem export_clock_follows_elapsed :
  forall (settings : Types.VideoSettings) (mediaList : list Types.UploadedMedia)
         (playing : bool) (manualSeekTime : option Q) (elapsed : Q),
    0 <= elapsed ->
    1 <= Preview.calculateTotalDuration settings mediaList ->
    let total := Preview.calculateTotalDuration settings mediaList in
    (total <= elapsed ->
     Preview.loopTimeOf Types.RENDERING playing manualSeekTime elapsed total total = None)
    /\ (elapsed < total ->
        exists (loopTime : Q) (m : Types.UploadedMedia),
          Preview.loopTimeOf Types.RENDERING playing manualSeekTime elapsed total total
          = Some loopTime
          /\ (elapsed <= total - 1 -> loopTime == elapsed)
          /\ (total - 1 <= elapsed -> loopTime == total - 1)
          /\ 0 <= loopTime
          /\ loopTime < total
          /\ nth_error mediaList
               (Preview.slideIndex (Preview.findSlide settings mediaList loopTime))
             = Some m
          /\ Preview.slideDuration (Preview.findSlide settings mediaList loopTime)
             = Preview.slideSeconds settings m * 1000
          /\ Preview.currentSlideStart (Preview.findSlide settings mediaList loopTime)
             <= loopTime
          /\ loopTime
             < Preview.currentSlideStart (Preview.findSlide settings mediaList loopTime)
               + Preview.slideSeconds settings m * 1000).
Proof.
  intros settings mediaList playing manualSeekTime elapsed Helapsed Htotal.
  cbv zeta. set (total := Preview.calculateTotalDuration settings mediaList) in *.
  split.
  - intro Hdone. unfold Preview.loopTimeOf. cbn [Types.appState_eqb].
    now rewrite (leb_true _ _ Hdone).
  - intro Hrun. unfold Preview.loopTimeOf. cbn [Types.appState_eqb].
    rewrite (leb_false _ _ Hrun).
    assert (Hmin : (elapsed <= total - 1 -> JS.min elapsed (total - 1) == elapsed)
                   /\ (total - 1 <= elapsed -> JS.min elapsed (total - 1) == total - 1)).
    { unfold JS.min. split; intro Hle; [now apply Q.min_l|now apply Q.min_r]. }
    destruct Hmin as [Hmin1 Hmin2].
    assert (Hlo : 0 <= JS.min elapsed (total - 1)).
    { destruct (Qlt_le_dec elapsed (total - 1)) as [Hlt|Hge].
      - rewrite Hmin1 by lra. exact Helapsed.
      - rewrite (Hmin2 Hge). lra. }
    assert (Hhi : JS.min elapsed (total - 1) < total).
    { pose proof (min_le_r elapsed (total - 1)). lra. }
    destruct (findSlide_located settings mediaList _ Hlo Hhi)
      as (m & Hm & Hdur & _ & Ht0 & Ht1).
    exists (JS.min elapsed (total - 1)), m.
    split; [reflexivity|]. split; [exact Hmin1|]. split; [exact Hmin2|].
    split; [exact Hlo|]. split; [exact Hhi|]. split; [exact Hm|]. split; [exact Hdur|].
    unfold Preview.timeInSlide in Ht0, Ht1. rewrite Hdur in Ht1. split; lra.
Qed.

Lemma export_clock_follows_elapsed_witness :
  (exists (loopTime : Q) (m : Types.UploadedMedia),
      Preview.loopTimeOf Types.RENDERING false None 7250
        (Preview.calculateTotalDuration Sample.settings5 Sample.photoThenClip)
        (Preview.calculateTotalDuration Sample.settings5 Sample.photoThenClip)
      = Some loopTime
      /\ loopTime == 7250
      /\ nth_error Sample.photoThenClip
           (Preview.slideIndex
              (Preview.findSlide Sample.settings5 Sample.photoThenClip loopTime))
         = Some m)
  /\ Preview.loopTimeOf Types.RENDERING false None 10000
       (Preview.calculateTotalDuration Sample.settings5 Sample.photoThenClip)
       (Preview.calculateTotalDuration Sample.settings5 Sample.photoThenClip)
     = None.
Proof.
  assert (H0 : 0 <= 7250) by (vm_compute; discriminate).
  assert (H0' : 0 <= 10000) by (vm_compute; discriminate).
  assert (H1 : 1 <= Preview.calculateTotalDuration Sample.settings5 Sample.photoThenClip)
    by (vm_compute; discriminate).
  destruct (export_clock_follows_elapsed Sample.settings5 Sample.photoThenClip false None
              7250 H0 H1) as [_ Hrun].
  destruct (export_clock_follows_elapsed Sample.settings5 Sample.photoThenClip false None
              10000 H0' H1) as [Hdone _].
  split.
  - destruct Hrun as (loopTime & m & Hclock & Hsame & _ & _ & _ & Hm & _).
    + vm_compute. reflexivity.
    + exists loopTime, m. split; [exact Hclock|]. split; [|exact Hm].
      apply Hsame. vm_compute. discriminate.
  - apply Hdone. vm_compute. discriminate.
Defined.

(** ** Fitting a slide into the frame *)

(** X5.  An image or video element of positive size, on a slide without
    collage data, is drawn by one [drawImage] between [save] and [restore]:
    the rectangle keeps the aspect ratio of the element, it is no wider than
    the frame width times the scale and no higher than the frame height
    times the scale, it reaches one of the two, and its centre is the centre
    of the frame moved by the offsets. *)
Theorem renderMedia_contains :
  forall (P : Platform) (env : Preview.FrameEnv) (cid : string)
         (timeSec alpha scale offsetX offsetY : Q)
         (el : Preview.MediaElement) (md : Types.UploadedMedia),
    Types.m_collageData md = None ->
    0 < Preview.mediaW el -> 0 < Preview.mediaH el -> 0 <= scale ->
    exists dx dy w h : Q,
      Preview.renderMedia env cid timeSec (Some el) alpha scale offsetX offsetY (Some md)
      = [ Canvas.ctx_save;
          Canvas.set_globalAlpha (JS.max 0 (JS.min 1 alpha));
          Canvas.ctx_drawImage (Preview.media_src el) dx dy w h;
          Canvas.ctx_restore ]
      /\ w * Preview.mediaH el == h * Preview.mediaW el
      /\ w <= Preview.canvas_width env * scale
      /\ h <= Preview.canvas_height env * scale
      /\ (w == Preview.canvas_width env * scale \/ h == Preview.canvas_height env * scale)
      /\ dx + w / 2 == Preview.canvas_width env / 2 + offsetX
      /\ dy + h / 2 == Preview.canvas_height env / 2 + offsetY.
Proof.
  intros P env cid timeSec alpha scale offsetX offsetY el md Hnc HW HH Hscale.
  unfold Preview.renderMedia. cbn [option_map]. rewrite Hnc.
  set (cw := Preview.canvas_width env). set (ch := Preview.canvas_height env).
  set (mw := Preview.mediaW el) in *. set (mh := Preview.mediaH el) in *.
  do 4 eexists. split; [reflexivity|].
  set (r := JS.min (cw / mw) (ch / mh)).
  assert (Hrw : r * mw <= cw /\ r * mh <= ch /\ (r * mw == cw \/ r * mh == ch)).
  { unfold r, JS.min.
    assert (Ew : cw / mw * mw == cw) by (field; lra).
    assert (Eh : ch / mh * mh == ch) by (field; lra).
    destruct (Q.min_spec (cw / mw) (ch / mh)) as [[Hlt Hm]|[Hle Hm]]; rewrite Hm.
    - repeat split; [lra| |left; exact Ew].
      assert (cw / mw * mh <= ch / mh * mh) by (apply Qmult_le_compat_r; lra). lra.
    - repeat split; [|lra|right; exact Eh].
      assert (ch / mh * mw <= cw / mw * mw) by (apply Qmult_le_compat_r; lra). lra. }
  destruct Hrw as [Hw [Hh Hone]].
  repeat split.
  - ring.
  - assert (r * mw * scale <= cw * scale) by (apply Qmult_le_compat_r; lra).
    assert (E : mw * (r * scale) == r * mw * scale) by ring. rewrite E. exact H.
  - assert (r * mh * scale <= ch * scale) by (apply Qmult_le_compat_r; lra).
    assert (E : mh * (r * scale) == r * mh * scale) by ring. rewrite E. exact H.
  - destruct Hone as [E|E]; [left|right].
    + rewrite <- E. ring.
    + rewrite <- E. ring.
  - field.
  - field.
Qed.

Lemma renderMedia_contains_witness :
  exists dx dy w h : Q,
    @Preview.renderMedia Sample.platform Sample.env "a" 0
      (Some (Preview.ImageEl "a.jpg" 4000 2000)) 1 1 0 0 (Some (Sample.photo "a"))
    = [ Canvas.ctx_save;
        Canvas.set_globalAlpha (JS.max 0 (JS.min 1 1));
        Canvas.ctx_drawImage "a.jpg" dx dy w h;
        Canvas.ctx_restore ]
    /\ w * 2000 == h * 4000
    /\ w <= 1280 * 1
    /\ h <= 720 * 1
    /\ (w == 1280 * 1 \/ h == 720 * 1)
    /\ dx + w / 2 == 1280 / 2 + 0
    /\ dy + h / 2 == 720 / 2 + 0.
Proof.
  apply (renderMedia_contains Sample.platform Sample.env "a"%string 0 1 1 0 0
           (Preview.ImageEl "a.jpg" 4000 2000) (Sample.photo "a"));
    vm_compute; reflexivity || discriminate.
Defined.

(** ** Transitions *)



Lemma zoom_range (ty : Types.TransitionType) (p : Q) :
  0 <= p -> p <= 1 -> 1 <= Preview.getZoomScale ty p /\ Preview.getZoomScale ty p <= 1.15.
Proof. intros H0 H1. destruct ty; cbn [Preview.getZoomScale]; split; lra. Qed.

(** X7.  For a clock value inside the timeline, the pipeline makes its
    [renderMedia] calls with finite numbers, and every call has an alpha
    between 0 and 1 and a scale between 1 and 1.15. *)
Theorem pipeline_alpha_and_scale :
  forall (env : Preview.FrameEnv) (settings : Types.VideoSettings)
         (mediaList : list Types.UploadedMedia) (current : Types.UploadedMedia) (t : Q),
    0 <= t ->
    t < Preview.calculateTotalDuration settings mediaList ->
    exists calls : list Preview.RenderCall,
      Preview.pipelineCalls env settings mediaList current
        (Preview.findSlide settings mediaList t) t = Some calls
      /\ Forall
           (fun c =>
              (0 <= Preview.rc_alpha c /\ Preview.rc_alpha c <= 1)
              /\ (1 <= Preview.rc_scale c /\ Preview.rc_scale c <= 1.15))
           calls.
Proof.
  intros env settings mediaList current t Hlo Hhi.
  rewrite (pipelineCalls_located env settings mediaList current t Hlo Hhi).
  eexists. split; [reflexivity|].
  destruct (findSlide_located settings mediaList t Hlo Hhi)
    as [m [_ [_ [_ [Hti0 Hti1]]]]].
  set (s := Preview.findSlide settings mediaList t) in *.
  assert (Hprog : 0 <= Preview.timeInSlide s t / Preview.slideDuration s
                  /\ Preview.timeInSlide s t / Preview.slideDuration s <= 1).
  { split.
    - apply Qle_shift_div_l; lra.
    - apply Qle_shift_div_r; lra. }
  destruct Hprog as [Hp0 Hp1].
  pose proof (zoom_range (Preview.transitionOf current) _ Hp0 Hp1) as Hzoom.
  match goal with
  | |- context [JS.max 0 (JS.min 1 ?q)] => destruct (clamp01 q) as [Ha0 Ha1]
  end.
  destruct (Preview.drawsAlone env settings (List.length mediaList) s t).
  - repeat constructor; cbn [Preview.rc_alpha Preview.rc_scale]; lra.
  - unfold Preview.transitionCalls.
    destruct (Preview.transitionOf current) eqn:Ety;
      repeat constructor; cbn [Preview.rc_alpha Preview.rc_scale]; try lra;
      try apply Hzoom.
Qed.

Lemma pipeline_alpha_and_scale_witness :
  exists calls : list Preview.RenderCall,
    Preview.pipelineCalls Sample.env Sample.settings5 Sample.photoThenClip
      (Sample.photo "intro")
      (Preview.findSlide Sample.settings5 Sample.photoThenClip 4500) 4500 = Some calls
    /\ Forall
         (fun c =>
            (0 <= Preview.rc_alpha c /\ Preview.rc_alpha c <= 1)
            /\ (1 <= Preview.rc_scale c /\ Preview.rc_scale c <= 1.15))
         calls.
Proof.
  apply (pipeline_alpha_and_scale Sample.env Sample.settings5 Sample.photoThenClip
           (Sample.photo "intro") 4500);
    vm_compute; reflexivity || discriminate.
Defined.

(** ** The scheduled tracks *)

Lemma chained_snoc (c : Q) (l : list Preview.ScheduledSource) (final : Q)
  (s : Preview.ScheduledSource) :
  Preview.chained c l final ->
  Preview.src_start s = final ->
  Preview.chained c (l ++ [s])
    (final + (Preview.duration (Preview.src_buffer s) - Preview.fadeTime (Preview.src_buffer s))).
Proof.
  revert c. induction l as [|a l IH]; intros c Hch Hs; cbn [app Preview.chained] in *.
  - subst. split; reflexivity.
  - destruct Hch as [Ha Hrest]. split; [exact Ha|]. now apply IH.
Qed.

Lemma bufferAt_in (buffers : list (option Preview.AudioBuffer)) (i : nat)
  (buf : Preview.AudioBuffer) :
  Preview.bufferAt buffers i = Some buf -> In (Some buf) buffers.
Proof.
  unfold Preview.bufferAt.
  destruct (nth_error buffers (i mod List.length buffers)) as [b|] eqn:E; [|discriminate].
  intros ->. eapply nth_error_In. exact E.
Qed.

Lemma scheduleStep_keeps (buffers : list (option Preview.AudioBuffer)) (videoDuration : Q)
  (st st' : Preview.ScheduleState) :
  Preview.scheduleInvariant buffers videoDuration st ->
  Preview.scheduleStep buffers videoDuration st = Preview.Continue st'
  \/ Preview.scheduleStep buffers videoDuration st = Preview.Exit st' ->
  Preview.scheduleInvariant buffers videoDuration st'.
Proof.
  intros [Hch [Hpos Hall]] Hstep. unfold Preview.scheduleStep in Hstep.
  destruct (JS.ltb (Preview.cursorTime st) videoDuration) eqn:Ecur.
  - apply ltb_spec in Ecur.
    assert (Hskip : forall r,
      (r = Preview.Continue st' \/ r = Preview.Exit st') ->
      r = (if (100 <? S (Preview.trackIndex st))%nat
           then Preview.Exit
                  (Preview.mkSchedule (Preview.cursorTime st) (S (Preview.trackIndex st))
                     (Preview.sources st))
           else Preview.Continue
                  (Preview.mkSchedule (Preview.cursorTime st) (S (Preview.trackIndex st))
                     (Preview.sources st))) ->
      Preview.scheduleInvariant buffers videoDuration st').
    { intros r Hr Er.
      assert (Est : st' = Preview.mkSchedule (Preview.cursorTime st)
                            (S (Preview.trackIndex st)) (Preview.sources st)).
      { destruct (100 <? S (Preview.trackIndex st))%nat; subst r;
          destruct Hr as [E|E]; congruence. }
      subst st'. repeat split; assumption. }
    destruct (Preview.bufferAt buffers (Preview.trackIndex st)) as [buf|] eqn:Ebuf.
    + destruct (JS.ltb (Preview.duration buf) 0.1) eqn:Eshort.
      * eapply Hskip; [exact Hstep|reflexivity].
      * destruct Hstep as [E|E]; [|discriminate]. injection E as <-.
        pose proof (advance_bound buf Eshort) as Hadv.
        assert (Hd : 0.1 <= Preview.duration buf).
        { destruct (Qlt_le_dec (Preview.duration buf) 0.1) as [Hlt|Hge]; [|exact Hge].
          apply ltb_true in Hlt. congruence. }
        unfold Preview.scheduleInvariant.
        cbn [Preview.sources Preview.cursorTime].
        split; [|split].
        -- apply (chained_snoc 0 (Preview.sources st) (Preview.cursorTime st)
                    (Preview.mkSource buf (Preview.cursorTime st)
                       (Preview.trackGainEvents buf (Preview.cursorTime st))));
             [exact Hch|reflexivity].
        -- lra.
        -- apply Forall_app. split; [exact Hall|].
           constructor; [|constructor].
           cbn [Preview.src_buffer Preview.src_start Preview.src_gain].
           repeat split; try assumption.
           eapply bufferAt_in. exact Ebuf.
    + eapply Hskip; [exact Hstep|reflexivity].
  - destruct Hstep as [E|E]; [discriminate|]. injection E as <-.
    repeat split; assumption.
Qed.

Lemma scheduleLoop_keeps (buffers : list (option Preview.AudioBuffer)) (videoDuration : Q)
  (fuel : nat) :
  forall st final,
    Preview.scheduleInvariant buffers videoDuration st ->
    Preview.scheduleLoop buffers videoDuration fuel st = Some final ->
    Preview.scheduleInvariant buffers videoDuration final.
Proof.
  induction fuel as [|fuel IH]; intros st final Hinv Hrun; [discriminate|].
  cbn [Preview.scheduleLoop] in Hrun.
  destruct (Preview.scheduleStep buffers videoDuration st) as [st'|st'] eqn:Estep.
  - apply (IH st'); [|exact Hrun].
    eapply scheduleStep_keeps; [exact Hinv|left; exact Estep].
  - injection Hrun as <-.
    eapply scheduleStep_keeps; [exact Hinv|right; exact Estep].
Qed.

(** The invariant holds of every state that the loop returns from the
  initial one. *)
Lemma scheduleLoop_invariant :
  forall (buffers : list (option Preview.AudioBuffer)) (videoDuration : Q)
         (fuel : nat) (final : Preview.ScheduleState),
    Preview.scheduleLoop buffers videoDuration fuel (Preview.mkSchedule 0 0 []) = Some final ->
    Preview.scheduleInvariant buffers videoDuration final.
Proof.
  intros buffers videoDuration fuel final Hrun.
  apply (scheduleLoop_keeps buffers videoDuration fuel (Preview.mkSchedule 0 0 []) final);
    [|exact Hrun].
  unfold Preview.scheduleInvariant. cbn. repeat split; [lra|constructor].
Qed.

(** X8.  Whatever the loop returns, its sources follow one another from 0:
    the first starts at 0 and each next one starts at the start of the one
    before plus its duration minus its fade, which is where that one begins
    to fade out; the chain ends at the final cursor.  Every source plays a
    buffer of the list of at least 0.1 s (never an absent or shorter one),
    starts at or after 0 and before the end of the video, and carries the
    gain automation computed for its start. *)
Theorem scheduled_sources_chain :
  forall (buffers : list (option Preview.AudioBuffer)) (videoDuration : Q)
         (fuel : nat) (final : Preview.ScheduleState),
    Preview.scheduleLoop buffers videoDuration fuel (Preview.mkSchedule 0 0 []) = Some final ->
    Preview.scheduleInvariant buffers videoDuration final.
Proof. exact scheduleLoop_invariant. Qed.

Lemma scheduled_sources_chain_witness :
  exists final,
    Preview.scheduleLoop Sample.tracks 10 200 (Preview.mkSchedule 0 0 []) = Some final
    /\ Preview.scheduleInvariant Sample.tracks 10 final.
Proof.
  eexists. split.
  - vm_compute. reflexivity.
  - apply (scheduled_sources_chain Sample.tracks 10 200). vm_compute. reflexivity.
Defined.

Lemma bufferAt_usable (buffers : list (option Preview.AudioBuffer)) (i : nat) :
  buffers <> [] ->
  Forall (fun b => Preview.usable b = true) buffers ->
  exists buf,
    Preview.bufferAt buffers i = Some buf /\ JS.ltb (Preview.duration buf) 0.1 = false.
Proof.
  intros Hne Hall. unfold Preview.bufferAt.
  assert (Hlt : (i mod List.length buffers < List.length buffers)%nat).
  { apply Nat.mod_upper_bound. destruct buffers; [contradiction|discriminate]. }
  destruct (nth_error buffers (i mod List.length buffers)) as [b|] eqn:E.
  - rewrite Forall_forall in Hall.
    specialize (Hall b (nth_error_In _ _ E)).
    destruct b as [buf|]; [|discriminate].
    exists buf. split; [reflexivity|].
    unfold Preview.usable in Hall. now apply negb_true_iff in Hall.
  - apply nth_error_None in E. lia.
Qed.

Lemma scheduleLoop_reaches_end (buffers : list (option Preview.AudioBuffer))
  (videoDuration : Q) (fuel : nat) :
  buffers <> [] ->
  Forall (fun b => Preview.usable b = true) buffers ->
  forall st final,
    Preview.scheduleLoop buffers videoDuration fuel st = Some final ->
    videoDuration <= Preview.cursorTime final.
Proof.
  intros Hne Hall. induction fuel as [|fuel IH]; intros st final Hrun; [discriminate|].
  cbn [Preview.scheduleLoop] in Hrun.
  destruct (Preview.scheduleStep buffers videoDuration st) as [st'|st'] eqn:Estep.
  - now apply (IH st').
  - injection Hrun as <-. unfold Preview.scheduleStep in Estep.
    destruct (JS.ltb (Preview.cursorTime st) videoDuration) eqn:Ecur.
    + destruct (bufferAt_usable buffers (Preview.trackIndex st) Hne Hall) as [buf [Hb Hu]].
      rewrite Hb, Hu in Estep. discriminate.
    + injection Estep as <-.
      destruct (Qlt_le_dec (Preview.cursorTime st) videoDuration) as [Hlt|Hge]; [|exact Hge].
      apply ltb_true in Hlt. congruence.
Qed.

Lemma fadeTime_below (buf : Preview.AudioBuffer) :
  0 <= Preview.duration buf ->
  0 <= Preview.fadeTime buf /\ Preview.fadeTime buf <= Preview.duration buf.
Proof.
  intro Hd. unfold Preview.fadeTime, Preview.CROSSFADE_DURATION, JS.min.
  assert (E3 : Preview.duration buf / 3 == Preview.duration buf * (1 # 3)) by field.
  destruct (Q.min_spec 0.5 (Preview.duration buf / 3)) as [[Hlt Hm]|[Hle Hm]];
    rewrite Hm; rewrite E3 in *; split; lra.
Qed.

Lemma chained_covers (l : list Preview.ScheduledSource) :
  forall (c final t : Q),
    Preview.chained c l final ->
    Forall (fun s => 0.1 <= Preview.duration (Preview.src_buffer s)) l ->
    c <= t -> t < final ->
    exists s,
      In s l
      /\ Preview.src_start s <= t
      /\ t < Preview.src_start s + Preview.duration (Preview.src_buffer s).
Proof.
  induction l as [|a l IH]; intros c final t Hch Hall Hlo Hhi; cbn [Preview.chained] in Hch.
  - subst. lra.
  - destruct Hch as [Ha Hrest]. inversion Hall as [|? ? Hda Hl]; subst.
    destruct (fadeTime_below (Preview.src_buffer a) ltac:(lra)) as [Hf0 Hf1].
    destruct (Qlt_le_dec t
                (Preview.src_start a
                 + (Preview.duration (Preview.src_buffer a)
                    - Preview.fadeTime (Preview.src_buffer a)))) as [Hin|Hout].
    + exists a. split; [left; reflexivity|]. split; lra.
    + destruct (IH _ final t Hrest Hl Hout Hhi) as [s [Hs Hcov]].
      exists s. split; [right; exact Hs|exact Hcov].
Qed.

(** X9.  When the list of buffers is not empty and every buffer is usable,
    the loop exits only when the cursor has reached the end of the video,
    and the scheduled tracks cover the video: at every time from 0 up to the
    end of the video some scheduled track is playing. *)
Theorem usable_tracks_cover_video :
  forall (buffers : list (option Preview.AudioBuffer)) (videoDuration : Q)
         (fuel : nat) (final : Preview.ScheduleState),
    buffers <> [] ->
    Forall (fun b => Preview.usable b = true) buffers ->
    Preview.scheduleLoop buffers videoDuration fuel (Preview.mkSchedule 0 0 []) = Some final ->
    videoDuration <= Preview.cursorTime final
    /\ forall t : Q,
         0 <= t -> t < videoDuration ->
         exists s,
           In s (Preview.sources final)
           /\ Preview.src_start s <= t
           /\ t < Preview.src_start s + Preview.duration (Preview.src_buffer s).
Proof.
  intros buffers videoDuration fuel final Hne Hall Hrun.
  pose proof (scheduleLoop_reaches_end buffers videoDuration fuel Hne Hall _ _ Hrun) as Hend.
  destruct (scheduleLoop_invariant buffers videoDuration fuel final Hrun)
    as [Hch [_ Hsrc]].
  split; [exact Hend|].
  intros t Ht0 Ht1.
  apply (chained_covers (Preview.sources final) 0 (Preview.cursorTime final) t);
    try assumption; [|lra].
  eapply Forall_impl; [|exact Hsrc]. intros s Hs. apply Hs.
Qed.

Lemma usable_tracks_cover_video_witness :
  exists final,
    Preview.scheduleLoop [Some (Preview.mkBuffer 2); Some (Preview.mkBuffer 4)] 10 50
      (Preview.mkSchedule 0 0 []) = Some final
    /\ 10 <= Preview.cursorTime final
    /\ forall t : Q,
         0 <= t -> t < 10 ->
         exists s,
           In s (Preview.sources final)
           /\ Preview.src_start s <= t
           /\ t < Preview.src_start s + Preview.duration (Preview.src_buffer s).
Proof.
  eexists. split.
  - vm_compute. reflexivity.
  - apply (usable_tracks_cover_video
             [Some (Preview.mkBuffer 2); Some (Preview.mkBuffer 4)] 10 50).
    + discriminate.
    + repeat constructor.
    + vm_compute. reflexivity.
Defined.

(** ** Envelopes of the gain stages *)

Lemma insertEvent_last (e : Preview.AutomationEvent) (tl : list Preview.AutomationEvent) :
  Forall (fun e' => Preview.ev_time e' <= Preview.ev_time e) tl ->
  Preview.insertEvent e tl = tl ++ [e].
Proof.
  induction 1 as [|e' tl He Hall IH]; cbn [Preview.insertEvent app].
  - reflexivity.
  - rewrite (ltb_false _ _ He). now rewrite IH.
Qed.

Lemma fold_insert_sorted (calls : list Preview.AutomationEvent) :
  forall acc,
    StronglySorted (fun a b => Preview.ev_time a <= Preview.ev_time b) (acc ++ calls) ->
    fold_left (fun tl e => Preview.insertEvent e tl) calls acc = acc ++ calls.
Proof.
  induction calls as [|e calls IH]; intros acc Hsorted; cbn [fold_left].
  - now rewrite app_nil_r.
  - assert (Hacc : Forall (fun e' => Preview.ev_time e' <= Preview.ev_time e) acc).
    { clear IH. induction acc as [|a acc IHacc]; [constructor|].
      cbn [app] in Hsorted. inversion Hsorted as [|? ? Hrest Ha]; subst.
      constructor.
      - rewrite Forall_forall in Ha. apply Ha. apply in_or_app. right. left. reflexivity.
      - now apply IHacc. }
    rewrite (insertEvent_last e acc Hacc).
    rewrite IH; rewrite <- app_assoc; [reflexivity|exact Hsorted].
Qed.

(** Calls made in the order of their times form the timeline as they are. *)
Lemma timelineOf_sorted (calls : list Preview.AutomationEvent) :
  StronglySorted (fun a b => Preview.ev_time a <= Preview.ev_time b) calls ->
  Preview.timelineOf calls = calls.
Proof. intro Hs. unfold Preview.timelineOf. now rewrite (fold_insert_sorted calls []). Qed.

(** X10.  For a video of positive duration the master gain is 1 up to the
    start of the fade-out, which is 2 seconds before the end or 0 for a
    shorter video; from there it falls linearly and it is 0 from the end of
    the video on. *)
Theorem master_fade_envelope :
  forall (videoDuration t : Q),
    0 < videoDuration ->
    (0 <= t -> t <= JS.max 0 (videoDuration - 2) ->
     Preview.paramValueAt 1 (Preview.masterEvents videoDuration) t == 1)
    /\ (JS.max 0 (videoDuration - 2) <= t -> t <= videoDuration ->
        Preview.paramValueAt 1 (Preview.masterEvents videoDuration) t
        == (videoDuration - t) / (videoDuration - JS.max 0 (videoDuration - 2)))
    /\ (videoDuration <= t ->
        Preview.paramValueAt 1 (Preview.masterEvents videoDuration) t == 0).
Proof.
  intros videoDuration t Hpos.
  unfold Preview.paramValueAt, Preview.masterEvents, Preview.FADE_OUT_DURATION.
  change (2.0) with (20 # 10).
  assert (E2 : videoDuration - (20 # 10) == videoDuration - 2) by ring.
  set (fs := JS.max 0 (videoDuration - (20 # 10))).
  assert (Efs : JS.max 0 (videoDuration - 2) == fs).
  { unfold fs, JS.max. now rewrite E2. }
  assert (Hfs : 0 <= fs /\ fs < videoDuration).
  { unfold fs. split; [apply max_ge_l|].
    unfold JS.max. destruct (Q.max_spec 0 (videoDuration - (20 # 10))) as [[_ Hm]|[_ Hm]];
      rewrite Hm; lra. }
  destruct Hfs as [Hfs0 Hfs1].
  rewrite timelineOf_sorted.
  2:{ repeat constructor; cbn [Preview.ev_time]; lra. }
  cbn [Preview.valueFrom Preview.ev_time Preview.ev_value].
  rewrite !Efs.
  split; [|split].
  - intros Ht0 Ht1. rewrite (leb_true 0 t Ht0).
    destruct (Qlt_le_dec t fs) as [Hlt|Hge].
    + rewrite (leb_false fs t Hlt). reflexivity.
    + rewrite (leb_true fs t Hge). rewrite (leb_false videoDuration t) by lra.
      assert (Et : t == fs) by lra. rewrite Et. field. lra.
  - intros Ht0 Ht1. rewrite (leb_true 0 t) by lra. rewrite (leb_true fs t Ht0).
    destruct (Qlt_le_dec t videoDuration) as [Hlt|Hge].
    + rewrite (leb_false videoDuration t Hlt). field. lra.
    + rewrite (leb_true videoDuration t Hge).
      assert (Et : t == videoDuration) by lra. rewrite Et. field. lra.
  - intros Ht. rewrite (leb_true 0 t) by lra. rewrite (leb_true fs t) by lra.
    rewrite (leb_true videoDuration t Ht). reflexivity.
Qed.

Lemma master_fade_envelope_witness :
  Preview.paramValueAt 1 (Preview.masterEvents 10) 3 == 1
  /\ Preview.paramValueAt 1 (Preview.masterEvents 10) 9 == (10 - 9) / (10 - JS.max 0 (10 - 2))
  /\ Preview.paramValueAt 1 (Preview.masterEvents 10) 11 == 0.
Proof.
  destruct (master_fade_envelope 10 3 eq_refl) as [H1 _].
  destruct (master_fade_envelope 10 9 eq_refl) as [_ [H2 _]].
  destruct (master_fade_envelope 10 11 eq_refl) as [_ [_ H3]].
  split; [|split].
  - apply H1; vm_compute; discriminate.
  - apply H2; vm_compute; discriminate.
  - apply H3. vm_compute. discriminate.
Defined.

Lemma duckFrom_quiet_prefix (settings : Types.VideoSettings)
  (pre rest : list Types.UploadedMedia) :
  Forall (fun m => Preview.ducks m = false) pre ->
  forall t,
    Preview.duckFrom settings (pre ++ rest) t
    = Preview.duckFrom settings rest (Preview.secondsAfter settings pre t).
Proof.
  induction 1 as [|m pre Hm Hall IH]; intro t.
  - reflexivity.
  - cbn [app Preview.duckFrom Preview.secondsAfter fold_left].
    unfold Preview.ducks in Hm.
    destruct (Types.m_type m); [|rewrite Hm]; cbn [app]; apply IH.
Qed.

Lemma duckFrom_quiet (settings : Types.VideoSettings) (l : list Types.UploadedMedia) (t : Q) :
  Forall (fun m => Preview.ducks m = false) l ->
  Preview.duckFrom settings l t = [].
Proof.
  intro Hall. rewrite <- (app_nil_r l).
  rewrite (duckFrom_quiet_prefix settings l [] Hall). reflexivity.
Qed.

(** X11.  A clip that ducks the music (a video with its original audio that
    is not missing), at least 0.6 s long, with only slides before and after
    it that do not duck (photos, collages, muted or missing clips): with [c]
    the start of the clip in seconds and [d] its duration, the gain of the
    ducking stage is 1 up to [c], falls linearly to 0.2 over [c, c + 0.3],
    stays at 0.2 up to [c + d - 0.3], rises linearly over the last 0.3 s of
    the clip and is 1 from [c + d] on. *)
Theorem ducking_under_a_clip :
  forall (settings : Types.VideoSettings) (pre post : list Types.UploadedMedia)
         (vid : Types.UploadedMedia) (t : Q),
    Forall (fun m => Preview.ducks m = false) pre ->
    Preview.ducks vid = true ->
    Forall (fun m => Preview.ducks m = false) post ->
    0 <= Preview.secondsAfter settings pre 0 ->
    0.6 <= Preview.slideSeconds settings vid ->
    (0 <= t -> t <= Preview.secondsAfter settings pre 0 ->
     Preview.paramValueAt 1 (Preview.duckingEvents settings (pre ++ vid :: post)) t == 1)
    /\ (Preview.secondsAfter settings pre 0 <= t ->
        t <= Preview.secondsAfter settings pre 0 + 0.3 ->
        Preview.paramValueAt 1 (Preview.duckingEvents settings (pre ++ vid :: post)) t
        == 1 - 0.8 * ((t - Preview.secondsAfter settings pre 0) / 0.3))
    /\ (Preview.secondsAfter settings pre 0 + 0.3 <= t ->
        t <= Preview.secondsAfter settings pre 0 + Preview.slideSeconds settings vid - 0.3 ->
        Preview.paramValueAt 1 (Preview.duckingEvents settings (pre ++ vid :: post)) t
        == 0.2)
    /\ (Preview.secondsAfter settings pre 0 + Preview.slideSeconds settings vid - 0.3 <= t ->
        t <= Preview.secondsAfter settings pre 0 + Preview.slideSeconds settings vid ->
        Preview.paramValueAt 1 (Preview.duckingEvents settings (pre ++ vid :: post)) t
        == 0.2 + 0.8 * ((t - (Preview.secondsAfter settings pre 0
                              + Preview.slideSeconds settings vid - 0.3)) / 0.3))
    /\ (Preview.secondsAfter settings pre 0 + Preview.slideSeconds settings vid <= t ->
        Preview.paramValueAt 1 (Preview.duckingEvents settings (pre ++ vid :: post)) t
        == 1).
Proof.
  intros settings pre post vid t Hpre Hvid Hpost Hc Hd.
  set (c := Preview.secondsAfter settings pre 0) in *.
  set (d := Preview.slideSeconds settings vid) in *.
  assert (Hcalls :
    Preview.duckingEvents settings (pre ++ vid :: post)
    = [ Preview.setValueAtTime 1 0;
        Preview.setValueAtTime 1 (JS.max 0 c);
        Preview.linearRampToValueAtTime 0.2 (JS.max 0 c + 0.3);
        Preview.setValueAtTime 0.2 (c + d - 0.3);
        Preview.linearRampToValueAtTime 1 (c + d) ]).
  { unfold Preview.duckingEvents.
    rewrite (duckFrom_quiet_prefix settings pre (vid :: post) Hpre 0). fold c.
    cbn [Preview.duckFrom]. fold d.
    unfold Preview.ducks in Hvid.
    destruct (Types.m_type vid); [discriminate|]. rewrite Hvid.
    rewrite (duckFrom_quiet settings post _ Hpost). reflexivity. }
  rewrite Hcalls. clear Hcalls.
  set (mc := JS.max 0 c).
  assert (Emc : mc == c) by (unfold mc; apply max_eq_r; exact Hc).
  unfold Preview.paramValueAt.
  rewrite timelineOf_sorted.
  2:{ repeat constructor; cbn [Preview.ev_time]; lra. }
  cbn [Preview.valueFrom Preview.ev_time Preview.ev_value].
  split; [|split; [|split; [|split]]]; intros Ht0; try intros Ht1.
  - rewrite (leb_true 0 t Ht0).
    destruct (Qlt_le_dec t mc) as [Hlt|Hge].
    + rewrite (leb_false mc t Hlt). reflexivity.
    + rewrite (leb_true mc t Hge). rewrite (leb_false (mc + 0.3) t) by lra.
      assert (Et : t == mc) by lra. rewrite Et. field; lra.
  - rewrite (leb_true 0 t) by lra. rewrite (leb_true mc t) by lra.
    destruct (Qlt_le_dec t (mc + 0.3)) as [Hlt|Hge].
    + rewrite (leb_false (mc + 0.3) t Hlt). rewrite Emc. field; lra.
    + rewrite (leb_true (mc + 0.3) t Hge).
      assert (Et : t == c + 0.3) by lra.
      destruct (Qlt_le_dec t (c + d - 0.3)) as [Hlt2|Hge2].
      * rewrite (leb_false (c + d - 0.3) t Hlt2). rewrite Et. field; lra.
      * rewrite (leb_true (c + d - 0.3) t Hge2).
        rewrite (leb_false (c + d) t) by lra. rewrite Et.
        assert (Ed : d == 0.6) by lra. rewrite Ed. field; lra.
  - rewrite (leb_true 0 t) by lra. rewrite (leb_true mc t) by lra.
    rewrite (leb_true (mc + 0.3) t) by lra.
    destruct (Qlt_le_dec t (c + d - 0.3)) as [Hlt|Hge].
    + rewrite (leb_false (c + d - 0.3) t Hlt). reflexivity.
    + rewrite (leb_true (c + d - 0.3) t Hge). rewrite (leb_false (c + d) t) by lra.
      assert (Et : t == c + d - 0.3) by lra. rewrite Et. field; lra.
  - rewrite (leb_true 0 t) by lra. rewrite (leb_true mc t) by lra.
    rewrite (leb_true (mc + 0.3) t) by lra. rewrite (leb_true (c + d - 0.3) t Ht0).
    destruct (Qlt_le_dec t (c + d)) as [Hlt|Hge].
    + rewrite (leb_false (c + d) t Hlt). field; lra.
    + rewrite (leb_true (c + d) t Hge).
      assert (Et : t == c + d) by lra. rewrite Et. field; lra.
  - rewrite (leb_true 0 t) by lra. rewrite (leb_true mc t) by lra.
    rewrite (leb_true (mc + 0.3) t) by lra. rewrite (leb_true (c + d - 0.3) t) by lra.
    rewrite (leb_true (c + d) t Ht0). reflexivity.
Qed.

Lemma ducking_under_a_clip_witness :
  Preview.paramValueAt 1
    (Preview.duckingEvents Sample.settings5 ([Sample.photo "intro"] ++ Sample.clip "clip" 5 :: []))
    7 == 0.2
  /\ Preview.paramValueAt 1
       (Preview.duckingEvents Sample.settings5
          ([Sample.photo "intro"] ++ Sample.clip "clip" 5 :: []))
       12 == 1.
Proof.
  assert (Hpre : Forall (fun m => Preview.ducks m = false) [Sample.photo "intro"])
    by (repeat constructor).
  destruct (ducking_under_a_clip Sample.settings5 [Sample.photo "intro"] []
              (Sample.clip "clip" 5) 7 Hpre eq_refl (Forall_nil _))
    as [_ [_ [Hmid _]]]; try (vm_compute; discriminate).
  destruct (ducking_under_a_clip Sample.settings5 [Sample.photo "intro"] []
              (Sample.clip "clip" 5) 12 Hpre eq_refl (Forall_nil _))
    as [_ [_ [_ [_ Hafter]]]]; try (vm_compute; discriminate).
  split.
  - apply Hmid; vm_compute; discriminate.
  - apply Hafter. vm_compute. discriminate.
Defined.

(** ** Saved states are restored *)

Lemma depthAfter_app (a b : list Canvas.CanvasOp) (d : nat) :
  Stack.depthAfter (a ++ b) d
  = match Stack.depthAfter a d with
    | Some d' => Stack.depthAfter b d'
    | None => None
    end.
Proof.
  revert d. induction a as [|op a IH]; intro d; [reflexivity|].
  destruct op; cbn [app Stack.depthAfter]; try apply IH.
  destruct d; [reflexivity|apply IH].
Qed.

Lemma balanced_app (a b : list Canvas.CanvasOp) :
  Stack.balanced a -> Stack.balanced b -> Stack.balanced (a ++ b).
Proof. intros Ha Hb d. rewrite depthAfter_app, Ha. apply Hb. Qed.

Lemma balanced_nil : Stack.balanced [].
Proof. intro d. reflexivity. Qed.

Lemma balanced_neutral (l : list Canvas.CanvasOp) :
  forallb Stack.neutral l = true -> Stack.balanced l.
Proof.
  induction l as [|op l IH]; intros Hn d; [reflexivity|].
  cbn [forallb] in Hn. apply andb_true_iff in Hn as [Hop Hl].
  destruct op; try discriminate; cbn [Stack.depthAfter]; now apply IH.
Qed.

Lemma balanced_saved (l : list Canvas.CanvasOp) :
  Stack.balanced l -> Stack.balanced (Canvas.ctx_save :: l ++ [Canvas.ctx_restore]).
Proof.
  intros Hl d. cbn [Stack.depthAfter]. rewrite depthAfter_app, Hl. reflexivity.
Qed.

Lemma run_neutral (cond : Q -> bool) (next : Q -> Q) (draws : nat)
  (body : Q -> nat -> list Canvas.CanvasOp) :
  (forall i k, forallb Stack.neutral (body i k) = true) ->
  forall fuel i k,
    forallb Stack.neutral (fst (Loop.run cond next draws body fuel i k)) = true.
Proof.
  intros Hbody fuel. induction fuel as [|fuel IH]; intros i k; cbn [Loop.run].
  - reflexivity.
  - destruct (cond i); [|reflexivity].
    specialize (IH (next i) (k + draws)%nat).
    destruct (Loop.run cond next draws body fuel (next i) (k + draws)%nat) as [ops k'].
    cbn [fst] in *. rewrite forallb_app, Hbody, IH. reflexivity.
Qed.

Ltac split_ifs :=
  repeat match goal with
         | |- context [if ?c then _ else _] => destruct c
         end.

(** Walk through a list of operations made of explicit operations and of
    segments already known to be neutral or balanced. *)
Ltac walk :=
  let d := fresh "d" in
  intro d;
  repeat first
    [ rewrite depthAfter_app
    | progress cbn [Stack.depthAfter app]
    | match goal with
      | Hn : forallb Stack.neutral ?l = true |- context [Stack.depthAfter ?l ?n] =>
          rewrite (balanced_neutral l Hn n)
      | Hb : Stack.balanced ?l |- context [Stack.depthAfter ?l ?n] =>
          rewrite (Hb n)
      end ];
  try reflexivity.

Ltac by_depth := split_ifs; walk.

Lemma balanced_effectBranch (P : Platform) (w h t : Q)
  (anim : option Types.AnimationType) (k : nat) :
  Stack.balanced (fst (Collage.effectBranch w h t anim k)).
Proof.
  unfold Collage.effectBranch.
  destruct anim as [[]|]; cbn [fst];
    try solve [unfold Collage.effect_REC_FRAME, Collage.effect_BULB_LINE; by_depth].
  unfold Collage.effect_TAPE.
  repeat match goal with
         | |- context [Loop.run ?c ?n ?d ?b ?f ?i ?k] =>
             let Hr := fresh "Hr" in
             pose proof (run_neutral c n d b ltac:(intros; reflexivity) f i k) as Hr;
             destruct (Loop.run c n d b f i k)
         end.
  cbn [fst] in *. walk.
Qed.

Lemma balanced_drawTextLines (item : Types.CanvasItem) (lineHeight : Q)
  (lines : list string) :
  forall i, forallb Stack.neutral (Collage.drawTextLines item lineHeight i lines) = true.
Proof.
  induction lines as [|line lines IH]; intro i; cbn [Collage.drawTextLines].
  - reflexivity.
  - rewrite !forallb_app, IH. split_ifs; reflexivity.
Qed.

Lemma balanced_drawItem (P : Platform) (sel : option string) (cropping : bool) (t : Q)
  (k : nat) (item : Types.CanvasItem) :
  Collage.drawImageThrows item = false ->
  Stack.balanced (fst (fst (Collage.drawItem sel cropping t k item))).
Proof.
  intro Hok. unfold Collage.drawItem. rewrite Hok.
  unfold Collage.drawImageThrows in Hok.
  pose proof (balanced_effectBranch P (Types.width item) (Types.height item) t
                (Types.animationType item) k) as Heff.
  pose proof (balanced_drawTextLines item (JS.orNum (Types.fontSize item) 60 * 1.2)
                (JS.splitLines (JS.orStr (Types.text item) "")) 0) as Hlines.
  destruct (Types.type item); [destruct (Types.imgElement item) as [[img|src]|]| |].
  - cbn [fst]. unfold Collage.drawTransform, Collage.drawImageBranch, Collage.drawSelection.
    by_depth.
  - discriminate.
  - cbn [fst]. unfold Collage.drawTransform, Collage.drawSelection. by_depth.
  - unfold Collage.drawTextBranch. cbn [fst].
    unfold Collage.drawTransform, Collage.drawSelection.
    cbn [Types.width Types.height Types.scale Types.x Types.y Types.rotation Types.type].
    by_depth.
  - destruct (Collage.effectBranch (Types.width item) (Types.height item) t
                (Types.animationType item) k) as [ops k'].
    cbn [fst] in *. unfold Collage.drawTransform, Collage.drawSelection. by_depth.
Qed.

(** The iteration that [drawImage] leaves with an exception has saved the
    state and not restored it. *)
Lemma open_drawItem (P : Platform) (sel : option string) (cropping : bool) (t : Q)
  (k : nat) (item : Types.CanvasItem) :
  Collage.drawImageThrows item = true ->
  forall d, Stack.depthAfter (fst (fst (Collage.drawItem sel cropping t k item))) d
            = Some (S d).
Proof.
  intro Hthrows. unfold Collage.drawItem. rewrite Hthrows.
  unfold Collage.drawImageThrows in Hthrows.
  destruct (Types.type item); try discriminate.
  destruct (Types.imgElement item) as [[img|src]|]; try discriminate.
  cbn [fst]. unfold Collage.drawTransform, Collage.drawImageSetup. by_depth.
Qed.

Lemma balanced_drawItems (P : Platform) (sel : option string) (cropping : bool) (t : Q) :
  forall (sorted : list Types.CanvasItem) (k : nat),
    Forall (fun i => Collage.drawImageThrows i = false) sorted ->
    exists ops drawn,
      Collage.drawItems sel cropping t k sorted = Collage.Completed ops drawn
      /\ Stack.balanced ops.
Proof.
  induction sorted as [|item sorted IH]; intros k Hall; cbn [Collage.drawItems].
  - exists [], []. split; [reflexivity|apply balanced_nil].
  - inversion Hall as [|? ? Hitem Hrest]; subst.
    pose proof (balanced_drawItem P sel cropping t k item Hitem) as Hbal.
    destruct (Collage.drawItem sel cropping t k item) as [[ops item'] k'].
    rewrite Hitem. destruct (IH k' Hrest) as (ops' & drawn' & -> & Hbal').
    exists (ops ++ ops'), (item' :: drawn'). split; [reflexivity|].
    cbn [fst] in Hbal. now apply balanced_app.
Qed.

Lemma open_drawItems (P : Platform) (sel : option string) (cropping : bool) (t : Q) :
  forall (sorted : list Types.CanvasItem) (k : nat),
    Exists (fun i => Collage.drawImageThrows i = true) sorted ->
    exists ops,
      Collage.drawItems sel cropping t k sorted = Collage.Aborted ops
      /\ forall d, Stack.depthAfter ops d = Some (S d).
Proof.
  induction sorted as [|item sorted IH]; intros k Hex; [inversion Hex|].
  cbn [Collage.drawItems].
  pose proof (balanced_drawItem P sel cropping t k item) as Hbal.
  pose proof (open_drawItem P sel cropping t k item) as Hopen.
  destruct (Collage.drawItem sel cropping t k item) as [[ops item'] k'].
  cbn [fst] in Hbal, Hopen.
  destruct (Collage.drawImageThrows item) eqn:Eitem.
  - exists ops. split; [reflexivity|]. now apply Hopen.
  - assert (Hrest : Exists (fun i => Collage.drawImageThrows i = true) sorted).
    { inversion Hex as [? ? Hhead|? ? Htail]; subst; [congruence|exact Htail]. }
    destruct (IH k' Hrest) as (ops' & -> & Hdepth).
    exists (ops ++ ops'). split; [reflexivity|].
    intro d. rewrite depthAfter_app, (Hbal eq_refl d). apply Hdepth.
Qed.

(** X12.  A frame of the collage editor over items none of which holds an
    image in the broken state runs to its end and leaves the stack of saved
    context states as it found it: every [save] it issues is undone by a
    later [restore], and it never issues a [restore] without a [save] of
    its own before it, whatever the selection and the clock.  When an item
    holds a broken image, [drawImage] throws in its iteration: the frame
    ends there with one saved state more than it found, since nothing
    restores the state saved at the start of the iteration.  [loadCollage]
    makes such an item from a stored image item that is not in the media
    library and whose source does not load. *)
Theorem editor_frame_saved_states :
  forall (P : Platform) (bgGradientId : string) (sel : option string) (cropping : bool)
         (now : Z) (itemsRef : list Types.CanvasItem),
    (Forall (fun i => Collage.drawImageThrows i = false) itemsRef ->
     exists ops drawn,
       Collage.drawFrame bgGradientId sel cropping now itemsRef
       = Collage.Completed ops drawn
       /\ Stack.balanced ops)
    /\ (Exists (fun i => Collage.drawImageThrows i = true) itemsRef ->
        exists ops,
          Collage.drawFrame bgGradientId sel cropping now itemsRef = Collage.Aborted ops
          /\ forall d, Stack.depthAfter ops d = Some (S d))
    /\ (forall (previewUrlOf : string -> option string)
               (decode : string -> option Types.ImageElement)
               (item : Types.CanvasItem) (src : string),
           Types.type item = Types.TImage ->
           previewUrlOf (Types.id item) = None ->
           Types.sourceUrl item = Some src ->
           src <> ""%string ->
           decode src = None ->
           Types.imgElement (Collage.hydrateItem previewUrlOf decode item)
           = Some (Types.Broken src)
           /\ Collage.drawImageThrows (Collage.hydrateItem previewUrlOf decode item) = true).
Proof.
  intros P bg sel cropping now itemsRef. split; [|split].
  - intro Hall. unfold Collage.drawFrame.
    destruct (Collage.gradientDef bg) as [c0 c1].
    assert (Hall' : Forall (fun i => Collage.drawImageThrows i = false)
                      (JS.sortAsc Types.zIndex itemsRef)).
    { rewrite Forall_forall in Hall |- *. intros i Hi. apply Hall.
      now apply (sortAsc_in Types.zIndex). }
    destruct (balanced_drawItems P sel cropping (Collage.frameTime now)
                (JS.sortAsc Types.zIndex itemsRef) 0 Hall') as (ops & drawn & -> & Hbal).
    do 2 eexists. split; [reflexivity|]. walk.
  - intro Hex. unfold Collage.drawFrame.
    destruct (Collage.gradientDef bg) as [c0 c1].
    assert (Hex' : Exists (fun i => Collage.drawImageThrows i = true)
                     (JS.sortAsc Types.zIndex itemsRef)).
    { rewrite Exists_exists in Hex |- *. destruct Hex as (i & Hi & Hthrows).
      exists i. split; [now apply (sortAsc_in Types.zIndex)|exact Hthrows]. }
    destruct (open_drawItems P sel cropping (Collage.frameTime now)
                (JS.sortAsc Types.zIndex itemsRef) 0 Hex') as (ops & -> & Hdepth).
    eexists. split; [reflexivity|].
    intro d. cbn [app Stack.depthAfter]. apply Hdepth.
  - intros previewUrlOf decode item src Hty Hprev Hsrc Hne Hdec.
    unfold Collage.hydrateItem. rewrite Hty, Hprev. cbn [JS.truthyStr]. rewrite Hsrc.
    destruct src as [|c src]; [contradiction|].
    cbn [JS.truthyStr JS.orStr]. rewrite Hdec.
    unfold Collage.drawImageThrows, Collage.with_image. cbn [Types.type Types.imgElement].
    rewrite Hty. split; reflexivity.
Qed.

Lemma editor_frame_saved_states_witness :
  (exists ops drawn,
      @Collage.drawFrame Sample.platform "blue" None false 4500
        [Sample.boxedText; Sample.recSticker]
      = Collage.Completed ops drawn
      /\ Stack.balanced ops)
  /\ (exists ops,
         @Collage.drawFrame Sample.platform "blue" None false 4500
           [Sample.boxedText; Sample.brokenSticker; Sample.recSticker]
         = Collage.Aborted ops
         /\ forall d, Stack.depthAfter ops d = Some (S d))
  /\ Collage.drawImageThrows Sample.brokenSticker = true.
Proof.
  split; [|split].
  - apply (editor_frame_saved_states Sample.platform "blue"%string None false 4500%Z
             [Sample.boxedText; Sample.recSticker]).
    repeat constructor.
  - apply (editor_frame_saved_states Sample.platform "blue"%string None false 4500%Z
             [Sample.boxedText; Sample.brokenSticker; Sample.recSticker]).
    apply Exists_cons_tl, Exists_cons_hd. reflexivity.
  - destruct (editor_frame_saved_states Sample.platform "blue"%string None false 4500%Z [])
      as (_ & _ & Hload).
    apply (Hload (fun _ => None) (fun _ => None) Sample.storedSticker "blob:gone"%string);
      reflexivity || discriminate.
Defined.









(** ** The pointer handlers of the editor *)

Lemma moveItem_id (P : Platform) (mode : Collage.InteractionMode) (snap : Collage.Snapshot)
  (pos : Types.Point) (dx dy : Q) (item : Types.CanvasItem) :
  Types.id (Collage.moveItem mode snap pos dx dy item) = Types.id item.
Proof. destruct mode; reflexivity. Qed.

Lemma moveItem_latest (P : Platform) (mode : Collage.InteractionMode) (snap : Collage.Snapshot)
  (p1 p2 : Types.Point) (dx1 dy1 dx2 dy2 : Q) (item : Types.CanvasItem) :
  Collage.moveItem mode snap p2 dx2 dy2 (Collage.moveItem mode snap p1 dx1 dy1 item)
  = Collage.moveItem mode snap p2 dx2 dy2 item.
Proof. destruct mode; reflexivity. Qed.

(** X14.  While a drag lasts, the canvas after a pointer move depends on
    the last pointer position only, not on the positions the pointer went
    through: each move is computed from the snapshot taken at the press, so
    two moves in a row leave the editor as the second one alone would. *)
Theorem drag_follows_last_position :
  forall (P : Platform) (st : Collage.EditorState) (p1 p2 : Types.Point),
    Collage.handleMouseMove (Collage.handleMouseMove st p1) p2
    = Collage.handleMouseMove st p2.
Proof.
  intros P st p1 p2.
  unfold Collage.handleMouseMove at 2.
  destruct (Collage.interactionMode st) eqn:Emode;
    destruct (JS.truthyStr (Collage.selectedItemId st)) eqn:Esel;
    destruct (Collage.initialItemState st) as [snap|] eqn:Esnap;
    try reflexivity;
    unfold Collage.handleMouseMove;
    cbn [Collage.interactionMode Collage.selectedItemId Collage.initialItemState
         Collage.canvasItems Collage.isCropping Collage.dragStartPos];
    rewrite Emode, Esel, Esnap; f_equal;
    rewrite map_map; apply map_ext; intro item;
    unfold Collage.isSelected;
    destruct (Collage.selectedItemId st) as [s|]; try reflexivity;
    destruct (String.eqb (Types.id item) s) eqn:Eid;
    cbn [Types.id Collage.with_rotation Collage.with_xy Collage.with_scale
         Collage.with_crop Collage.with_imgOffset Collage.moveItem];
    rewrite ?Eid; reflexivity.
Qed.

(** The stable sort of the hit test: a permutation, in descending order of
  the key. *)
Lemma insertDesc_perm {A : Type} (key : A -> Q) (x : A) (l : list A) :
  Permutation (JS.insertDesc key x l) (x :: l).
Proof.
  induction l as [|y ys IH]; cbn [JS.insertDesc].
  - reflexivity.
  - destruct (JS.ltb (key y) (key x)); [reflexivity|].
    rewrite IH. apply perm_swap.
Qed.

Lemma fold_insertDesc_perm {A : Type} (key : A -> Q) (l acc : list A) :
  Permutation (fold_left (fun acc x => JS.insertDesc key x acc) l acc) (l ++ acc).
Proof.
  revert acc. induction l as [|x l IH]; intro acc; cbn [fold_left app].
  - reflexivity.
  - rewrite IH, insertDesc_perm. symmetry. apply Permutation_middle.
Qed.

Lemma sortDesc_perm {A : Type} (key : A -> Q) (l : list A) :
  Permutation (JS.sortDesc key l) l.
Proof.
  unfold JS.sortDesc. rewrite fold_insertDesc_perm, app_nil_r. reflexivity.
Qed.

Lemma insertDesc_sorted {A : Type} (key : A -> Q) (x : A) (l : list A) :
  StronglySorted (fun a b => key b <= key a) l ->
  StronglySorted (fun a b => key b <= key a) (JS.insertDesc key x l).
Proof.
  induction 1 as [|y ys Hs IH Hy]; cbn [JS.insertDesc].
  - constructor; constructor.
  - destruct (JS.ltb (key y) (key x)) eqn:E.
    + apply ltb_spec in E. constructor.
      * constructor; assumption.
      * constructor; [lra|].
        eapply Forall_impl; [|exact Hy]. cbn. intros a Ha. lra.
    + constructor; [exact IH|].
      assert (Hxy : key x <= key y).
      { destruct (Qlt_le_dec (key y) (key x)) as [Hlt|Hle]; [|exact Hle].
        apply ltb_true in Hlt. congruence. }
      eapply Permutation_Forall.
      * symmetry. apply insertDesc_perm.
      * constructor; assumption.
Qed.

Lemma sortDesc_sorted {A : Type} (key : A -> Q) (l : list A) :
  StronglySorted (fun a b => key b <= key a) (JS.sortDesc key l).
Proof.
  unfold JS.sortDesc.
  assert (Hgen : forall acc, StronglySorted (fun a b => key b <= key a) acc ->
            StronglySorted (fun a b => key b <= key a)
              (fold_left (fun acc x => JS.insertDesc key x acc) l acc)).
  { induction l as [|x l IH]; intros acc Hacc; cbn [fold_left].
    - exact Hacc.
    - apply IH. apply insertDesc_sorted. exact Hacc. }
  apply Hgen. constructor.
Qed.

Lemma fold_max_ge (zs : list Q) :
  forall z, z <= fold_left JS.max zs z /\ Forall (fun w => w <= fold_left JS.max zs z) zs.
Proof.
  induction zs as [|w zs IH]; intro z; cbn [fold_left].
  - split; [lra|constructor].
  - destruct (IH (JS.max z w)) as [Hz Hall].
    pose proof (max_ge_l z w). pose proof (max_ge_r z w).
    split; [lra|]. constructor; [lra|exact Hall].
Qed.

Lemma maxZIndex_ge (l : list Types.CanvasItem) (j : Types.CanvasItem) :
  In j l -> Types.zIndex j <= Collage.maxZIndex l.
Proof.
  intro Hin. unfold Collage.maxZIndex.
  destruct l as [|i l]; [contradiction|]. cbn [map].
  destruct (fold_max_ge (map Types.zIndex l) (Types.zIndex i)) as [Hi Hall].
  destruct Hin as [<-|Hin]; [exact Hi|].
  rewrite Forall_forall in Hall. apply Hall. apply in_map. exact Hin.
Qed.

(** What the handle tests return: a drag of the selected item, other than a
  move, with the start values of a rotation when it is one. *)
Lemma hitHandles_spec (P : Platform) (st st' : Collage.EditorState) (pos : Types.Point)
  (item : Types.CanvasItem) :
  Collage.hitHandles st pos item = Some st' ->
  exists mode snap,
    st' = Collage.startDrag st mode pos snap
    /\ Collage.snap_item snap = item
    /\ mode <> Collage.MODE_NONE /\ mode <> Collage.MOVE
    /\ (mode = Collage.ROTATE ->
        exists r a, Collage.startRotation snap = Some r /\ Collage.startAngle snap = Some a).
Proof.
  unfold Collage.hitHandles. intro Hh.
  repeat match type of Hh with
         | (if ?c then _ else _) = _ => destruct c
         end;
    try discriminate; injection Hh as <-;
    do 2 eexists; (split; [reflexivity|]); cbn [Collage.snap_item];
    (split; [reflexivity|]); (split; [discriminate|]); (split; [discriminate|]);
    intro Hrot; try discriminate; do 2 eexists; split; reflexivity.
Qed.

(** What the scan of the bodies returns: the first item of the list under
  the pointer starts a move and is raised, or nothing is hit and the
  selection is cleared. *)
Lemma scanBodies_spec (P : Platform) (st : Collage.EditorState) (pos : Types.Point) :
  forall sorted,
    (exists pre it post,
        sorted = pre ++ it :: post
        /\ Forall (fun j => Collage.hitsBody j pos = false) pre
        /\ Collage.hitsBody it pos = true
        /\ Collage.scanBodies st pos sorted
           = Collage.mkEditor
               (map (fun i => if String.eqb (Types.id i) (Types.id it)
                              then Collage.with_zIndex i
                                     (Collage.maxZIndex (Collage.canvasItems st) + 1)
                              else i)
                    (Collage.canvasItems st))
               (Some (Types.id it))
               (if Collage.isSelected (Collage.selectedItemId st) it
                then Collage.isCropping st else false)
               Collage.MOVE pos (Some (Collage.mkSnapshot it None None)))
    \/ (Forall (fun j => Collage.hitsBody j pos = false) sorted
        /\ Collage.scanBodies st pos sorted
           = Collage.mkEditor (Collage.canvasItems st) None false Collage.MODE_NONE
               (Collage.dragStartPos st) (Collage.initialItemState st)).
Proof.
  induction sorted as [|item rest IH]; cbn [Collage.scanBodies].
  - right. split; [constructor|reflexivity].
  - destruct (Collage.hitsBody item pos) eqn:Ehit.
    + left. exists [], item, rest. repeat split; [constructor|exact Ehit].
    + destruct IH as [(pre & it & post & -> & Hpre & Hit & Heq)|[Hall Heq]].
      * left. exists (item :: pre), it, post.
        repeat split; [constructor; assumption|exact Hit|exact Heq].
      * right. split; [constructor; assumption|exact Heq].
Qed.

(** The three ways a press ends. *)
Lemma handleMouseDown_cases (P : Platform) (st : Collage.EditorState) (pos : Types.Point) :
  (exists item st',
      find (Collage.isSelected (Collage.selectedItemId st)) (Collage.canvasItems st)
      = Some item
      /\ Collage.hitHandles st pos item = Some st'
      /\ Collage.handleMouseDown st pos = st')
  \/ Collage.handleMouseDown st pos
     = Collage.scanBodies st pos (JS.sortDesc Types.zIndex (Collage.canvasItems st)).
Proof.
  unfold Collage.handleMouseDown.
  destruct (JS.truthyStr (Collage.selectedItemId st)); [|right; reflexivity].
  destruct (find _ _) as [item|] eqn:Efind; [|right; reflexivity].
  destruct (Collage.hitHandles st pos item) as [st'|] eqn:Eh; [|right; reflexivity].
  left. exists item, st'. repeat split; assumption.
Qed.

Lemma isSelected_id (sel : option string) (item : Types.CanvasItem) :
  Collage.isSelected sel item = true -> sel = Some (Types.id item).
Proof.
  unfold Collage.isSelected. destruct sel as [s|]; [|discriminate].
  intro E. apply String.eqb_eq in E. now subst.
Qed.

(** X15.  A press of the pointer never adds, removes or reorders the items
    of the canvas, and writes no field other than [zIndex]: each item is
    left as it was, or it has the id that the press selected and is the old
    item raised to one above the largest [zIndex] of the canvas. *)
Theorem press_only_restacks :
  forall (P : Platform) (st : Collage.EditorState) (pos : Types.Point),
    Forall2
      (fun old new =>
         new = old
         \/ (Collage.selectedItemId (Collage.handleMouseDown st pos) = Some (Types.id old)
             /\ new = Collage.with_zIndex old
                        (Collage.maxZIndex (Collage.canvasItems st) + 1)))
      (Collage.canvasItems st)
      (Collage.canvasItems (Collage.handleMouseDown st pos)).
Proof.
  intros P st pos.
  destruct (handleMouseDown_cases P st pos) as [(item & st' & _ & Hh & ->) | -> ].
  - apply hitHandles_spec in Hh. destruct Hh as (mode & snap & -> & _).
    cbn [Collage.startDrag Collage.canvasItems].
    apply Forall2_diag. intro a. left. reflexivity.
  - destruct (scanBodies_spec P st pos (JS.sortDesc Types.zIndex (Collage.canvasItems st)))
      as [(pre & it & post & _ & _ & _ & ->)| [_ ->] ];
      cbn [Collage.canvasItems Collage.selectedItemId].
    + apply Forall2_map_r. intro a.
      destruct (String.eqb (Types.id a) (Types.id it)) eqn:E; [|left; reflexivity].
      right. apply String.eqb_eq in E. rewrite E. split; reflexivity.
    + apply Forall2_diag. intro a. left. reflexivity.
Qed.

(** X16.  When a press starts a move, the item it picked is the topmost
    item under the pointer: the snapshot is an item of the canvas that the
    pointer is in, it becomes the selection, and no item with a larger
    [zIndex] has the pointer in its box. *)
Theorem press_selects_topmost :
  forall (P : Platform) (st : Collage.EditorState) (pos : Types.Point),
    Collage.interactionMode (Collage.handleMouseDown st pos) = Collage.MOVE ->
    exists it,
      Collage.initialItemState (Collage.handleMouseDown st pos)
      = Some (Collage.mkSnapshot it None None)
      /\ Collage.selectedItemId (Collage.handleMouseDown st pos) = Some (Types.id it)
      /\ In it (Collage.canvasItems st)
      /\ Collage.hitsBody it pos = true
      /\ forall j, In j (Collage.canvasItems st) ->
                   Types.zIndex it < Types.zIndex j ->
                   Collage.hitsBody j pos = false.
Proof.
  intros P st pos Hmode.
  destruct (handleMouseDown_cases P st pos) as [(item & st' & _ & Hh & Heq)|Heq];
    rewrite Heq in Hmode |- *.
  - apply hitHandles_spec in Hh. destruct Hh as (mode & snap & -> & _ & _ & Hnm & _).
    cbn [Collage.startDrag Collage.interactionMode] in Hmode. contradiction.
  - pose proof (sortDesc_perm Types.zIndex (Collage.canvasItems st)) as Hperm.
    pose proof (sortDesc_sorted Types.zIndex (Collage.canvasItems st)) as Hsorted.
    destruct (scanBodies_spec P st pos (JS.sortDesc Types.zIndex (Collage.canvasItems st)))
      as [(pre & it & post & Hsplit & Hpre & Hit & Hscan)|[_ Hscan]];
      rewrite Hscan in Hmode |- *; [|discriminate].
    exists it. cbn [Collage.initialItemState Collage.selectedItemId].
    rewrite Hsplit in Hperm, Hsorted.
    repeat split.
    + eapply Permutation_in; [exact Hperm|]. apply in_elt.
    + exact Hit.
    + intros j Hj Hz.
      apply (Permutation_in _ (Permutation_sym Hperm)) in Hj.
      apply in_app_or in Hj. destruct Hj as [Hj|[<-|Hj]].
      * rewrite Forall_forall in Hpre. apply Hpre. exact Hj.
      * lra.
      * exfalso.
        assert (Htail : StronglySorted (fun a b => Types.zIndex b <= Types.zIndex a)
                          (it :: post)).
        { clear - Hsorted. induction pre as [|a pre IH]; [exact Hsorted|].
          apply IH. now inversion Hsorted. }
        apply StronglySorted_inv in Htail. destruct Htail as [_ Hle].
        rewrite Forall_forall in Hle. specialize (Hle j Hj). cbn in Hle. lra.
Qed.

Lemma press_selects_topmost_witness :
  Collage.interactionMode
    (@Collage.handleMouseDown Sample.platform Sample.editor (Types.mkPoint 400 300))
  = Collage.MOVE
  /\ exists it,
      Collage.initialItemState
        (@Collage.handleMouseDown Sample.platform Sample.editor (Types.mkPoint 400 300))
      = Some (Collage.mkSnapshot it None None)
      /\ Collage.selectedItemId
           (@Collage.handleMouseDown Sample.platform Sample.editor (Types.mkPoint 400 300))
         = Some (Types.id it)
      /\ In it (Collage.canvasItems Sample.editor)
      /\ @Collage.hitsBody Sample.platform it (Types.mkPoint 400 300) = true
      /\ forall j, In j (Collage.canvasItems Sample.editor) ->
                   Types.zIndex it < Types.zIndex j ->
                   @Collage.hitsBody Sample.platform j (Types.mkPoint 400 300) = false.
Proof.
  split.
  - vm_compute. reflexivity.
  - apply (press_selects_topmost Sample.platform Sample.editor (Types.mkPoint 400 300)).
    vm_compute. reflexivity.
Defined.

(** X17.  After a press that starts a move, the selected item lies above
    every other item: its [zIndex] is larger than the [zIndex] of each item
    of the canvas that has another id. *)
Theorem pressed_item_on_top :
  forall (P : Platform) (st : Collage.EditorState) (pos : Types.Point)
         (i j : Types.CanvasItem),
    Collage.interactionMode (Collage.handleMouseDown st pos) = Collage.MOVE ->
    In i (Collage.canvasItems (Collage.handleMouseDown st pos)) ->
    In j (Collage.canvasItems (Collage.handleMouseDown st pos)) ->
    Collage.selectedItemId (Collage.handleMouseDown st pos) = Some (Types.id i) ->
    Types.id j <> Types.id i ->
    Types.zIndex j < Types.zIndex i.
Proof.
  intros P st pos i j Hmode Hi Hj Hsel Hne.
  destruct (handleMouseDown_cases P st pos) as [(item & st' & _ & Hh & Heq)|Heq];
    rewrite Heq in Hmode, Hi, Hj, Hsel.
  - apply hitHandles_spec in Hh. destruct Hh as (mode & snap & -> & _ & _ & Hnm & _).
    cbn [Collage.startDrag Collage.interactionMode] in Hmode. contradiction.
  - destruct (scanBodies_spec P st pos (JS.sortDesc Types.zIndex (Collage.canvasItems st)))
      as [(pre & it & post & _ & _ & _ & Hscan)|[_ Hscan]];
      rewrite Hscan in Hmode, Hi, Hj, Hsel; [|discriminate].
    cbn [Collage.canvasItems Collage.selectedItemId] in Hi, Hj, Hsel.
    injection Hsel as Hid.
    apply in_map_iff in Hi. destruct Hi as (i0 & <- & Hi0).
    apply in_map_iff in Hj. destruct Hj as (j0 & <- & Hj0).
    destruct (String.eqb (Types.id i0) (Types.id it)) eqn:Ei.
    + destruct (String.eqb (Types.id j0) (Types.id it)) eqn:Ej.
      * apply String.eqb_eq in Ei, Ej. cbn [Collage.with_zIndex Types.id] in Hne.
        congruence.
      * pose proof (maxZIndex_ge _ _ Hj0). cbn [Collage.with_zIndex Types.zIndex]. lra.
    + apply String.eqb_neq in Ei. congruence.
Qed.

Lemma pressed_item_on_top_witness :
  Types.zIndex Sample.boxedText
  < Types.zIndex (Collage.with_zIndex Sample.recSticker 1001).
Proof.
  apply (pressed_item_on_top Sample.platform Sample.editor (Types.mkPoint 400 300)
           (Collage.with_zIndex Sample.recSticker 1001) Sample.boxedText).
  - vm_compute. reflexivity.
  - vm_compute. right. left. reflexivity.
  - vm_compute. left. reflexivity.
  - vm_compute. reflexivity.
  - vm_compute. discriminate.
Defined.

(** X18.  Every drag that a press starts has what the move handler reads:
    a snapshot of an item of the canvas, taken at the position of the
    press, whose id is the selection; and when the drag is a rotation the
    snapshot carries the start rotation and the start angle. *)
Theorem drag_has_snapshot :
  forall (P : Platform) (st : Collage.EditorState) (pos : Types.Point),
    Collage.interactionMode (Collage.handleMouseDown st pos) <> Collage.MODE_NONE ->
    exists snap,
      Collage.initialItemState (Collage.handleMouseDown st pos) = Some snap
      /\ In (Collage.snap_item snap) (Collage.canvasItems st)
      /\ Collage.selectedItemId (Collage.handleMouseDown st pos)
         = Some (Types.id (Collage.snap_item snap))
      /\ Collage.dragStartPos (Collage.handleMouseDown st pos) = pos
      /\ (Collage.interactionMode (Collage.handleMouseDown st pos) = Collage.ROTATE ->
          exists r a,
            Collage.startRotation snap = Some r /\ Collage.startAngle snap = Some a).
Proof.
  intros P st pos Hmode.
  destruct (handleMouseDown_cases P st pos) as [(item & st' & Hfind & Hh & Heq)|Heq];
    rewrite Heq in Hmode |- *.
  - apply hitHandles_spec in Hh.
    destruct Hh as (mode & snap & -> & Hitem & _ & _ & Hrot).
    exists snap. cbn [Collage.startDrag Collage.initialItemState Collage.selectedItemId
                      Collage.dragStartPos Collage.interactionMode].
    apply find_some in Hfind. destruct Hfind as [Hin Hsel].
    rewrite Hitem. repeat split; [exact Hin|apply isSelected_id; exact Hsel|exact Hrot].
  - pose proof (sortDesc_perm Types.zIndex (Collage.canvasItems st)) as Hperm.
    destruct (scanBodies_spec P st pos (JS.sortDesc Types.zIndex (Collage.canvasItems st)))
      as [(pre & it & post & Hsplit & _ & _ & Hscan)|[_ Hscan]];
      rewrite Hscan in Hmode |- *;
      cbn [Collage.interactionMode] in Hmode; [|contradiction].
    exists (Collage.mkSnapshot it None None).
    cbn [Collage.initialItemState Collage.selectedItemId Collage.dragStartPos
         Collage.interactionMode Collage.snap_item].
    repeat split; [|discriminate].
    eapply Permutation_in; [exact Hperm|]. rewrite Hsplit. apply in_elt.
Qed.

Lemma drag_has_snapshot_witness :
  exists snap,
    Collage.initialItemState
      (@Collage.handleMouseDown Sample.platform
         (Collage.mkEditor [Sample.boxedText] (Some "title"%string) false
            Collage.MODE_NONE (Types.mkPoint 0 0) None)
         (Types.mkPoint 60 (-25)))
    = Some snap
    /\ In (Collage.snap_item snap) [Sample.boxedText]
    /\ Collage.selectedItemId
         (@Collage.handleMouseDown Sample.platform
            (Collage.mkEditor [Sample.boxedText] (Some "title"%string) false
               Collage.MODE_NONE (Types.mkPoint 0 0) None)
            (Types.mkPoint 60 (-25)))
       = Some (Types.id (Collage.snap_item snap))
    /\ Collage.dragStartPos
         (@Collage.handleMouseDown Sample.platform
            (Collage.mkEditor [Sample.boxedText] (Some "title"%string) false
               Collage.MODE_NONE (Types.mkPoint 0 0) None)
            (Types.mkPoint 60 (-25)))
       = Types.mkPoint 60 (-25)
    /\ (Collage.interactionMode
          (@Collage.handleMouseDown Sample.platform
             (Collage.mkEditor [Sample.boxedText] (Some "title"%string) false
                Collage.MODE_NONE (Types.mkPoint 0 0) None)
             (Types.mkPoint 60 (-25)))
        = Collage.ROTATE ->
        exists r a,
          Collage.startRotation snap = Some r /\ Collage.startAngle snap = Some a).
Proof.
  apply (drag_has_snapshot Sample.platform
           (Collage.mkEditor [Sample.boxedText] (Some "title"%string) false
              Collage.MODE_NONE (Types.mkPoint 0 0) None)
           (Types.mkPoint 60 (-25))).
  vm_compute. discriminate.
Defined.

(** ** The hit box and the drawn box *)

Lemma abs_le_iff (a b : Q) : JS.leb (Qabs a) b = true <-> - b <= a /\ a <= b.
Proof. rewrite leb_spec. apply Qabs_Qle_condition. Qed.

(** X19.  When the two paddings of an item agree, a press is in the body
    of the item exactly when it is on a point of its drawn box: the point
    that the draw loop's transform gives to [(u, v)] of the item's own frame
    passes the body test if and only if [(u, v)] lies in the box of the
    item's width and height widened by the padding on each side.  The
    platform's sine and cosine are assumed to satisfy the identities of a
    rotation, the padding not to be negative and the scale to be
    positive. *)
Theorem body_hit_is_drawn_box :
  forall (P : Platform) (item : Types.CanvasItem) (u v : Q),
    (forall a, Math_cos (- a) == Math_cos a) ->
    (forall a, Math_sin (- a) == - Math_sin a) ->
    (forall a, Math_cos a * Math_cos a + Math_sin a * Math_sin a == 1) ->
    Collage.drawPad item = Collage.hitPad item ->
    0 <= Collage.drawPad item ->
    0 < Types.scale item ->
    (Collage.hitsBody item
       (Geometry.apply (Geometry.transformOf (Collage.drawTransform item))
          (Types.mkPoint u v)) = true
     <-> (- Collage.drawPad item <= u <= Types.width item + Collage.drawPad item
          /\ - Collage.drawPad item <= v <= Types.height item + Collage.drawPad item)).
Proof.
  intros P item u v Hcos Hsin Hcircle Hpad Hnonneg Hscale.
  destruct (@hit_test_inverts_draw P Hcos Hsin Hcircle item u v Hpad Hnonneg) as [HX HY].
  unfold Collage.hitsBody. rewrite andb_true_iff, !abs_le_iff.
  unfold Collage.localX, Collage.localY in HX, HY.
  set (q := Geometry.apply _ _) in *.
  set (lx := Collage.localDx item q) in *.
  set (ly := Collage.localDy item q) in *.
  unfold Collage.hitTotalW, Collage.hitTotalH in *. rewrite <- Hpad in *.
  set (p := Collage.drawPad item) in *.
  set (s := Types.scale item) in *.
  set (w := Types.width item) in *.
  set (h := Types.height item) in *.
  assert (Hlx : lx == s * (u + p) - (w + p * 2) * s * (1 # 2)).
  { rewrite <- HX. field. }
  assert (Hly : ly == s * (v + p) - (h + p * 2) * s * (1 # 2)).
  { rewrite <- HY. field. }
  assert (Hw : (w + p * 2) * s / 2 == (w + p * 2) * s * (1 # 2)) by field.
  assert (Hh : (h + p * 2) * s / 2 == (h + p * 2) * s * (1 # 2)) by field.
  rewrite Hw, Hh, Hlx, Hly.
  split.
  - intros [[H1 H2] [H3 H4]].
    assert (0 <= s * (u + p)) by lra.
    assert (s * (u + p) <= s * (w + p * 2)) by lra.
    assert (0 <= s * (v + p)) by lra.
    assert (s * (v + p) <= s * (h + p * 2)) by lra.
    repeat split; nra.
  - intros [[H1 H2] [H3 H4]].
    assert (0 <= s * (u + p)) by nra.
    assert (s * (u + p) <= s * (w + p * 2)) by nra.
    assert (0 <= s * (v + p)) by nra.
    assert (s * (v + p) <= s * (h + p * 2)) by nra.
    repeat split; lra.
Qed.

Lemma body_hit_is_drawn_box_witness :
  @Collage.hitsBody Sample.platform Sample.boxedText
    (Geometry.apply
       (@Geometry.transformOf Sample.platform (Collage.drawTransform Sample.boxedText))
       (Types.mkPoint (-5) 45)) = true
  <-> (- Collage.drawPad Sample.boxedText <= -5
         <= Types.width Sample.boxedText + Collage.drawPad Sample.boxedText
       /\ - Collage.drawPad Sample.boxedText <= 45
            <= Types.height Sample.boxedText + Collage.drawPad Sample.boxedText).
Proof.
  destruct sample_rotation_identities as (Hcos & Hsin & Hcircle).
  apply (body_hit_is_drawn_box Sample.platform Sample.boxedText (-5) 45 Hcos Hsin Hcircle).
  - reflexivity.
  - vm_compute. discriminate.
  - vm_compute. reflexivity.
Defined.

Lemma truthyStr_nonempty (s : string) : s <> EmptyString -> JS.truthyStr (Some s) = true.
Proof. destruct s; [contradiction|reflexivity]. Qed.

(** X20.  Press and drag: when a press starts a move and no id is the
    empty string, a pointer move to [pos2] puts each item that has the id
    of the pressed item at the pressed item's position shifted by the
    displacement of the pointer since the press, raised by the press, and
    leaves every other item as it was before the press. *)
Theorem press_then_drag_moves_item :
  forall (P : Platform) (st : Collage.EditorState) (pos pos2 : Types.Point),
    Forall (fun i => Types.id i <> EmptyString) (Collage.canvasItems st) ->
    Collage.interactionMode (Collage.handleMouseDown st pos) = Collage.MOVE ->
    exists it,
      In it (Collage.canvasItems st)
      /\ Collage.hitsBody it pos = true
      /\ Collage.canvasItems
           (Collage.handleMouseMove (Collage.handleMouseDown st pos) pos2)
         = map (fun i =>
                  if String.eqb (Types.id i) (Types.id it)
                  then Collage.with_xy
                         (Collage.with_zIndex i
                            (Collage.maxZIndex (Collage.canvasItems st) + 1))
                         (Types.x it + (Types.px pos2 - Types.px pos))
                         (Types.y it + (Types.py pos2 - Types.py pos))
                  else i)
               (Collage.canvasItems st).
Proof.
  intros P st pos pos2 Hids Hmode.
  destruct (handleMouseDown_cases P st pos) as [(item & st' & _ & Hh & Heq)|Heq];
    rewrite Heq in Hmode |- *.
  - apply hitHandles_spec in Hh. destruct Hh as (mode & snap & -> & _ & _ & Hnm & _).
    cbn [Collage.startDrag Collage.interactionMode] in Hmode. contradiction.
  - pose proof (sortDesc_perm Types.zIndex (Collage.canvasItems st)) as Hperm.
    destruct (scanBodies_spec P st pos (JS.sortDesc Types.zIndex (Collage.canvasItems st)))
      as [(pre & it & post & Hsplit & _ & Hit & Hscan)|[_ Hscan]];
      rewrite Hscan in Hmode |- *; [|discriminate].
    assert (Hin : In it (Collage.canvasItems st)).
    { eapply Permutation_in; [exact Hperm|]. rewrite Hsplit. apply in_elt. }
    exists it. split; [exact Hin|]. split; [exact Hit|].
    rewrite Forall_forall in Hids.
    unfold Collage.handleMouseMove.
    cbn [Collage.interactionMode Collage.selectedItemId Collage.initialItemState
         Collage.canvasItems Collage.dragStartPos].
    rewrite (truthyStr_nonempty _ (Hids it Hin)).
    cbn [Collage.canvasItems]. rewrite map_map. apply map_ext. intro i.
    unfold Collage.isSelected.
    destruct (String.eqb (Types.id i) (Types.id it)) eqn:Ei;
      cbn [Collage.with_zIndex Types.id]; rewrite Ei; reflexivity.
Qed.

Lemma press_then_drag_moves_item_witness :
  exists it,
    In it (Collage.canvasItems Sample.editor)
    /\ @Collage.hitsBody Sample.platform it (Types.mkPoint 400 300) = true
    /\ Collage.canvasItems
         (@Collage.handleMouseMove Sample.platform
            (@Collage.handleMouseDown Sample.platform Sample.editor (Types.mkPoint 400 300))
            (Types.mkPoint 410 280))
       = map (fun i =>
                if String.eqb (Types.id i) (Types.id it)
                then Collage.with_xy
                       (Collage.with_zIndex i
                          (Collage.maxZIndex (Collage.canvasItems Sample.editor) + 1))
                       (Types.x it + (Types.px (Types.mkPoint 410 280)
                                      - Types.px (Types.mkPoint 400 300)))
                       (Types.y it + (Types.py (Types.mkPoint 410 280)
                                      - Types.py (Types.mkPoint 400 300)))
                else i)
             (Collage.canvasItems Sample.editor).
Proof.
  apply (press_then_drag_moves_item Sample.platform Sample.editor
           (Types.mkPoint 400 300) (Types.mkPoint 410 280)).
  - repeat constructor; discriminate.
  - vm_compute. reflexivity.
Defined.

(** ** Photos on the canvas *)

(** X21.  A photo added to the canvas fits: for a decoded image of
    positive size and a random source with values between 0 and 1, the new
    item keeps the proportions of the image, its larger side is 300, it is
    not scaled, and its box lies within the 960 by 720 canvas. *)
Theorem added_photo_fits_canvas :
  forall (P : Platform) (imgId : string) (imgObj : Types.ImageElement)
         (prev : list Types.CanvasItem),
    0 < Types.img_width imgObj ->
    0 < Types.img_height imgObj ->
    0 <= Math_random 0 <= 1 ->
    0 <= Math_random 1 <= 1 ->
    let it := Collage.newImageItem imgId imgObj prev in
    Types.width it * Types.img_height imgObj == Types.height it * Types.img_width imgObj
    /\ Types.width it <= 300 /\ Types.height it <= 300
    /\ (Types.width it == 300 \/ Types.height it == 300)
    /\ Types.scale it = 1
    /\ 0 <= Types.x it /\ Types.x it + Types.width it <= Collage.WIDTH
    /\ 0 <= Types.y it /\ Types.y it + Types.height it <= Collage.HEIGHT.
Proof.
  intros P imgId imgObj prev Hw Hh Hr0 Hr1.
  cbn [Collage.newImageItem Types.width Types.height Types.scale Types.x Types.y].
  unfold Collage.WIDTH, Collage.HEIGHT, JS.min.
  set (iw := Types.img_width imgObj) in *.
  set (ih := Types.img_height imgObj) in *.
  set (r0 := Math_random 0) in *.
  set (r1 := Math_random 1) in *.
  assert (Ha : (300 / iw) * iw == 300) by (field; lra).
  assert (Hb : (300 / ih) * ih == 300) by (field; lra).
  set (a := 300 / iw) in *. set (b := 300 / ih) in *.
  assert (Hapos : 0 < a) by nra.
  assert (Hbpos : 0 < b) by nra.
  assert (Hpos : 0 <= iw * Qmin a b /\ 0 <= ih * Qmin a b
                 /\ iw * Qmin a b <= 300 /\ ih * Qmin a b <= 300
                 /\ (iw * Qmin a b == 300 \/ ih * Qmin a b == 300)).
  { destruct (Q.min_spec a b) as [[Hlt Hmin]|[Hle Hmin]]; rewrite Hmin.
    - repeat split; first [nra | left; lra].
    - repeat split; first [nra | right; lra]. }
  set (s := Qmin a b) in *.
  destruct Hpos as (Hw0 & Hh0 & Hw1 & Hh1 & Hside).
  split; [ring|].
  split; [exact Hw1|]. split; [exact Hh1|]. split; [exact Hside|].
  split; [reflexivity|].
  set (w := iw * s) in *. set (h := ih * s) in *.
  repeat split; nra.
Qed.

Lemma added_photo_fits_canvas_witness :
  let it := @Collage.newImageItem Sample.platform "a" (Types.mkImage "blob:a" 600 400)
              [Sample.boxedText] in
  Types.width it * 400 == Types.height it * 600
  /\ Types.width it <= 300 /\ Types.height it <= 300
  /\ (Types.width it == 300 \/ Types.height it == 300)
  /\ Types.scale it = 1
  /\ 0 <= Types.x it /\ Types.x it + Types.width it <= Collage.WIDTH
  /\ 0 <= Types.y it /\ Types.y it + Types.height it <= Collage.HEIGHT.
Proof.
  apply (added_photo_fits_canvas Sample.platform "a" (Types.mkImage "blob:a" 600 400)
           [Sample.boxedText]).
  - reflexivity.
  - reflexivity.
  - split; vm_compute; discriminate.
  - split; vm_compute; discriminate.
Defined.

Lemma find_id_none (imgId : string) (l : list Types.CanvasItem) :
  find (fun i => String.eqb (Types.id i) imgId) l = None <-> ~ In imgId (map Types.id l).
Proof.
  induction l as [|i l IH]; cbn [find map In].
  - split; [intros _ []|reflexivity].
  - destruct (String.eqb (Types.id i) imgId) eqn:E.
    + apply String.eqb_eq in E. split; [discriminate|]. intro Hn. exfalso. auto.
    + apply String.eqb_neq in E. rewrite IH. tauto.
Qed.

Lemma filter_other_ids (imgId : string) (l : list Types.CanvasItem) :
  ~ In imgId (map Types.id l) ->
  filter (fun i => negb (String.eqb (Types.id i) imgId)) l = l.
Proof.
  induction l as [|i l IH]; cbn [filter map In]; intro Hn; [reflexivity|].
  destruct (String.eqb (Types.id i) imgId) eqn:E.
  - apply String.eqb_eq in E. exfalso. auto.
  - cbn [negb]. f_equal. apply IH. tauto.
Qed.

Lemma in_ids_filter (imgId j : string) (l : list Types.CanvasItem) :
  In j (map Types.id (filter (fun i => negb (String.eqb (Types.id i) imgId)) l))
  <-> In j (map Types.id l) /\ j <> imgId.
Proof.
  rewrite !in_map_iff. split.
  - intros (i & <- & Hi). apply filter_In in Hi. destruct Hi as [Hi Hne].
    apply negb_true_iff, String.eqb_neq in Hne. split; [exists i; auto|exact Hne].
  - intros [(i & <- & Hi) Hne]. exists i. split; [reflexivity|].
    apply filter_In. split; [exact Hi|]. now apply negb_true_iff, String.eqb_neq.
Qed.

Lemma NoDup_ids_filter (f : Types.CanvasItem -> bool) (l : list Types.CanvasItem) :
  NoDup (map Types.id l) -> NoDup (map Types.id (filter f l)).
Proof.
  induction l as [|i l IH]; cbn [map filter]; intro Hnd; [constructor|].
  inversion Hnd as [|? ? Hni Hrest]; subst.
  destruct (f i); [|apply IH; exact Hrest].
  cbn [map]. constructor; [|apply IH; exact Hrest].
  intro Hin. apply Hni. apply in_map_iff in Hin. destruct Hin as (k & Hk & Hin).
  apply filter_In in Hin. apply in_map_iff. exists k. tauto.
Qed.

(** X22.  Toggling a photo flips its presence on the canvas and nothing
    else: afterwards the id of the photo is on the canvas exactly when it
    was not before, every other id is on the canvas exactly when it was
    before, and ids that were pairwise different still are. *)
Theorem toggle_flips_presence :
  forall (P : Platform) (st : Collage.EditorState) (imgId : string)
         (imgObj : Types.ImageElement),
    let after := Collage.canvasItems (Collage.toggleImageOnCanvas st imgId imgObj) in
    (In imgId (map Types.id after) <-> ~ In imgId (map Types.id (Collage.canvasItems st)))
    /\ (forall j, j <> imgId ->
                  (In j (map Types.id after)
                   <-> In j (map Types.id (Collage.canvasItems st))))
    /\ (NoDup (map Types.id (Collage.canvasItems st)) -> NoDup (map Types.id after)).
Proof.
  intros P st imgId imgObj. cbv zeta. unfold Collage.toggleImageOnCanvas.
  destruct (find _ (Collage.canvasItems st)) as [found|] eqn:Efind;
    cbn [Collage.canvasItems].
  - assert (Hin : In imgId (map Types.id (Collage.canvasItems st))).
    { apply find_some in Efind. destruct Efind as [Hin Heq].
      apply String.eqb_eq in Heq. rewrite <- Heq. apply in_map. exact Hin. }
    split; [|split].
    + split; [|intro Hn; contradiction].
      intro Hx. apply in_ids_filter in Hx. destruct Hx as [_ Hx]. congruence.
    + intros j Hj. rewrite in_ids_filter. tauto.
    + apply NoDup_ids_filter.
  - apply find_id_none in Efind.
    rewrite map_app. cbn [map Collage.newImageItem Types.id].
    split; [|split].
    + split; [intros _; exact Efind|].
      intros _. apply in_or_app. right. left. reflexivity.
    + intros j Hj. rewrite in_app_iff. cbn [In]. split; [|tauto].
      intros [Hx|[Hx|[]]]; [exact Hx|congruence].
    + intro Hnd. apply NoDup_app; [exact Hnd|repeat constructor; intros []|].
      intros a Ha [<-|[]]. contradiction.
Qed.

Lemma find_app_none {A : Type} (f : A -> bool) (l l' : list A) :
  find f l = None -> find f (l ++ l') = find f l'.
Proof.
  induction l as [|a l IH]; cbn [find app]; [reflexivity|].
  destruct (f a); [discriminate|exact IH].
Qed.

(** X23.  Adding a photo that is not on the canvas and taking it off
    again gives the canvas back as it was, item for item, with nothing
    selected and cropping off. *)
Theorem toggle_twice_restores :
  forall (P : Platform) (st : Collage.EditorState) (imgId : string)
         (imgObj imgObj' : Types.ImageElement),
    ~ In imgId (map Types.id (Collage.canvasItems st)) ->
    let st2 := Collage.toggleImageOnCanvas
                 (Collage.toggleImageOnCanvas st imgId imgObj) imgId imgObj' in
    Collage.canvasItems st2 = Collage.canvasItems st
    /\ Collage.selectedItemId st2 = None
    /\ Collage.isCropping st2 = false.
Proof.
  intros P st imgId imgObj imgObj' Hnot. cbv zeta.
  pose proof Hnot as Hfind. apply find_id_none in Hfind.
  assert (Hfirst : Collage.toggleImageOnCanvas st imgId imgObj
                   = Collage.mkEditor
                       (Collage.canvasItems st
                        ++ [Collage.newImageItem imgId imgObj (Collage.canvasItems st)])
                       (Some imgId) false (Collage.interactionMode st)
                       (Collage.dragStartPos st) (Collage.initialItemState st)).
  { unfold Collage.toggleImageOnCanvas. rewrite Hfind. reflexivity. }
  rewrite Hfirst. unfold Collage.toggleImageOnCanvas.
  cbn [Collage.canvasItems Collage.selectedItemId Collage.isCropping].
  rewrite (find_app_none _ _ _ Hfind). cbn [find Collage.newImageItem Types.id].
  rewrite String.eqb_refl.
  cbn [Collage.canvasItems Collage.selectedItemId Collage.isCropping].
  repeat split.
  rewrite filter_app. cbn [filter Types.id]. rewrite String.eqb_refl. cbn [negb].
  rewrite app_nil_r. apply filter_other_ids. exact Hnot.
Qed.

Lemma toggle_twice_restores_witness :
  let st2 := @Collage.toggleImageOnCanvas Sample.platform
               (@Collage.toggleImageOnCanvas Sample.platform Sample.editor "a"
                  (Types.mkImage "blob:a" 600 400))
               "a" (Types.mkImage "blob:a" 600 400) in
  Collage.canvasItems st2 = Collage.canvasItems Sample.editor
  /\ Collage.selectedItemId st2 = None
  /\ Collage.isCropping st2 = false.
Proof.
  apply (toggle_twice_restores Sample.platform Sample.editor "a"
           (Types.mkImage "blob:a" 600 400) (Types.mkImage "blob:a" 600 400)).
  cbn. intros [H|[H|[]]]; discriminate.
Defined.

(** ** Press and drag on the overlays of a slide *)

Lemma map_other_ids (oid : string) (new : Types.CanvasItem) (l : list Types.CanvasItem) :
  ~ In oid (map Types.id l) ->
  map (fun i => if String.eqb (Types.id i) oid then new else i) l = l.
Proof.
  induction l as [|i l IH]; cbn [map In]; intro Hn; [reflexivity|].
  destruct (String.eqb (Types.id i) oid) eqn:E.
  - apply String.eqb_eq in E. exfalso. auto.
  - f_equal. apply IH. tauto.
Qed.

(** With pairwise different ids, writing the new item at the index that
  [findIndex] gives replaces the one item of that id. *)
Lemma findIndex_replaceAt (oid : string) (new : Types.CanvasItem) :
  forall (l : list Types.CanvasItem) (k : nat),
    NoDup (map Types.id l) ->
    In oid (map Types.id l) ->
    exists n,
      Preview.findIndexById oid l k = Some (k + n)%nat
      /\ Preview.replaceAt n new l
         = map (fun i => if String.eqb (Types.id i) oid then new else i) l.
Proof.
  induction l as [|e l IH]; intros k Hnd Hin; [contradiction|].
  cbn [map] in Hnd, Hin. inversion Hnd as [|? ? Hni Hrest]; subst.
  cbn [Preview.findIndexById map].
  destruct (String.eqb (Types.id e) oid) eqn:E.
  - exists 0%nat. split; [f_equal; lia|].
    cbn [Preview.replaceAt]. f_equal. symmetry. apply map_other_ids.
    apply String.eqb_eq in E. congruence.
  - apply String.eqb_neq in E.
    destruct Hin as [Hin|Hin]; [contradiction|].
    destruct (IH (S k) Hrest Hin) as (n & Hfind & Hrep).
    exists (S n). split; [rewrite Hfind; f_equal; lia|].
    cbn [Preview.replaceAt]. f_equal. exact Hrep.
Qed.

Lemma pressTests_move (P : Platform) (pos : Types.Point) (item : Types.CanvasItem)
  (cx cy halfW halfH : Q) (snap : Preview.OverlaySnapshot) :
  Preview.pressTests pos item cx cy halfW halfH = Some (Preview.OV_MOVE, snap) ->
  snap = Preview.mkOverlaySnapshot item None None.
Proof.
  unfold Preview.pressTests. intro Hp.
  repeat match type of Hp with
         | (if ?c then _ else _) = _ => destruct c
         end; try discriminate.
  now injection Hp as <-.
Qed.

Lemma scanEffects_spec (P : Platform) (pos : Types.Point) :
  forall (effects : list Types.CanvasItem) (oid : string)
         (hit : Preview.OverlayMode * Preview.OverlaySnapshot),
    Preview.scanEffects pos effects = Some (oid, hit) ->
    exists e, In e effects /\ Types.id e = oid /\ Preview.pressEffect pos e = Some hit.
Proof.
  induction effects as [|e rest IH]; intros oid hit Hs; cbn [Preview.scanEffects] in Hs.
  - discriminate.
  - destruct (Preview.pressEffect pos e) as [h|] eqn:Ep.
    + injection Hs as <- <-. exists e. repeat split; [left; reflexivity|exact Ep].
    + destruct (IH oid hit Hs) as (e' & Hin & Hid & Hp).
      exists e'. repeat split; [right; exact Hin|exact Hid|exact Hp].
Qed.

(** X24.  Press and drag on a sticker of the selected slide: when the
    preview is editing, the ids of the slide's stickers are pairwise
    different and not empty, and a press starts a move of a sticker, a
    pointer move to [pos2] sends an update of the slide in which that
    sticker is shifted by the displacement of the pointer since the press
    and every other sticker is as it was. *)
Theorem overlay_press_then_drag :
  forall (P : Platform) (env : Preview.FrameEnv) (mediaList : list Types.UploadedMedia)
         (k : nat) (m : Types.UploadedMedia) (effects : list Types.CanvasItem)
         (ps ps' : Preview.PointerState) (pos pos2 : Types.Point) (oid : string),
    Preview.appState env <> Types.RENDERING ->
    Preview.isPlaying env = false ->
    nth_error mediaList k = Some m ->
    Preview.selectedMediaId env = Some (Types.m_id m) ->
    Types.m_overlayEffects m = Some effects ->
    NoDup (map Types.id effects) ->
    Forall (fun e => Types.id e <> EmptyString) effects ->
    Preview.handleMouseDown env true mediaList k ps pos = (Some oid, ps') ->
    Preview.interactionMode ps' = Preview.OV_MOVE ->
    oid <> "text"%string ->
    Preview.handleMouseMove (Preview.with_selectedOverlayId env (Some oid)) true
      mediaList k ps' pos2
    = Some (Types.m_id m,
            Preview.overlayEffects
              (map (fun e =>
                      if String.eqb (Types.id e) oid
                      then Collage.with_xy e
                             (Types.x e + (Types.px pos2 - Types.px pos))
                             (Types.y e + (Types.py pos2 - Types.py pos))
                      else e)
                   effects)).
Proof.
  intros P env mediaList k m effects ps ps' pos pos2 oid
    Hstate Hplay Hnth Hsel Heff Hnd Hids Hdown Hmode Htext.
  unfold Preview.handleMouseDown in Hdown.
  rewrite Hplay, Hnth, Hsel, Heff, String.eqb_refl in Hdown.
  assert (Hr : Types.appState_eqb (Preview.appState env) Types.RENDERING = false).
  { destruct (Preview.appState env); try reflexivity. contradiction. }
  rewrite Hr in Hdown. cbn [orb negb] in Hdown.
  destruct (Preview.scanEffects pos (rev effects)) as [[oid' [mode snap]]|] eqn:Escan.
  - injection Hdown as <- <-. cbn [Preview.interactionMode] in Hmode. subst mode.
    apply scanEffects_spec in Escan. destruct Escan as (e & Hin & Hid & Hpress).
    apply in_rev in Hin.
    unfold Preview.pressEffect in Hpress. apply pressTests_move in Hpress. subst snap.
    rewrite Forall_forall in Hids.
    assert (Hne : oid' <> EmptyString) by (rewrite <- Hid; apply Hids; exact Hin).
    unfold Preview.handleMouseMove.
    cbn [Preview.interactionMode Preview.selectedOverlayId Preview.with_selectedOverlayId
         Preview.initialOverlayState Preview.selectedMediaId Preview.dragStartPos].
    rewrite (truthyStr_nonempty _ Hne), Hnth, Hsel, String.eqb_refl, Heff.
    cbn [negb orb].
    destruct (String.eqb oid' "text") eqn:Et; [apply String.eqb_eq in Et; contradiction|].
    assert (Hin' : In oid' (map Types.id effects)).
    { rewrite <- Hid. apply in_map. exact Hin. }
    destruct (findIndex_replaceAt oid'
                (Preview.moveEffect Preview.OV_MOVE (Preview.mkOverlaySnapshot e None None)
                   pos2 (Types.px pos2 - Types.px pos) (Types.py pos2 - Types.py pos))
                effects 0 Hnd Hin') as (n & Hfind & Hrep).
    change (0 + n)%nat with n in Hfind.
    rewrite Hfind, Hrep. do 3 f_equal.
    apply map_ext_in. intros a Ha.
    destruct (String.eqb (Types.id a) oid') eqn:Ea; [|reflexivity].
    apply String.eqb_eq in Ea.
    assert (a = e).
    { clear - Hnd Ha Hin Ea Hid. rewrite <- Hid in Ea. clear Hid.
      induction effects as [|b l IH]; [contradiction|].
      cbn [map] in Hnd. inversion Hnd as [|? ? Hni Hrest]; subst.
      destruct Ha as [->|Ha], Hin as [->|Hin]; try reflexivity.
      - exfalso. apply Hni. rewrite Ea. apply in_map. exact Hin.
      - exfalso. apply Hni. rewrite <- Ea. apply in_map. exact Ha.
      - apply IH; assumption. }
    subst a. reflexivity.
  - destruct (Types.m_overlayText m) as [ot|].
    + destruct (Preview.pressText pos ot) as [[mode snap]|].
      * injection Hdown as <- <-. contradiction.
      * discriminate.
    + discriminate.
Qed.

Lemma overlay_press_then_drag_witness :
  @Preview.handleMouseMove Sample.platform
    (Preview.with_selectedOverlayId Sample.editingEnv (Some "effect-1"%string)) true
    [Sample.decorated] 0
    (Preview.mkPointer Preview.OV_MOVE (Types.mkPoint 400 300)
       (Some (Preview.mkOverlaySnapshot Sample.recSticker None None)))
    (Types.mkPoint 410 280)
  = Some (Types.m_id Sample.decorated,
          Preview.overlayEffects
            (map (fun e =>
                    if String.eqb (Types.id e) "effect-1"
                    then Collage.with_xy e
                           (Types.x e + (Types.px (Types.mkPoint 410 280)
                                         - Types.px (Types.mkPoint 400 300)))
                           (Types.y e + (Types.py (Types.mkPoint 410 280)
                                         - Types.py (Types.mkPoint 400 300)))
                    else e)
                 [Sample.recSticker])).
Proof.
  apply (overlay_press_then_drag Sample.platform Sample.editingEnv [Sample.decorated] 0
           Sample.decorated [Sample.recSticker]
           (Preview.mkPointer Preview.OV_NONE (Types.mkPoint 0 0) None)).
  - discriminate.
  - reflexivity.
  - reflexivity.
  - reflexivity.
  - reflexivity.
  - repeat constructor. intros [].
  - repeat constructor. discriminate.
  - vm_compute. reflexivity.
  - reflexivity.
  - discriminate.
Defined.

(** ** The media list of the application *)

Lemma splice_remove_at {A : Type} (l1 : list A) (x : A) (l2 : list A) :
  App.splice_remove (List.length l1) (l1 ++ x :: l2) = l1 ++ l2.
Proof.
  unfold App.splice_remove. induction l1 as [|a l1 IH]; cbn [List.length app firstn skipn].
  - reflexivity.
  - f_equal. exact IH.
Qed.

Lemma splice_insert_at {A : Type} (l1 : list A) (x : A) (l2 : list A) :
  App.splice_insert (List.length l1) x (l1 ++ l2) = l1 ++ x :: l2.
Proof.
  unfold App.splice_insert. induction l1 as [|a l1 IH]; cbn [List.length app firstn skipn].
  - destruct l2; reflexivity.
  - f_equal. exact IH.
Qed.

Lemma splice_remove_map {A B : Type} (f : A -> B) (n : nat) (l : list A) :
  App.splice_remove n (map f l) = map f (App.splice_remove n l).
Proof.
  unfold App.splice_remove. now rewrite map_app, firstn_map, skipn_map.
Qed.

Lemma splice_insert_map {A B : Type} (f : A -> B) (n : nat) (x : A) (l : list A) :
  App.splice_insert n (f x) (map f l) = map f (App.splice_insert n x l).
Proof.
  unfold App.splice_insert. now rewrite map_app, firstn_map, skipn_map.
Qed.

(** A drag between two positions of the list, as a move of one item. *)
Lemma handleDragOver_moves (media : list Types.UploadedMedia) (d j : nat)
  (x : Types.UploadedMedia) :
  nth_error media d = Some x ->
  d <> j ->
  App.handleDragOver media (Some d) j
  = (map Some (App.splice_insert j x (App.splice_remove d media)), Some j).
Proof.
  intros Hx Hne. unfold App.handleDragOver.
  destruct (Nat.eqb d j) eqn:E; [apply Nat.eqb_eq in E; contradiction|].
  rewrite Hx, splice_remove_map, splice_insert_map. reflexivity.
Qed.

Lemma splice_insert_perm {A : Type} (j : nat) (x : A) (l : list A) :
  Permutation (App.splice_insert j x l) (x :: l).
Proof.
  unfold App.splice_insert. rewrite <- Permutation_middle.
  now rewrite firstn_skipn.
Qed.

Lemma splice_insert_nth {A : Type} (j : nat) (x : A) (l : list A) :
  (j <= List.length l)%nat -> nth_error (App.splice_insert j x l) j = Some x.
Proof.
  intro Hj. unfold App.splice_insert.
  rewrite nth_error_app2; rewrite firstn_length_le by exact Hj; [|lia].
  now rewrite Nat.sub_diag.
Qed.

Lemma splice_insert_remove {A : Type} (j : nat) (x : A) (l : list A) :
  (j <= List.length l)%nat -> App.splice_remove j (App.splice_insert j x l) = l.
Proof.
  intro Hj. unfold App.splice_insert.
  rewrite <- (firstn_length_le l Hj) at 1.
  rewrite splice_remove_at. apply firstn_skipn.
Qed.

Lemma sumMs_perm (settings : Types.VideoSettings) (l l' : list Types.UploadedMedia) :
  Permutation l l' -> Preview.sumMs settings l == Preview.sumMs settings l'.
Proof.
  induction 1 as [|m l l' _ IH|a b l|l l' l'' _ IH1 _ IH2]; cbn [Preview.sumMs].
  - reflexivity.
  - rewrite IH. reflexivity.
  - ring.
  - rewrite IH1. exact IH2.
Qed.

(** X25.  Dragging a slide over another position reorders the timeline
    and nothing else: for two positions of the list, the new list holds
    the same slides, the dragged slide is at the position dragged over, and
    the total duration of the show is the same. *)
Theorem drag_over_reorders :
  forall (settings : Types.VideoSettings) (media : list Types.UploadedMedia) (d j : nat),
    (d < List.length media)%nat ->
    (j < List.length media)%nat ->
    exists newMedia,
      App.handleDragOver media (Some d) j = (map Some newMedia, Some j)
      /\ Permutation newMedia media
      /\ nth_error newMedia j = nth_error media d
      /\ Preview.calculateTotalDuration settings newMedia
         == Preview.calculateTotalDuration settings media.
Proof.
  intros settings media d j Hd Hj.
  destruct (Nat.eq_dec d j) as [->|Hne].
  - exists media. unfold App.handleDragOver. rewrite Nat.eqb_refl.
    repeat split; reflexivity.
  - destruct (nth_error media d) as [x|] eqn:Hx;
      [|apply nth_error_None in Hx; lia].
    exists (App.splice_insert j x (App.splice_remove d media)).
    destruct (nth_error_split _ _ Hx) as (l1 & l2 & Hsplit & Hlen).
    assert (Hrem : App.splice_remove d media = l1 ++ l2).
    { rewrite Hsplit, <- Hlen. apply splice_remove_at. }
    assert (Hperm : Permutation (App.splice_insert j x (App.splice_remove d media)) media).
    { rewrite splice_insert_perm, Hrem, Hsplit. apply Permutation_middle. }
    split; [apply handleDragOver_moves; assumption|].
    split; [exact Hperm|].
    split.
    + apply splice_insert_nth. rewrite Hrem.
      rewrite Hsplit in Hj. rewrite length_app in Hj |- *. cbn [List.length] in Hj. lia.
    + rewrite !total_is_sum. apply sumMs_perm. exact Hperm.
Qed.

Lemma drag_over_reorders_witness :
  exists newMedia,
    App.handleDragOver [Sample.photo "a"; Sample.photo "b"; Sample.clip "c" 5] (Some 0%nat) 2
    = (map Some newMedia, Some 2%nat)
    /\ Permutation newMedia [Sample.photo "a"; Sample.photo "b"; Sample.clip "c" 5]
    /\ nth_error newMedia 2
       = nth_error [Sample.photo "a"; Sample.photo "b"; Sample.clip "c" 5] 0
    /\ Preview.calculateTotalDuration Sample.settings newMedia
       == Preview.calculateTotalDuration Sample.settings
            [Sample.photo "a"; Sample.photo "b"; Sample.clip "c" 5].
Proof.
  apply (drag_over_reorders Sample.settings
           [Sample.photo "a"; Sample.photo "b"; Sample.clip "c" 5] 0 2);
    cbn [List.length]; lia.
Defined.

Lemma map_Some_inj {A : Type} (l l' : list A) : map Some l = map Some l' -> l = l'.
Proof.
  revert l'. induction l as [|a l IH]; intros [|b l'] Hm; try discriminate; [reflexivity|].
  cbn [map] in Hm. injection Hm as -> Hm. f_equal. apply IH. exact Hm.
Qed.

(** X26.  Dragging a slide over a position and then back over the
    position it came from gives the timeline back as it was. *)
Theorem drag_back_restores :
  forall (media newMedia : list Types.UploadedMedia) (d j : nat),
    (d < List.length media)%nat ->
    (j < List.length media)%nat ->
    fst (App.handleDragOver media (Some d) j) = map Some newMedia ->
    App.handleDragOver newMedia (snd (App.handleDragOver media (Some d) j)) d
    = (map Some media, Some d).
Proof.
  intros media newMedia d j Hd Hj Hnew.
  destruct (Nat.eq_dec d j) as [->|Hne].
  - unfold App.handleDragOver in Hnew |- *. rewrite Nat.eqb_refl in Hnew |- *.
    cbn [fst snd] in Hnew |- *. rewrite Nat.eqb_refl.
    apply map_Some_inj in Hnew. now subst newMedia.
  - destruct (nth_error media d) as [x|] eqn:Hx;
      [|apply nth_error_None in Hx; lia].
    rewrite (handleDragOver_moves media d j x Hx Hne) in Hnew |- *.
    cbn [fst snd] in Hnew |- *.
    apply map_Some_inj in Hnew. subst newMedia.
    destruct (nth_error_split _ _ Hx) as (l1 & l2 & Hsplit & Hlen).
    assert (Hrem : App.splice_remove d media = l1 ++ l2).
    { rewrite Hsplit, <- Hlen. apply splice_remove_at. }
    assert (Hjlen : (j <= List.length (l1 ++ l2))%nat).
    { rewrite Hsplit in Hj. rewrite length_app in Hj |- *. cbn [List.length] in Hj. lia. }
    rewrite (handleDragOver_moves _ j d x); [|rewrite Hrem; apply splice_insert_nth; exact Hjlen|auto].
    rewrite Hrem, (splice_insert_remove j x (l1 ++ l2) Hjlen).
    rewrite <- Hlen, splice_insert_at, <- Hsplit. reflexivity.
Qed.

Lemma drag_back_restores_witness :
  App.handleDragOver [Sample.photo "b"; Sample.clip "c" 5; Sample.photo "a"]
    (snd (App.handleDragOver [Sample.photo "a"; Sample.photo "b"; Sample.clip "c" 5]
            (Some 0%nat) 2)) 0
  = (map Some [Sample.photo "a"; Sample.photo "b"; Sample.clip "c" 5], Some 0%nat).
Proof.
  apply (drag_back_restores [Sample.photo "a"; Sample.photo "b"; Sample.clip "c" 5]
           [Sample.photo "b"; Sample.clip "c" 5; Sample.photo "a"] 0 2).
  - cbn [List.length]. lia.
  - cbn [List.length]. lia.
  - reflexivity.
Defined.

(** ** Saving a collage to the timeline *)

Lemma existsb_usedIds (canvasItems : list Types.CanvasItem) (s : string) :
  existsb (String.eqb s) (Collage.usedIds canvasItems) = true
  <-> exists i, In i canvasItems /\ Types.type i = Types.TImage
                /\ JS.truthyFlag (Types.isSticker i) = false /\ Types.id i = s.
Proof.
  rewrite existsb_exists. unfold Collage.usedIds. split.
  - intros (u & Hu & Heq). apply String.eqb_eq in Heq. subst u.
    apply in_map_iff in Hu. destruct Hu as (i & Hid & Hi).
    apply filter_In in Hi. destruct Hi as [Hi Hc].
    apply andb_true_iff in Hc. destruct Hc as [Hty Hst].
    exists i. repeat split; [exact Hi| |now apply negb_true_iff|exact Hid].
    destruct (Types.type i); try discriminate. reflexivity.
  - intros (i & Hi & Hty & Hst & Hid). exists s. split; [|apply String.eqb_refl].
    apply in_map_iff. exists i. split; [exact Hid|].
    apply filter_In. split; [exact Hi|]. rewrite Hty, Hst. reflexivity.
Qed.

(** X27.  Saving a new collage puts it first on the timeline and takes
    the photos it uses off the timeline: the rest of the new list is the old
    list, in its order, without the slides whose id is the id of an image
    of the canvas that is not a sticker; text, effects and stickers take
    nothing off. *)
Theorem new_collage_takes_its_photos :
  forall (P : Platform) (prev : list Types.UploadedMedia)
         (canvasItems : list Types.CanvasItem) (bgGradientId title freshId fileName : string),
    exists collage keep,
      App.handleCollageSave prev (Collage.usedIds canvasItems)
        (Collage.collageDataOf canvasItems bgGradientId title) None freshId fileName
      = collage :: filter (fun m => keep (Types.m_id m)) prev
      /\ Types.m_id collage = freshId
      /\ Types.m_collageData collage
         = Some (Collage.collageDataOf canvasItems bgGradientId title)
      /\ forall s,
           keep s = false
           <-> exists i, In i canvasItems /\ Types.type i = Types.TImage
                         /\ JS.truthyFlag (Types.isSticker i) = false /\ Types.id i = s.
Proof.
  intros P prev canvasItems bgGradientId title freshId fileName.
  eexists. exists (fun s => negb (existsb (String.eqb s) (Collage.usedIds canvasItems))).
  unfold App.handleCollageSave. cbn [JS.orStr].
  split; [reflexivity|]. split; [reflexivity|]. split; [reflexivity|].
  intro s. rewrite negb_false_iff. apply existsb_usedIds.
Qed.

Lemma find_id_some (eid : string) (l : list Types.UploadedMedia) :
  In eid (map Types.m_id l) ->
  exists m, find (fun m => String.eqb (Types.m_id m) eid) l = Some m.
Proof.
  induction l as [|a l IH]; cbn [map In find]; [contradiction|].
  intros [Ha|Hin].
  - rewrite Ha, String.eqb_refl. eauto.
  - destruct (String.eqb (Types.m_id a) eid); [eauto|apply IH; exact Hin].
Qed.

(** X28.  Saving changes to a collage that is on the timeline replaces it
    where it stands: no slide is added, removed or moved, every id and every
    transition is as before, each slide is unchanged unless it has the id of
    the collage, and a slide of the timeline carries the new collage
    data. *)
Theorem resaved_collage_stays_in_place :
  forall (P : Platform) (prev : list Types.UploadedMedia) (selectedIds : list string)
         (collageData : Types.CollageData) (eid freshId fileName : string),
    eid <> EmptyString ->
    In eid (map Types.m_id prev) ->
    let result :=
      App.handleCollageSave prev selectedIds collageData (Some eid) freshId fileName in
    map Types.m_id result = map Types.m_id prev
    /\ map Types.m_transition result = map Types.m_transition prev
    /\ Forall2 (fun old new => new = old \/ Types.m_id old = eid) prev result
    /\ exists m, In m result /\ Types.m_id m = eid
                 /\ Types.m_collageData m = Some collageData.
Proof.
  intros P prev selectedIds collageData eid freshId fileName Hne Hin. cbv zeta.
  unfold App.handleCollageSave.
  rewrite (truthyStr_nonempty eid Hne).
  destruct (find_id_some eid prev Hin) as (found & ->). clear found.
  assert (Hor : JS.orStr (Some eid) freshId = eid).
  { destruct eid; [contradiction|reflexivity]. }
  rewrite Hor. clear Hor.
  induction prev as [|a prev IH]; [contradiction|].
  cbn [App.replaceFirst map].
  destruct (String.eqb (Types.m_id a) eid) eqn:E.
  - apply String.eqb_eq in E. cbn [map Types.m_id Types.m_transition].
    repeat split; try (f_equal; congruence).
    + constructor; [right; exact E|]. apply Forall2_diag. intro b. left. reflexivity.
    + eexists. split; [left; reflexivity|]. split; reflexivity.
  - apply String.eqb_neq in E. cbn [map In] in Hin.
    destruct Hin as [Ha|Hin]; [contradiction|].
    destruct (IH Hin) as (Hids & Htr & Hall & m & Hm & Hmid & Hmc).
    cbn [map]. repeat split; try (f_equal; assumption).
    + constructor; [left; reflexivity|exact Hall].
    + exists m. repeat split; [right; exact Hm|exact Hmid|exact Hmc].
Qed.

Lemma resaved_collage_stays_in_place_witness :
  let result :=
    @App.handleCollageSave Sample.platform [Sample.photo "a"; Sample.photo "k"]
      ["a"%string] (Types.mkCollage [] "blue" "t") (Some "k"%string) "fresh" "collage.png" in
  map Types.m_id result = map Types.m_id [Sample.photo "a"; Sample.photo "k"]
  /\ map Types.m_transition result
     = map Types.m_transition [Sample.photo "a"; Sample.photo "k"]
  /\ Forall2 (fun old new => new = old \/ Types.m_id old = "k"%string)
       [Sample.photo "a"; Sample.photo "k"] result
  /\ exists m, In m result /\ Types.m_id m = "k"%string
               /\ Types.m_collageData m = Some (Types.mkCollage [] "blue" "t").
Proof.
  apply (resaved_collage_stays_in_place Sample.platform
           [Sample.photo "a"; Sample.photo "k"] ["a"%string]
           (Types.mkCollage [] "blue" "t") "k" "fresh" "collage.png").
  - discriminate.
  - right. left. reflexivity.
Defined.

(** ** Loading a project *)

Lemma restoreItem_quiet (random : option Types.TransitionType) (m : App.SavedMediaItem) :
  Preview.ducks (App.restoreItem random m) = false.
Proof.
  unfold App.restoreItem, Preview.ducks.
  destruct (match Types.m_collageData (App.saved_rest m) with
            | Some _ => JS.truthyStr (App.fileData m)
            | None => false
            end); cbn [Types.m_type Types.m_missing Types.m_enableOriginalAudio].
  - reflexivity.
  - destruct (Types.m_type (App.saved_rest m)); [reflexivity|].
    cbn [JS.truthyFlag negb]. apply andb_false_r.
Qed.

(** X29.  A project that has just been loaded never ducks the music,
    whatever the project file holds: every restored slide is a collage
    image or is flagged missing, so the only call made on the ducking gain
    is the one that sets it to 1 at time 0. *)
Theorem loaded_project_never_ducks :
  forall (settings : Types.VideoSettings) (randoms : nat -> option Types.TransitionType)
         (media : list App.SavedMediaItem),
    Preview.duckingEvents settings (App.restoredMedia randoms media)
    = [Preview.setValueAtTime 1 0].
Proof.
  intros settings randoms media. unfold Preview.duckingEvents, App.restoredMedia.
  f_equal. apply duckFrom_quiet.
  generalize 0%nat. induction media as [|m media IH]; intro i; cbn [App.restoreFrom].
  - constructor.
  - constructor; [apply restoreItem_quiet|apply IH].
Qed.

Lemma restoreItem_keeps (settings : Types.VideoSettings)
  (random : option Types.TransitionType) (mf : Types.UploadedMedia * option string) :
  (Types.m_collageData (fst mf) <> None -> Types.m_type (fst mf) = Types.MImage) ->
  let new := App.restoreItem random
               (App.mkSaved (fst mf)
                  (match Types.m_collageData (fst mf), snd mf with
                   | Some _, Some base64 => Some base64
                   | _, _ => None
                   end)) in
  Types.m_id new = Types.m_id (fst mf)
  /\ Preview.slideSeconds settings new = Preview.slideSeconds settings (fst mf)
  /\ Types.m_collageData new = Types.m_collageData (fst mf)
  /\ Types.m_overlayText new = Types.m_overlayText (fst mf)
  /\ Types.m_overlayEffects new = Types.m_overlayEffects (fst mf)
  /\ (Types.m_transition (fst mf) <> None
      -> Types.m_transition new = Types.m_transition (fst mf)).
Proof.
  intro Hty. cbv zeta. unfold App.restoreItem. cbn [App.saved_rest App.fileData].
  destruct mf as [m file]. cbn [fst snd] in *.
  assert (Htr : Types.m_transition m <> None ->
                match Types.m_transition m with Some t => Some t | None => random end
                = Types.m_transition m).
  { destruct (Types.m_transition m); [reflexivity|contradiction]. }
  destruct (Types.m_collageData m) as [c|] eqn:Ec.
  - destruct file as [base64|].
    + destruct (JS.truthyStr (Some base64));
        cbn [Types.m_id Types.m_collageData Types.m_overlayText Types.m_overlayEffects
             Types.m_transition];
        repeat split; try assumption; try congruence.
      unfold Preview.slideSeconds. cbn [Types.m_type Types.m_duration].
      rewrite Hty by discriminate. reflexivity.
    + cbn [JS.truthyStr Types.m_id Types.m_collageData Types.m_overlayText
           Types.m_overlayEffects Types.m_transition].
      repeat split; try assumption; congruence.
  - cbn [Types.m_id Types.m_collageData Types.m_overlayText Types.m_overlayEffects
         Types.m_transition].
    repeat split; try assumption; congruence.
Qed.

(** X30.  Saving a project and loading it again keeps the timeline: when
    the slides that carry collage data are images and the list read from
    the project file is the list written to it, the restored slides are the
    old ones in their order, each with its id, its duration, its collage
    data, its overlays and, if it had one, its transition; the total
    duration of the show is unchanged. *)
Theorem save_then_load_keeps_timeline :
  forall (settings : Types.VideoSettings) (randoms : nat -> option Types.TransitionType)
         (media : list (Types.UploadedMedia * option string)),
    Forall (fun mf => Types.m_collageData (fst mf) <> None
                      -> Types.m_type (fst mf) = Types.MImage) media ->
    let restored := App.restoredMedia randoms (App.serializedMedia media) in
    Forall2
      (fun old new =>
         Types.m_id new = Types.m_id old
         /\ Preview.slideSeconds settings new = Preview.slideSeconds settings old
         /\ Types.m_collageData new = Types.m_collageData old
         /\ Types.m_overlayText new = Types.m_overlayText old
         /\ Types.m_overlayEffects new = Types.m_overlayEffects old
         /\ (Types.m_transition old <> None
             -> Types.m_transition new = Types.m_transition old))
      (map fst media) restored
    /\ Preview.calculateTotalDuration settings restored
       == Preview.calculateTotalDuration settings (map fst media).
Proof.
  intros settings randoms media Hall. cbv zeta.
  unfold App.restoredMedia. rewrite !total_is_sum.
  generalize 0%nat.
  induction Hall as [|mf media Hmf Hall IH]; intro i;
    cbn [App.serializedMedia map App.restoreFrom Preview.sumMs].
  - split; [constructor|reflexivity].
  - destruct (IH (S i)) as [Hrest Hsum].
    pose proof (restoreItem_keeps settings (randoms i) mf Hmf) as Hkeep.
    cbv zeta in Hkeep.
    split.
    + constructor; [exact Hkeep|exact Hrest].
    + destruct Hkeep as (_ & Hsec & _). rewrite Hsec.
      unfold App.serializedMedia in Hsum. rewrite Hsum. reflexivity.
Qed.

Lemma save_then_load_keeps_timeline_witness :
  let restored :=
    App.restoredMedia (fun _ => Some Types.FADE)
      (App.serializedMedia [(Sample.photo "a", Some "data:a"%string);
                            (Sample.clip "c" 5, None)]) in
  Forall2
    (fun old new =>
       Types.m_id new = Types.m_id old
       /\ Preview.slideSeconds Sample.settings new = Preview.slideSeconds Sample.settings old
       /\ Types.m_collageData new = Types.m_collageData old
       /\ Types.m_overlayText new = Types.m_overlayText old
       /\ Types.m_overlayEffects new = Types.m_overlayEffects old
       /\ (Types.m_transition old <> None
           -> Types.m_transition new = Types.m_transition old))
    (map fst [(Sample.photo "a", Some "data:a"%string); (Sample.clip "c" 5, None)])
    restored
  /\ Preview.calculateTotalDuration Sample.settings restored
     == Preview.calculateTotalDuration Sample.settings
          (map fst [(Sample.photo "a", Some "data:a"%string); (Sample.clip "c" 5, None)]).
Proof.
  apply (save_then_load_keeps_timeline Sample.settings (fun _ => Some Types.FADE)
           [(Sample.photo "a", Some "data:a"%string); (Sample.clip "c" 5, None)]).
  repeat constructor; cbn; intro Hc; now contradiction Hc.
Defined.
